(** * SentinelPharma: server-side contracts and the evidence pipeline

    A shallow embedding of the parts of the SentinelPharma repository that
    its specification makes promises about:

    - [Json], [Zod], [Schemas]: the Zod response schemas of the server
      (validation schemas file), with Zod's object parsing (unknown keys
      are stripped, optional keys may be absent);
    - [RateLimiter]: [server/src/utils/rateLimiter.js];
    - [Archive]: the archival controller ([saveReport], [shareReport],
      [unshareReport]) over the Mongoose models, the route validators and
      the logger module as the controller imports it;
    - [Controller]: the handlers of the controller that set a report's
      status ([archiveReport], [restoreReport], [deleteReport]);
    - [Pipeline]: the evidence validation and truthfulness gate.  The
      Python engine that implements it is not part of the sources at hand,
      so this part is modelled from the specification's text. *)

From Stdlib Require Import Ascii ZArith QArith Lia Lqa.
From stdpp Require Import base option list strings gmap.

Set Warnings "-register-all".
Local Open Scope string_scope.

(** ** JSON values, as [JSON.parse] hands them to the server *)

Module Json.

Inductive json :=
| JNull
| JBool (b : bool)
| JNum (q : Q)
| JStr (s : string)
| JArr (items : list json)
| JObj (fields : list (string * json)).

(** Property read [o[k]] on a parsed object; [None] is JavaScript's
    [undefined]. *)
Fixpoint get (k : string) (fields : list (string * json)) : option json :=
  match fields with
  | [] => None
  | (k', v) :: rest => if String.eqb k k' then Some v else get k rest
  end.

Definition prop (k : string) (j : json) : option json :=
  match j with
  | JObj fields => get k fields
  | _ => None
  end.

Definition has_key (k : string) (j : json) : bool :=
  match prop k j with Some _ => true | None => false end.

Definition is_string (j : json) : bool :=
  match j with JStr _ => true | _ => false end.

Definition is_array (j : json) : bool :=
  match j with JArr _ => true | _ => false end.

Definition is_number (j : json) : bool :=
  match j with JNum _ => true | _ => false end.

Definition is_object (j : json) : bool :=
  match j with JObj _ => true | _ => false end.

(** The names every object literal inherits from [Object.prototype]:
    reading [o[name]] for one of them on a literal that has no such key of
    its own yields a function (for [__proto__], the prototype object), not
    [undefined]. *)
Definition inherited_names : list string :=
  [ "constructor"; "hasOwnProperty"; "isPrototypeOf"; "propertyIsEnumerable";
    "toLocaleString"; "toString"; "valueOf"; "__proto__";
    "__defineGetter__"; "__defineSetter__"; "__lookupGetter__";
    "__lookupSetter__" ].

End Json.

(** ** The fragment of Zod the schemas use *)

Module Zod.
Import Json.

Inductive schema :=
| z_string
| z_number (int : bool) (min max : option Q)
| z_boolean
| z_enum (values : list string)
| z_array (item : schema)
| z_object (shape : list (string * schema))
| z_record (value : schema)
| z_union (options : list schema)
| z_any
| z_optional (inner : schema).

(** [Number.isInteger] on a finite number. *)
Definition is_integer (q : Q) : bool := Pos.eqb (Qden (Qred q)) 1.

Definition above (lo : option Q) (q : Q) : bool :=
  match lo with Some m => Qle_bool m q | None => true end.

Definition below (hi : option Q) (q : Q) : bool :=
  match hi with Some m => Qle_bool q m | None => true end.

Definition in_enum (values : list string) (s : string) : bool :=
  existsb (String.eqb s) values.

(** The three traversals of [parse], over the items of an array, the keys
    of an object shape and the options of a union.  [p] is the parser of
    the component schema. *)
Definition parse_items (p : option json -> option (option json)) :
    list json -> option (list json) :=
  fix each (l : list json) : option (list json) :=
    match l with
    | [] => Some []
    | x :: rest =>
        match p (Some x), each rest with
        | Some (Some y), Some ys => Some (y :: ys)
        | _, _ => None
        end
    end.

Definition parse_values (p : option json -> option (option json)) :
    list (string * json) -> option (list (string * json)) :=
  fix each (l : list (string * json)) : option (list (string * json)) :=
    match l with
    | [] => Some []
    | (k, x) :: rest =>
        match p (Some x), each rest with
        | Some (Some y), Some ys => Some ((k, y) :: ys)
        | _, _ => None
        end
    end.

Definition parse_keys {S : Type} (p : S -> option json -> option (option json))
    (fields : list (string * json)) :
    list (string * S) -> option (list (string * json)) :=
  fix keys (sh : list (string * S)) : option (list (string * json)) :=
    match sh with
    | [] => Some []
    | (k, sk) :: rest =>
        match p sk (get k fields), keys rest with
        | Some (Some y), Some out => Some ((k, y) :: out)
        | Some None, Some out => Some out
        | _, _ => None
        end
    end.

Definition parse_first {S : Type} (p : S -> option (option json)) :
    list S -> option (option json) :=
  fix first (os : list S) : option (option json) :=
    match os with
    | [] => None
    | o :: rest =>
        match p o with
        | Some r => Some r
        | None => first rest
        end
    end.

(** [schema.parse(v)]: [None] is a thrown [ZodError]; [Some out] is the
    parsed value, [Some None] standing for [undefined].  An object schema
    keeps the keys of its shape only (Zod's default [strip] policy) and
    leaves out a key whose parsed value is [undefined]. *)
Fixpoint parse (s : schema) (v : option json) {struct s} : option (option json) :=
  match s with
  | z_string =>
      match v with Some (JStr x) => Some (Some (JStr x)) | _ => None end
  | z_number int lo hi =>
      match v with
      | Some (JNum q) =>
          if (implb int (is_integer q) && above lo q && below hi q)%bool
          then Some (Some (JNum q)) else None
      | _ => None
      end
  | z_boolean =>
      match v with Some (JBool b) => Some (Some (JBool b)) | _ => None end
  | z_enum values =>
      match v with
      | Some (JStr x) => if in_enum values x then Some (Some (JStr x)) else None
      | _ => None
      end
  | z_array item =>
      match v with
      | Some (JArr xs) =>
          match parse_items (parse item) xs with
          | Some ys => Some (Some (JArr ys))
          | None => None
          end
      | _ => None
      end
  | z_object shape =>
      match v with
      | Some (JObj fields) =>
          match parse_keys (fun sk x => parse sk x) fields shape with
          | Some out => Some (Some (JObj out))
          | None => None
          end
      | _ => None
      end
  | z_record value =>
      match v with
      | Some (JObj fields) =>
          match parse_values (parse value) fields with
          | Some out => Some (Some (JObj out))
          | None => None
          end
      | _ => None
      end
  | z_union options => parse_first (fun o => parse o v) options
  | z_any => Some v
  | z_optional inner =>
      match v with
      | None => Some None
      | Some _ => parse inner v
      end
  end.

(** [schema.safeParse(v).success] *)
Definition accepts (s : schema) (j : json) : bool :=
  match parse s (Some j) with Some _ => true | None => false end.

Definition int_min0 : schema := z_number true (Some 0%Q) None.
Definition int_any : schema := z_number true None None.
Definition number : schema := z_number false None None.
Definition number_0_10 : schema := z_number false (Some 0%Q) (Some 10%Q).

End Zod.

(** ** The response schemas of the server *)

Module Schemas.
Import Json Zod.

Definition opt (s : schema) : schema := z_optional s.

Definition ClinicalResponseSchema : schema :=
  z_object
    [ ("molecule", z_string);
      ("total_trials_found", int_min0);
      ("active_trials", int_min0);
      ("completed_trials", opt int_min0);
      ("phase_distribution",
        opt (z_object [ ("phase_1", int_min0); ("phase_2", int_min0);
                        ("phase_3", int_min0); ("phase_4", int_min0) ]));
      ("current_indications", opt (z_array z_string));
      ("potential_new_indications", opt (z_array z_string));
      ("safety_score", number_0_10);
      ("efficacy_rating", z_string);
      ("adverse_events",
        opt (z_array (z_object [ ("event", z_string); ("frequency", z_string);
                                 ("severity", z_string) ])));
      ("black_box_warning", opt z_boolean);
      ("regulatory_status", opt (z_record z_string));
      ("agent", z_string);
      ("version", z_string);
      ("processing_time_ms", opt number) ].

Definition PatentResponseSchema : schema :=
  z_object
    [ ("molecule", z_string);
      ("total_patents", opt int_min0);
      ("active_patents", int_min0);
      ("pending_applications", opt int_min0);
      ("earliest_expiration", z_string);
      ("latest_expiration", opt z_string);
      ("freedom_to_operate", z_string);
      ("fto_score", opt number_0_10);
      ("blocking_patents", opt int_min0);
      ("key_patent_holders",
        opt (z_array (z_object [ ("company", z_string);
                                 ("patent_count", opt int_any);
                                 ("key_claims", opt z_string) ])));
      ("licensing_opportunities", opt z_string);
      ("geographic_coverage", opt (z_record z_boolean));
      ("ip_risk_level", opt z_string);
      ("strategy_recommendations", opt (z_array z_string));
      ("agent", z_string);
      ("version", z_string);
      ("processing_time_ms", opt number) ].

Definition MarketResponseSchema : schema :=
  z_object
    [ ("molecule", z_string);
      ("projected_revenue_millions", z_number false (Some 0%Q) None);
      ("development_cost_millions", z_number false (Some 0%Q) None);
      ("roi_percentage", number);
      ("net_present_value_millions", opt number);
      ("market_size_billions", z_union [number; z_string]);
      ("market_cagr_percent", opt number);
      ("addressable_market_share_percent", opt number);
      ("time_to_market_years", z_union [number; z_string]);
      ("probability_of_success", z_string);
      ("risk_level", opt z_string);
      ("competitive_landscape", z_string);
      ("key_competitors", opt (z_array z_string));
      ("patent_cliff_risk", opt z_string);
      ("recommendation", z_enum ["STRONG_BUY"; "BUY"; "HOLD"; "REVIEW"]);
      ("confidence_level", opt z_string);
      ("investment_thesis", opt z_string);
      ("agent", z_string);
      ("version", z_string);
      ("processing_time_ms", opt number) ].

Definition VisionResponseSchema : schema :=
  z_object
    [ ("molecule", z_string);
      ("structure_analyzed", opt z_boolean);
      ("molecular_weight", opt number);
      ("molecular_formula", opt z_string);
      ("smiles_notation", opt z_string);
      ("binding_sites_identified", int_min0);
      ("primary_target", opt z_string);
      ("binding_affinity_score", opt number);
      ("similar_compounds",
        opt (z_array (z_object [ ("name", z_string);
                                 ("similarity_score", number);
                                 ("mechanism", opt z_string) ])));
      ("structural_alerts", opt (z_array z_string));
      ("properties",
        opt (z_object [ ("logP", opt number); ("pKa", opt number);
                        ("hbd", opt int_any); ("hba", opt int_any);
                        ("rotatable_bonds", opt int_any); ("tpsa", opt number);
                        ("lipinski_violations", opt int_any) ]));
      ("druglikeness_score", opt number);
      ("bioavailability_score", opt number);
      ("visualization",
        opt (z_object [ ("3d_model_available", opt z_boolean);
                        ("conformers_generated", opt int_any);
                        ("energy_minimized", opt z_boolean) ]));
      ("agent", z_string);
      ("version", z_string);
      ("processing_time_ms", opt number) ].

Definition ValidationResponseSchema : schema :=
  z_object
    [ ("molecule", z_string);
      ("risk_flags", z_array z_string);
      ("risk_count", int_min0);
      ("risk_severity", z_enum ["LOW"; "MEDIUM"; "HIGH"]);
      ("inconsistencies",
        opt (z_array (z_object [ ("type", z_string); ("description", z_string);
                                 ("severity", z_string) ])));
      ("data_quality_score", z_number false (Some 0%Q) (Some 1%Q));
      ("confidence_scores", opt (z_record number));
      ("overall_confidence", z_enum ["LOW"; "MEDIUM"; "HIGH"]);
      ("critical_issues", z_array z_string);
      ("requires_human_review", z_boolean);
      ("validation_recommendations", z_array z_string);
      ("hallucination_check",
        opt (z_object [ ("claims_verified", int_any); ("claims_flagged", int_any);
                        ("confidence_level", z_string) ]));
      ("agent", z_string);
      ("version", z_string);
      ("processing_time_ms", opt number) ].

Definition KnowledgeGraphSchema : schema :=
  z_object
    [ ("nodes",
        z_union [ int_min0;
                  z_array (z_object [ ("id", z_string); ("label", z_string);
                                      ("type", z_string); ("color", opt z_string);
                                      ("metadata", opt (z_record z_any)) ]) ]);
      ("edges",
        z_union [ int_min0;
                  z_array (z_object [ ("source", z_string); ("target", z_string);
                                      ("type", opt z_string);
                                      ("weight", opt number) ]) ]);
      ("key_pathways", opt (z_array z_string));
      ("node_count", opt int_any);
      ("edge_count", opt int_any) ].

Definition AgentExecutedSchema : schema :=
  z_object [ ("name", z_string);
             ("status", z_enum ["completed"; "failed"; "skipped"]);
             ("duration_ms", opt number) ].

Definition AnalysisResponseShape : list (string * schema) :=
  [ ("request_id", z_string);
    ("molecule", z_string);
    ("processing_mode", opt z_string);
    ("model_used", opt z_string);
    ("agents_executed", z_array AgentExecutedSchema);
    ("clinical", opt ClinicalResponseSchema);
    ("patent", opt PatentResponseSchema);
    ("market", opt MarketResponseSchema);
    ("vision", opt VisionResponseSchema);
    ("validation", opt ValidationResponseSchema);
    ("knowledge_graph", opt KnowledgeGraphSchema);
    ("processingTimeMs", opt number) ].

Definition AnalysisResponseSchema : schema := z_object AnalysisResponseShape.

(** [validateAnalysisResponse]: the parsed value, or the data as it came
    when the schema throws (the error is only logged). *)
Definition validateAnalysisResponse (data : json) : json :=
  match parse AnalysisResponseSchema (Some data) with
  | Some (Some out) => out
  | _ => data
  end.

(** What [schemas[agentType]] reads from the object literal of
    [validateAgentResponse]. *)
Inductive agent_lookup :=
| Schema (s : schema)    (* one of the five keys of the literal *)
| Inherited              (* a name of [Object.prototype]: a value that is no schema *)
| Undefined.

Definition agent_schemas (agentType : string) : agent_lookup :=
  if String.eqb agentType "clinical" then Schema ClinicalResponseSchema
  else if String.eqb agentType "patent" then Schema PatentResponseSchema
  else if String.eqb agentType "market" then Schema MarketResponseSchema
  else if String.eqb agentType "vision" then Schema VisionResponseSchema
  else if String.eqb agentType "validation" then Schema ValidationResponseSchema
  else if existsb (String.eqb agentType) inherited_names then Inherited
  else Undefined.

(** [validateAgentResponse]: the value returned, or the error thrown.
    [schema.safeParse(data).data || data] is [data] again once [parse]
    has thrown.  An inherited value is truthy, so the guard lets it
    through; it has no [parse], which throws a [TypeError] inside [try],
    and no [safeParse], which throws the [TypeError] that leaves the
    function from its [catch] block. *)
Definition validateAgentResponse (data : json) (agentType : string) : json + string :=
  match agent_schemas agentType with
  | Undefined => inl data
  | Inherited => inr "TypeError"
  | Schema schema =>
      match parse schema (Some data) with
      | Some (Some out) => inl out
      | _ => inl data
      end
  end.

(** The fields the grounding contract asks of every agent result. *)
Definition grounding_fields : list string :=
  [ "evidence"; "claims"; "verification_summary"; "freshness_summary";
    "abstained"; "abstain_reason" ].

(** The top-level shape of the grounding contract: a request id, a
    [results] map whose agent results carry the grounding fields, and a
    [summary] with its text and supported claim ids. *)
Definition grounded_top_level (j : json) : bool :=
  has_key "request_id" j
  && match prop "results" j with
     | Some (JObj agents) =>
         forallb (fun kv => forallb (fun f => has_key f kv.2) grounding_fields) agents
     | _ => false
     end
  && match prop "summary" j with
     | Some s => has_key "text" s && has_key "supported_claim_ids" s
     | None => false
     end.

(** A response in the legacy flat shape: no [results], no [summary], and a
    clinical block without any grounding field. *)
Definition legacy_clinical : json :=
  JObj [ ("molecule", JStr "aspirin");
         ("total_trials_found", JNum 12);
         ("active_trials", JNum 3);
         ("safety_score", JNum (15 # 2));
         ("efficacy_rating", JStr "high");
         ("agent", JStr "clinical");
         ("version", JStr "1.0") ].

Definition legacy_response : json :=
  JObj [ ("request_id", JStr "req-1");
         ("molecule", JStr "aspirin");
         ("agents_executed",
           JArr [ JObj [ ("name", JStr "clinical"); ("status", JStr "completed") ] ]);
         ("clinical", legacy_clinical) ].

(** A response in the grounded shape of the Phase 1 plan (appendix A). *)
Definition grounded_response : json :=
  JObj [ ("request_id", JStr "req-2");
         ("results",
           JObj [ ("web_intelligence",
                    JObj [ ("claims", JArr []); ("evidence", JArr []);
                           ("abstained", JBool false);
                           ("abstain_reason", JNull) ]) ]);
         ("summary",
           JObj [ ("text", JStr "..."); ("supported_claim_ids", JArr []) ]) ].

End Schemas.

(** ** Rate limiting middleware ([server/src/utils/rateLimiter.js]) *)

Module RateLimiter.
Import Json.
Local Open Scope Z_scope.

Record config := {
  windowMs : Z;
  maxRequests : Z;
  message : string
}.

(** An entry of [rateLimitStore]; [e_windowMs] is its [windowMs] field. *)
Record entry := {
  windowStart : Z;
  e_windowMs : Z;
  requests : Z
}.

Definition RATE_LIMITS : list (string * config) :=
  [ ("standard",
      {| windowMs := 60 * 1000; maxRequests := 60;
         message := "Too many requests, please try again later" |});
    ("analysis",
      {| windowMs := 60 * 1000; maxRequests := 10;
         message := "Analysis rate limit exceeded. Please wait before submitting another analysis." |});
    ("reports",
      {| windowMs := 60 * 60 * 1000; maxRequests := 20;
         message := "Report generation limit reached. Please try again later." |});
    ("health",
      {| windowMs := 60 * 1000; maxRequests := 120;
         message := "Rate limit exceeded" |});
    ("watchlist",
      {| windowMs := 60 * 1000; maxRequests := 30;
         message := "Watchlist operation limit exceeded" |}) ].

Fixpoint own_property {A : Type} (k : string) (o : list (string * A)) : option A :=
  match o with
  | [] => None
  | (k', v) :: rest => if String.eqb k k' then Some v else own_property k rest
  end.

(** Names every object literal inherits from [Object.prototype].  Reading
    [RATE_LIMITS[name]] for one of them yields a function, not a limit;
    no caller passes such a name. *)
Definition Object_prototype_names : list string :=
  [ "constructor"; "hasOwnProperty"; "isPrototypeOf"; "propertyIsEnumerable";
    "toLocaleString"; "toString"; "valueOf"; "__proto__";
    "__defineGetter__"; "__defineSetter__"; "__lookupGetter__";
    "__lookupSetter__" ].

Definition plain_limit_type (limitType : string) : Prop :=
  limitType ∉ Object_prototype_names.

Definition standard : config :=
  {| windowMs := 60 * 1000; maxRequests := 60;
     message := "Too many requests, please try again later" |}.

(** [RATE_LIMITS[limitType] || RATE_LIMITS.standard], for a limit type
    that is [plain_limit_type]: under one of [Object_prototype_names] the
    look-up finds an inherited member with no [windowMs] and no
    [maxRequests], which this definition does not describe. *)
Definition limit_config (limitType : string) : config :=
  match own_property limitType RATE_LIMITS with
  | Some c => c
  | None => standard
  end.

(** What the middleware reads of the Express request. *)
Record request := {
  user_id : option string;          (* req.user?.id *)
  ip : option string;               (* req.ip *)
  x_forwarded_for : option string;  (* req.headers['x-forwarded-for'] *)
  remoteAddress : option string     (* req.connection?.remoteAddress *)
}.

(** A string is truthy when it is not empty. *)
Definition truthy (o : option string) : option string :=
  match o with
  | Some EmptyString => None
  | other => other
  end.

(** [s.split(',')[0]] *)
Fixpoint before_comma (s : string) : string :=
  match s with
  | EmptyString => EmptyString
  | String c rest =>
      if Ascii.eqb c ","%char then EmptyString else String c (before_comma rest)
  end.

Definition getClientIdentifier (req : request) : string :=
  match truthy (user_id req) with
  | Some id => "user:" +:+ id
  | None =>
      let ip :=
        match truthy (ip req) with
        | Some a => a
        | None =>
            match truthy (before_comma <$> x_forwarded_for req) with
            | Some a => a
            | None =>
                match truthy (remoteAddress req) with
                | Some a => a
                | None => "unknown"
                end
            end
        end in
      "ip:" +:+ ip
  end.

Definition store_key (limitType : string) (req : request) : string :=
  limitType +:+ ":" +:+ getClientIdentifier req.

Inductive header_value :=
| HNum (n : Z)
| HStr (s : string).

(** The Express response as the middleware leaves it. *)
Record response := {
  headers : gmap string header_value;
  status : option Z;
  body : option json
}.

Definition fresh_response : response :=
  {| headers := ∅; status := None; body := None |}.

Definition set_header (k : string) (v : header_value) (res : response) : response :=
  {| headers := <[k := v]> (headers res); status := status res; body := body res |}.

Definition send (code : Z) (payload : json) (res : response) : response :=
  {| headers := headers res; status := Some code; body := Some payload |}.

(** [Math.ceil(a / b)] for a positive [b]. *)
Definition ceil_div (a b : Z) : Z := - ((- a) / b).

Definition num (n : Z) : json := JNum (inject_Z n).

(** The window a request is counted in: the stored entry while it has not
    run out, a new window starting now otherwise. *)
Definition current_window (cfg : config) (now : Z) (stored : option entry) : entry :=
  match stored with
  | Some e =>
      if windowStart e + windowMs cfg <? now
      then {| windowStart := now; e_windowMs := windowMs cfg; requests := 0 |}
      else e
  | None => {| windowStart := now; e_windowMs := windowMs cfg; requests := 0 |}
  end.

(** The middleware [createRateLimiter(limitType)] applied to a request at
    time [now = Date.now()].  It returns the store, the response and
    whether [next()] was called. *)
Definition createRateLimiter (limitType : string) (req : request) (now : Z)
    (rateLimitStore : gmap string entry) (res : response)
    : gmap string entry * response * bool :=
  let config := limit_config limitType in
  let key := store_key limitType req in
  let entry0 := current_window config now (rateLimitStore !! key) in
  let entry := {| windowStart := windowStart entry0;
                  e_windowMs := e_windowMs entry0;
                  requests := requests entry0 + 1 |} in
  let store := <[key := entry]> rateLimitStore in
  let remaining := Z.max 0 (maxRequests config - requests entry) in
  let resetTime := windowStart entry + windowMs config in
  let res :=
    set_header "X-RateLimit-Type" (HStr limitType)
      (set_header "X-RateLimit-Reset" (HNum (ceil_div resetTime 1000))
        (set_header "X-RateLimit-Remaining" (HNum remaining)
          (set_header "X-RateLimit-Limit" (HNum (maxRequests config)) res))) in
  if maxRequests config <? requests entry then
    let retryAfter := ceil_div (resetTime - now) 1000 in
    let res := set_header "Retry-After" (HNum retryAfter) res in
    (store,
     send 429
       (JObj [ ("success", JBool false);
               ("error", JStr (message config));
               ("retryAfter", num retryAfter);
               ("limit", num (maxRequests config));
               ("windowMs", num (windowMs config)) ])
       res,
     false)
  else (store, res, true).

(** The clean-up timer: entries whose window has run out are deleted. *)
Definition cleanup (now : Z) (rateLimitStore : gmap string entry) : gmap string entry :=
  filter (fun kv => ¬ (windowStart kv.2 + e_windowMs kv.2 < now)) rateLimitStore.

Record limit_status := {
  remaining : Z;
  limit : Z;
  resetTime : option Z
}.

Definition getRateLimitStatus (clientId limitType : string) (now : Z)
    (rateLimitStore : gmap string entry) : limit_status :=
  let config := limit_config limitType in
  let key := limitType +:+ ":" +:+ clientId in
  match rateLimitStore !! key with
  | None =>
      {| remaining := maxRequests config; limit := maxRequests config;
         resetTime := None |}
  | Some entry =>
      if windowStart entry + windowMs config <? now then
        {| remaining := maxRequests config; limit := maxRequests config;
           resetTime := None |}
      else
        {| remaining := Z.max 0 (maxRequests config - requests entry);
           limit := maxRequests config;
           resetTime := Some (windowStart entry + windowMs config) |}
  end.

(** A client that has used up the analysis limit in the running window. *)
Definition busy_client : request :=
  {| user_id := Some "u42"; ip := Some "10.0.0.7";
     x_forwarded_for := None; remoteAddress := None |}.

Definition busy_store : gmap string entry :=
  {[ "analysis:user:u42" :=
       {| windowStart := 1000; e_windowMs := 60000; requests := 10 |} ]}.

End RateLimiter.

(** ** The archival controller over its Mongoose models *)

Module Archive.
Import Json.
Local Open Scope Z_scope.

(** *** Text

    A character of a model string stands for one UTF-16 code unit of the
    JavaScript string, so the model holds the strings whose code units
    are all below 256; on these the length of a string is its number of
    characters, as [isLength] counts it. *)

(** White space as JavaScript's [\s] and [String.prototype.trim] see it,
    among the code units below 256: tab to carriage return, the space and
    the no-break space. *)
Definition is_space (c : ascii) : bool :=
  let n := nat_of_ascii c in
  ((n =? 32) || (9 <=? n) && (n <=? 13) || (n =? 160))%nat%bool.

Fixpoint ltrim (s : string) : string :=
  match s with
  | String c rest => if is_space c then ltrim rest else s
  | EmptyString => EmptyString
  end.

(** [rtrim]: drop the trailing white space. *)
Fixpoint rtrim (s : string) : string :=
  match s with
  | EmptyString => EmptyString
  | String c rest =>
      match rtrim rest with
      | EmptyString => if is_space c then EmptyString else String c EmptyString
      | kept => String c kept
      end
  end.

Definition trim (s : string) : string := rtrim (ltrim s).

(** [String.prototype.toLowerCase] on a code unit below 256: the letters
    A to Z and the capital letters of Latin-1 (all of U+00C0 to U+00DE but
    the multiplication sign) move 32 up. *)
Definition lower (c : ascii) : ascii :=
  let n := nat_of_ascii c in
  if ((65 <=? n) && (n <=? 90)
      || (192 <=? n) && (n <=? 222) && negb (n =? 215))%nat%bool
  then ascii_of_nat (n + 32) else c.

Fixpoint toLowerCase (s : string) : string :=
  match s with
  | EmptyString => EmptyString
  | String c rest => String (lower c) (toLowerCase rest)
  end.


(** *** Documents *)

(** An [ObjectId], written as its [toString] gives it: 24 hexadecimal
    digits, the letters in lower case. *)
Definition ObjectId := string.

Definition is_hex (c : ascii) : bool :=
  let n := nat_of_ascii c in
  ((48 <=? n) && (n <=? 57) || (97 <=? n) && (n <=? 102)
   || (65 <=? n) && (n <=? 70))%nat%bool.

Fixpoint all_hex (s : string) : bool :=
  match s with
  | EmptyString => true
  | String c rest => is_hex c && all_hex rest
  end.

(** A string Mongoose casts to an [ObjectId]: 24 hexadecimal digits, in
    either case (the driver's [ObjectId] constructor, as its current
    versions have it; any other string is a [CastError]). *)
Definition castable (s : string) : bool :=
  (String.length s =? 24)%nat && all_hex s.

(** The [ObjectId] a castable string is cast to. *)
Definition cast_id (s : string) : ObjectId := toLowerCase s.

(** An element of [sharedWith]; both paths are optional in the schema. *)
Record share := {
  s_userId : option ObjectId;
  permission : option string
}.

(** A report document, as far as the controller reads and writes it.
    [updatedAt] has no default in the schema; Mongoose's own bookkeeping
    (the version key, the ids of subdocuments) is not part of the model. *)
Record report := {
  _id : ObjectId;
  requestId : string;
  userId : option ObjectId;
  molecule : string;
  query : option string;
  processingMode : string;
  modelUsed : option string;
  results : json;
  summary : json;
  knowledgeGraph : json;
  agentsExecuted : json;
  totalProcessingTimeMs : option json;
  status : string;
  pdfGenerated : bool;
  isShared : bool;
  sharedWith : list share;
  createdAt : Z;
  updatedAt : option Z
}.

Record user := {
  u_id : ObjectId;
  email : string
}.

Record audit := {
  a_userId : option ObjectId;
  action : string;
  a_requestId : string;
  a_molecule : string;
  a_processingMode : option string;
  metadata : json
}.

Record database := {
  reports : list report;
  users : list user;
  auditLog : list audit
}.

(** The database together with the fate of the driver calls to come:
    [true] at the head of [faults] makes the next call reject (a lost
    connection, a timeout); an exhausted list means no more faults. *)
Record world := {
  db : database;
  faults : list bool
}.

(** Asynchronous code that may throw: a result or the error's message,
    and the world after it. *)
Definition M (A : Type) : Type := world -> (A + string) * world.

Definition ret {A : Type} (a : A) : M A := fun w => (inl a, w).

Definition throw {A : Type} (msg : string) : M A := fun w => (inr msg, w).

Definition bind {A B : Type} (m : M A) (k : A -> M B) : M B :=
  fun w =>
    match m w with
    | (inl a, w') => k a w'
    | (inr e, w') => (inr e, w')
    end.

Notation "x <~ m ; k" := (bind m (fun x => k))
  (at level 20, m at level 100, k at level 200, only parsing).

(** One call to the driver: it rejects when the next fault flag says so,
    and otherwise runs [f] on the database. *)
Definition driver {A : Type} (f : database -> (A + string) * database) : M A :=
  fun w =>
    match faults w with
    | true :: later => (inr "MongoNetworkError", {| db := db w; faults := later |})
    | ok =>
        let '(r, d) := f (db w) in
        (r, {| db := d; faults := tail ok |})
    end.

Record response := {
  code : Z;
  payload : json
}.

(** [res.status(c).json(j)]; a bare [res.json(j)] answers 200. *)
Definition respond (c : Z) (j : json) : response := {| code := c; payload := j |}.

Definition failure (c : Z) (msg : string) : response :=
  respond c (JObj [ ("success", JBool false); ("error", JStr msg) ]).

(** *** The controller's logger

    The controller binds [logger] with
    [const logger = require('../utils/logger')], and [utils/logger.js]
    ends in [module.exports = { logger, auditLog }]: the controller's
    [logger] is that export object, not the winston logger inside it. *)

(** What a property of an object is when it is called. *)
Inductive member :=
| Function
| Object.

(** [module.exports] of [utils/logger.js]: the winston logger and the
    record of audit helpers, both objects. *)
Definition logger_exports : list (string * member) :=
  [ ("logger", Object); ("auditLog", Object) ].

(** The controller's [logger]. *)
Definition logger : list (string * member) := logger_exports.

(** [logger.method(...)]: calling a property that is missing or is no
    function throws a [TypeError]. *)
Definition logger_call (method : string) : M () :=
  match List.find (fun p => String.eqb p.1 method) logger with
  | Some (_, Function) => ret ()
  | _ => throw "TypeError"
  end.

(** What becomes of a request in an [async] handler: a response is sent,
    or the handler's promise rejects with nothing sent. *)
Inductive outcome :=
| Sent (r : response)
| Rejected (e : string).

(** [try { ... } catch (error) { logger.error(...); res.status(500).json(...) }]:
    an error thrown by the catch block itself leaves the handler. *)
Definition try_catch (msg : string) (m : M response) : world -> outcome * world :=
  fun w =>
    match m w with
    | (inl r, w') => (Sent r, w')
    | (inr _, w') =>
        match logger_call "error" w' with
        | (inl _, w'') => (Sent (failure 500 msg), w'')
        | (inr e, w'') => (Rejected e, w'')
        end
    end.

(** *** Model operations *)

Definition in_list (s : string) (l : list string) : bool := existsb (String.eqb s) l.

Definition valid_share (s : share) : bool :=
  match permission s with
  | Some p => in_list p ["view"; "edit"]
  | None => true
  end.

(** A value for an [ObjectId] path: absent, or a string that casts. *)
Definition castable_ref (o : option string) : bool :=
  match o with
  | Some s => castable s
  | None => true
  end.

(** Schema validation of the paths of [report]: the required paths, the
    enumerations and the [ObjectId] cast of [userId]. *)
Definition valid_report (r : report) : bool :=
  negb (String.eqb (requestId r) EmptyString)
  && negb (String.eqb (molecule r) EmptyString)
  && in_list (processingMode r) ["secure"; "cloud"]
  && in_list (status r) ["processing"; "completed"; "failed"; "archived"]
  && castable_ref (userId r)
  && forallb valid_share (sharedWith r).

Definition find_report (p : report -> bool) (d : database) : option report :=
  List.find p (reports d).

Fixpoint replace_report (r : report) (l : list report) : list report :=
  match l with
  | [] => [r]
  | x :: rest =>
      if String.eqb (_id x) (_id r) then r :: rest else x :: replace_report r rest
  end.

(** [ResearchReport.findOne({ requestId })] *)
Definition ResearchReport_findOne (rid : string) : M (option report) :=
  driver (fun d => (inl (find_report (fun r => String.eqb (requestId r) rid) d), d)).

(** [ResearchReport.findById(id)]: the id is cast to an [ObjectId] (a
    [CastError] if it cannot be) and compared as such. *)
Definition ResearchReport_findById (id : string) : M (option report) :=
  driver (fun d =>
    if castable id
    then (inl (find_report (fun r => String.eqb (_id r) (cast_id id)) d), d)
    else (inr "CastError", d)).

Definition with_updatedAt (r : report) (u : option Z) : report :=
  {| _id := _id r; requestId := requestId r; userId := userId r;
     molecule := molecule r; query := query r;
     processingMode := processingMode r; modelUsed := modelUsed r;
     results := results r; summary := summary r;
     knowledgeGraph := knowledgeGraph r; agentsExecuted := agentsExecuted r;
     totalProcessingTimeMs := totalProcessingTimeMs r; status := status r;
     pdfGenerated := pdfGenerated r;
     isShared := isShared r;
     sharedWith := sharedWith r;
     createdAt := createdAt r;
     updatedAt := u |}.

(** What [save()] does to [updatedAt] under [timestamps: true]: it writes
    the time of the save when Mongoose takes the document for new or
    modified, and leaves the path alone otherwise. *)
Definition restamp (stamp : option Z) (r : report) : report :=
  match stamp with
  | Some t => with_updatedAt r (Some t)
  | None => r
  end.

(** [report.save()]: validation, then the unique index on [requestId]
    (the [ResearchReportSchema.index] declaration), then the write.
    [stamp] is what the save does to [updatedAt]. *)
Definition save (stamp : option Z) (r : report) : M () :=
  driver (fun d =>
    if negb (valid_report r) then (inr "ValidationError", d)
    else if existsb (fun x => String.eqb (requestId x) (requestId r)
                              && negb (String.eqb (_id x) (_id r))) (reports d)
    then (inr "E11000 duplicate key error", d)
    else (inl (),
          {| reports := replace_report (restamp stamp r) (reports d);
             users := users d;
             auditLog := auditLog d |})).

(** Schema validation of an audit entry: the [ObjectId] cast of [userId]
    and the enumeration of [action]. *)
Definition valid_audit (a : audit) : bool :=
  castable_ref (a_userId a)
  && in_list (action a)
       [ "RESEARCH_STARTED"; "RESEARCH_COMPLETED"; "PROCESSING_MODE_SELECTED";
         "AGENT_EXECUTED"; "REPORT_GENERATED"; "REPORT_DOWNLOADED";
         "WATCHLIST_ADDED"; "WATCHLIST_REMOVED"; "ALERT_CREATED"; "USER_LOGIN";
         "USER_LOGOUT"; "SETTINGS_CHANGED"; "API_ERROR" ].

(** [AuditLog.create(entry)] *)
Definition AuditLog_create (a : audit) : M () :=
  driver (fun d =>
    if negb (valid_audit a) then (inr "ValidationError", d)
    else (inl (),
          {| reports := reports d; users := users d;
             auditLog := auditLog d ++ [a] |})).

(** The filter [{ email }] as Mongoose casts it: the setters of the path
    ([trim: true], [lowercase: true]) are run on the value. *)
Definition email_filter (m : string) : string := toLowerCase (trim m).

Definition user_by_email (mail : option string) (d : database) : option user :=
  match mail with
  | Some m => List.find (fun u => String.eqb (email u) (email_filter m)) (users d)
  | None => None
  end.

(** [User.findOne({ email })]; an [undefined] email matches no user. *)
Definition User_findOne (mail : option string) : M (option user) :=
  driver (fun d => (inl (user_by_email mail d), d)).

(** *** Request validation ([archivalRoutes.js]) *)

(** The body of [POST /reports].  The paths the validators constrain to
    text are taken as strings, the others as JSON values. *)
Record save_body := {
  b_requestId : option string;
  b_molecule : option string;
  b_query : option string;
  b_processingMode : option string;
  b_modelUsed : option string;
  b_results : option json;
  b_summary : option json;
  b_knowledgeGraph : option json;
  b_agentsExecuted : option json;
  b_totalProcessingTimeMs : option json
}.

(** The text a validator sees: [undefined] reads as the empty string. *)
Definition text (o : option string) : string := default EmptyString o.

Definition check (ok : bool) (msg : string) : list string :=
  if ok then [] else [msg].

(** The sanitizer of the chain: [body('molecule').trim()], which writes
    the trimmed text back to the body (the empty string for a body without
    the path). *)
Definition sanitize (b : save_body) : save_body :=
  {| b_requestId := b_requestId b;
     b_molecule := Some (trim (text (b_molecule b)));
     b_query := b_query b;
     b_processingMode := b_processingMode b;
     b_modelUsed := b_modelUsed b;
     b_results := b_results b;
     b_summary := b_summary b;
     b_knowledgeGraph := b_knowledgeGraph b;
     b_agentsExecuted := b_agentsExecuted b;
     b_totalProcessingTimeMs := b_totalProcessingTimeMs b |}.

(** The errors [validateSaveReport] leaves on the request, every failing
    validator of a chain adding its message (the last message quotes the
    two modes; apostrophes stand for its quotation marks). *)
Definition validateSaveReport (b : save_body) : list string :=
  let mol := trim (text (b_molecule b)) in
  check (negb (String.eqb (text (b_requestId b)) EmptyString)) "Request ID is required"
  ++ check (negb (String.eqb mol EmptyString)) "Molecule name is required"
  ++ check ((2 <=? String.length mol) && (String.length mol <=? 200))%nat
       "Molecule name must be between 2 and 200 characters"
  ++ check (match b_results b with Some (JObj _) => true | _ => false end)
       "Results must be an object"
  ++ check (in_list (text (b_processingMode b)) ["secure"; "cloud"])
       "Processing mode must be either 'secure' or 'cloud'".

(** *** Mongoose's casting of the free-form paths *)

(** The values [saveReport] hands to the constructor for the paths whose
    schema is nested or mixed, and what is stored for them. *)
Record details := {
  d_results : json;
  d_summary : json;
  d_knowledgeGraph : json;
  d_agentsExecuted : json;
  d_totalProcessingTimeMs : option json
}.

(** Mongoose itself is not among the sources.  [cast_details] stands for
    what its casting and validation make of the values handed to the
    constructor: [None] when a value cannot be cast or fails an
    enumeration of the schema ([save()] then throws a [ValidationError]),
    and otherwise the values that are stored, schema defaults filled in
    and unknown keys dropped. *)
Class Mongoose := {
  cast_details : details -> option details
}.

(** *** Handlers *)

(** The request [saveReport] is handed: the body as the sanitizers of
    the route have left it, the errors its validators have left on the
    request, and the user. *)
Record save_request := {
  body : save_body;
  errors : list string;
  req_user : option ObjectId    (* req.user?.id *)
}.

(** [router.post('/reports', validateSaveReport, saveReport)]: the request
    the handler gets when the body [raw] comes in. *)
Definition through_validators (raw : save_body) (user : option ObjectId) : save_request :=
  {| body := sanitize raw; errors := validateSaveReport raw; req_user := user |}.

(** [validationResult(req)] *)
Definition validationResult (req : save_request) : list string := errors req.

(** JavaScript's falsy values among the JSON ones. *)
Definition falsy (j : json) : bool :=
  match j with
  | JNull | JBool false | JStr EmptyString => true
  | JNum q => Qeq_bool q 0
  | _ => false
  end.

(** [value || empty] *)
Definition or_empty (o : option json) (empty : json) : json :=
  match o with
  | None => empty
  | Some j => if falsy j then empty else j
  end.

(** [id || null] *)
Definition or_null (o : option string) : option string :=
  match o with
  | Some EmptyString => None
  | other => other
  end.

(** The free-form values [saveReport] hands to the constructor. *)
Definition constructor_details (b : save_body) : details :=
  {| d_results := default JNull (b_results b);
     d_summary := or_empty (b_summary b) (JObj []);
     d_knowledgeGraph := or_empty (b_knowledgeGraph b) (JObj []);
     d_agentsExecuted := or_empty (b_agentsExecuted b) (JArr []);
     d_totalProcessingTimeMs := b_totalProcessingTimeMs b |}.

(** [new ResearchReport({ ... })] with its free-form paths as cast. *)
Definition new_report (req : save_request) (newId : ObjectId) (now : Z) (d : details)
    : report :=
  let b := body req in
  {| _id := newId;
     requestId := text (b_requestId b);
     userId := or_null (req_user req);
     molecule := text (b_molecule b);
     query := b_query b;
     processingMode := text (b_processingMode b);
     modelUsed := b_modelUsed b;
     results := d_results d;
     summary := d_summary d;
     knowledgeGraph := d_knowledgeGraph d;
     agentsExecuted := d_agentsExecuted d;
     totalProcessingTimeMs := d_totalProcessingTimeMs d;
     status := "completed";
     pdfGenerated := false;
     isShared := false;
     sharedWith := [];
     createdAt := now;
     updatedAt := None |}.

Section Saving.
Context {mongoose : Mongoose}.

(** [saveReport]; [newId] is the [_id] the new document is given and
    [now] the time of the call, which is the document's [createdAt] and,
    the document being new, the [updatedAt] its first save writes. *)
Definition saveReport (req : save_request) (newId : ObjectId) (now : Z)
    : world -> outcome * world :=
  try_catch "Failed to save report"
    (let errors := validationResult req in
     if negb (bool_decide (errors = [])) then
       ret (respond 400
              (JObj [ ("success", JBool false);
                      ("errors", JArr (JStr <$> errors)) ]))
     else
       let b := body req in
       let rid := text (b_requestId b) in
       existingReport <~ ResearchReport_findOne rid ;
       match existingReport with
       | Some _ =>
           ret (failure 409 "Report with this request ID already exists")
       | None =>
           match cast_details (constructor_details b) with
           | None => throw "ValidationError"
           | Some d =>
               let report := new_report req newId now d in
               saved <~ save (Some now) report ;
               audited <~ AuditLog_create
                      {| a_userId := req_user req;
                         action := "REPORT_GENERATED";
                         a_requestId := rid;
                         a_molecule := molecule report;
                         a_processingMode := Some (processingMode report);
                         metadata := JObj [ ("reportId", JStr newId) ] |} ;
               logged <~ logger_call "info" ;
               ret (respond 201
                      (JObj [ ("success", JBool true);
                              ("message", JStr "Report saved successfully");
                              ("data",
                                JObj [ ("id", JStr newId);
                                       ("requestId", JStr rid);
                                       ("molecule", JStr (molecule report));
                                       ("createdAt", JNum (inject_Z now)) ]) ]))
           end
       end).

End Saving.

(** [sharedWith.some(share => share.userId.toString() === id)]: the
    callback throws a [TypeError] on an entry without [userId]. *)
Fixpoint some_shared (id : ObjectId) (l : list share) : bool + string :=
  match l with
  | [] => inl false
  | s :: rest =>
      match s_userId s with
      | None => inr "TypeError"
      | Some u => if String.eqb u id then inl true else some_shared id rest
      end
  end.

(** [sharedWith.filter(share => share.userId.toString() !== id)] *)
Fixpoint without_user (id : string) (l : list share) : list share + string :=
  match l with
  | [] => inl []
  | s :: rest =>
      match s_userId s, without_user id rest with
      | None, _ => inr "TypeError"
      | Some _, inr e => inr e
      | Some u, inl kept =>
          if String.eqb u id then inl kept else inl (s :: kept)
      end
  end.

Definition lift {A : Type} (r : A + string) : M A := fun w => (r, w).

Definition with_shares (r : report) (shared : bool) (l : list share) : report :=
  {| _id := _id r; requestId := requestId r; userId := userId r;
     molecule := molecule r; query := query r;
     processingMode := processingMode r; modelUsed := modelUsed r;
     results := results r; summary := summary r;
     knowledgeGraph := knowledgeGraph r; agentsExecuted := agentsExecuted r;
     totalProcessingTimeMs := totalProcessingTimeMs r; status := status r;
     pdfGenerated := pdfGenerated r;
     isShared := shared;
     sharedWith := l;
     createdAt := createdAt r;
     updatedAt := updatedAt r |}.

Record share_request := {
  sh_reportId : string;            (* req.params.reportId *)
  sh_email : option string;        (* req.body.email *)
  sh_permission : option string;   (* req.body.permission *)
  sh_now : Z                       (* the time of [report.save()] *)
}.

(** The [try] block of [shareReport] down to [await report.save()]: the
    response of an early [return], or nothing once the save has
    resolved.  The pushed entry modifies the document, so its save
    writes [updatedAt]. *)
Definition share_and_save (req : share_request) : M (option response) :=
  let permission := default "view" (sh_permission req) in
  userToShare <~ User_findOne (sh_email req) ;
  match userToShare with
  | None => ret (Some (failure 404 "User not found with this email"))
  | Some userToShare =>
      found <~ ResearchReport_findById (sh_reportId req) ;
      match found with
      | None => ret (Some (failure 404 "Report not found"))
      | Some report =>
          alreadyShared <~ lift (some_shared (u_id userToShare) (sharedWith report)) ;
          if (alreadyShared : bool) then
            ret (Some (failure 400 "Report already shared with this user"))
          else
            let report :=
              with_shares report true
                (sharedWith report
                 ++ [ {| s_userId := Some (u_id userToShare);
                         permission := Some permission |} ]) in
            saved <~ save (Some (sh_now req)) report ;
            ret None
      end
  end.

Definition shareReport (req : share_request) : world -> outcome * world :=
  try_catch "Failed to share report"
    (early <~ share_and_save req ;
     match early with
     | Some r => ret r
     | None =>
         logged <~ logger_call "info" ;
         ret (respond 200
                (JObj [ ("success", JBool true);
                        ("message",
                          JStr ("Report shared with " +:+ text (sh_email req))) ]))
     end).

Record unshare_request := {
  un_reportId : string;    (* req.params.reportId *)
  un_userId : string;      (* req.params.userId *)
  un_stamp : option Z      (* what [report.save()] does to [updatedAt] *)
}.

(** The [try] block of [unshareReport] down to [await report.save()].
    Whether Mongoose takes the document for modified, and so writes
    [updatedAt], is not decided here: the request carries it. *)
Definition unshare_and_save (req : unshare_request) : M (option response) :=
  found <~ ResearchReport_findById (un_reportId req) ;
  match found with
  | None => ret (Some (failure 404 "Report not found"))
  | Some report =>
      kept <~ lift (without_user (un_userId req) (sharedWith report)) ;
      let report := with_shares report (negb (bool_decide (kept = []))) kept in
      saved <~ save (un_stamp req) report ;
      ret None
  end.

Definition unshareReport (req : unshare_request) : world -> outcome * world :=
  try_catch "Failed to remove share access"
    (early <~ unshare_and_save req ;
     match early with
     | Some r => ret r
     | None =>
         logged <~ logger_call "info" ;
         ret (respond 200
                (JObj [ ("success", JBool true);
                        ("message", JStr "Share access removed") ]))
     end).

(** The stored report a request's id names. *)
Definition stored (id : string) (w : world) : option report :=
  find_report (fun r => String.eqb (_id r) (cast_id id)) (db w).

(** The entries of [sharedWith] that belong to user [id]. *)
Definition entry_of (id : string) (s : share) : bool :=
  match s_userId s with
  | Some u => String.eqb u id
  | None => false
  end.

(** The two sharing requests, and the report each one is aimed at. *)
Inductive sharing :=
| Share (req : share_request)
| Unshare (req : unshare_request).

Definition perform (op : sharing) : world -> outcome * world :=
  match op with
  | Share req => shareReport req
  | Unshare req => unshareReport req
  end.

Definition target (op : sharing) : string :=
  match op with
  | Share req => sh_reportId req
  | Unshare req => un_reportId req
  end.

(** The request got as far as its [report.save()], and the save resolved. *)
Definition saved (op : sharing) (w : world) : Prop :=
  match op with
  | Share req => (share_and_save req w).1 = inl None
  | Unshare req => (unshare_and_save req w).1 = inl None
  end.

(** *** Sample data *)

(** A Mongoose that stores the free-form values as they come. *)
Definition lenient : Mongoose := {| cast_details := Some |}.

Definition alice : user := {| u_id := "64b000000000000000000a11"; email := "alice@lab.org" |}.
Definition bob : user := {| u_id := "64b000000000000000000b0b"; email := "bob@lab.org" |}.

Definition report1 : report :=
  {| _id := "64b000000000000000000001";
     requestId := "req-1";
     userId := None;
     molecule := "aspirin";
     query := None;
     processingMode := "cloud";
     modelUsed := None;
     results := JObj [];
     summary := JObj [];
     knowledgeGraph := JObj [];
     agentsExecuted := JArr [];
     totalProcessingTimeMs := None;
     status := "completed";
     pdfGenerated := false;
     isShared := true;
     sharedWith := [ {| s_userId := Some (u_id alice); permission := Some "view" |} ];
     createdAt := 1700000000000;
     updatedAt := Some 1700000000000 |}.

Definition world1 : world :=
  {| db := {| reports := [report1]; users := [alice; bob]; auditLog := [] |};
     faults := [] |}.

(** The report id in capitals and the address with spaces and capitals:
    the casts make them the stored ones. *)
Definition share_with_bob : share_request :=
  {| sh_reportId := "64B000000000000000000001";
     sh_email := Some " Bob@Lab.org ";
     sh_permission := None;
     sh_now := 1700000005000 |}.

Definition unshare_alice : unshare_request :=
  {| un_reportId := "64b000000000000000000001";
     un_userId := "64b000000000000000000a11";
     un_stamp := Some 1700000007000 |}.

(** A well-formed body that repeats the stored request id. *)
Definition duplicate_body : save_body :=
  {| b_requestId := Some "req-1";
     b_molecule := Some "ibuprofen";
     b_query := None;
     b_processingMode := Some "secure";
     b_modelUsed := None;
     b_results := Some (JObj []);
     b_summary := None;
     b_knowledgeGraph := None;
     b_agentsExecuted := None;
     b_totalProcessingTimeMs := None |}.

(** The same request id, but a molecule name the validators refuse. *)
Definition invalid_duplicate_body : save_body :=
  {| b_requestId := Some "req-1";
     b_molecule := Some "x";
     b_query := None;
     b_processingMode := Some "secure";
     b_modelUsed := None;
     b_results := Some (JObj []);
     b_summary := None;
     b_knowledgeGraph := None;
     b_agentsExecuted := None;
     b_totalProcessingTimeMs := None |}.

End Archive.

(** ** The evidence validation and truthfulness gate

    The engine that implements this pipeline is not among the sources.
    Every definition of this module is therefore written from the
    specification (sections 3, 4 and 7); what the specification leaves to
    the implementer is a field of [Oracles]. *)

Module Pipeline.
Local Open Scope Q_scope.

(** Modelled from the spec: the data model of section 3 (source tiers,
    verification statuses, evidence records with their source, retrieval
    and quality blocks, claims, the two summaries and the agent result);
    the engine's own declarations are not among the sources. *)
Inductive source_tier := official | peer_reviewed | news | other.

Inductive verification_status :=
| verified | partially_verified | unverified | conflicting.

Inductive category := regulatory_news | publication_trial.

Inductive claim_value :=
| numeric (lo hi : Q)
| categorical (v : string).

Record source := {
  s_name : string;
  s_url : string;
  document_id : option string;
  published_at : option Z
}.

Record retrieval := {
  fetched_at : Z;
  r_query : string;
  snippet : string;
  content_hash : string
}.

Record quality := {
  tier : source_tier;
  confidence : Q;
  status : verification_status;
  freshness_hours : Q
}.

Record EvidenceRecord := {
  claim_id : string;
  claim_text : string;
  src : source;
  retr : retrieval;
  qual : quality
}.

Record Claim := {
  c_id : string;
  c_evidence : list EvidenceRecord;
  c_status : verification_status
}.

Record VerificationSummary := {
  verified_count : nat;
  partial_count : nat;
  unverified_count : nat;
  conflicting_count : nat
}.

Record FreshnessSummary := {
  latest_fetch_at : option Z;
  max_age_hours : Q
}.

Record Summary := {
  text : string;
  supported_claim_ids : list string
}.

Record AgentResult := {
  evidence : list EvidenceRecord;
  claims : list Claim;
  verification_summary : VerificationSummary;
  freshness_summary : FreshnessSummary;
  abstained : bool;
  abstain_reason : option string
}.

(** A raw connector hit; timestamps are seconds since the epoch and
    [h_topic] is the grouping key the caller supplies. *)
Record raw_hit := {
  h_topic : string;
  h_source : string;
  h_url : option string;
  h_document_id : option string;
  h_published_at : option Z;
  h_fetched_at : option Z;
  h_query : string;
  h_snippet : string
}.

(** A normalized hit: an evidence record before the Scorer and the
    Aggregator have written its [quality] block. *)
Record normalized := {
  n_claim_id : string;
  n_claim_text : string;
  n_source : source;
  n_retrieval : retrieval
}.

(** How the query frames the request (section 4.5). *)
Record Query := {
  factual : bool;
  critical : string -> bool;
  realtime : string -> bool
}.

(** The request handed to the narrative generator (section 4.6). *)
Record Prompt := {
  snippets : list (string * string);
  forbid_outside_facts : bool;
  require_citations : bool;
  sentinel : string
}.

(** Modelled from the spec: the choices sections 4 and 9 leave to the
    implementer, namely the content hash, the tier of a source, the
    category of a claim, the confidence law, the normalization of a claim
    text, the citation syntax of the narrative, and the external
    narrative generator itself. *)
Class Oracles := {
  hash_of : string -> string;
  tier_of : source -> source_tier;
  category_of : string -> category;
  confidence_law : source_tier -> category -> Q -> Q;
  value_of : string -> claim_value;
  split_sentences : string -> list string;
  cited_ids : string -> list string;
  generate : Prompt -> string
}.

(** Modelled from the spec: the trust order of the tiers, official above
    peer-reviewed above trade press above other content. *)
Definition tier_rank (t : source_tier) : nat :=
  match t with
  | official => 3
  | peer_reviewed => 2
  | news => 1
  | other => 0
  end.

Definition peer_or_higher (t : source_tier) : bool := (2 <=? tier_rank t)%nat.

(** Modelled from the spec: the freshness SLA by claim category, in hours. *)
Definition sla (c : category) : Q :=
  match c with
  | regulatory_news => 24
  | publication_trial => 168
  end.

(** The sentinel of the Phase 1 plan (its section 8). *)
Definition ABSTAIN_UNVERIFIED : string := "ABSTAIN_UNVERIFIED".

(** Modelled from the spec: the enumerated abstention reasons and their
    strings (section 4.5). *)
Inductive reason :=
| no_evidence | insufficient_trust | conflicting_evidence | evidence_stale.

Definition reason_text (r : reason) : string :=
  match r with
  | no_evidence => "no evidence retrieved"
  | insufficient_trust => "insufficient source trust"
  | conflicting_evidence => "conflicting evidence"
  | evidence_stale => "evidence stale"
  end.

Definition enumerated_reasons : list string :=
  [ "no evidence retrieved"; "insufficient source trust";
    "conflicting evidence"; "evidence stale" ].

Section Stages.
Context `{Oracles}.

(** *** 4.1 Evidence Normalizer *)

(** Modelled from the spec: a hit without url or fetch time is a
    [SchemaError] ([None]); the claim text echoes the snippet. *)
Definition normalize_hit (h : raw_hit) : option normalized :=
  match h_url h, h_fetched_at h with
  | Some u, Some f =>
      Some {| n_claim_id := h_topic h;
              n_claim_text := h_snippet h;
              n_source := {| s_name := h_source h; s_url := u;
                             document_id := h_document_id h;
                             published_at := h_published_at h |};
              n_retrieval := {| fetched_at := f; r_query := h_query h;
                                snippet := h_snippet h;
                                content_hash := hash_of (h_snippet h) |} |}
  | _, _ => None
  end.

(** Modelled from the spec: malformed hits are dropped, never propagated. *)
Definition normalize (hits : list raw_hit) : list normalized :=
  omap normalize_hit hits.

(** *** 4.2 Trust and Freshness Scorer *)

Definition clamp0 (x : Q) : Q := if Qle_bool 0 x then x else 0.

(** Modelled from the spec: age in hours since publication (or fetch, when
    the publication time is unknown), clamped to be non-negative. *)
Definition freshness (now : Z) (n : normalized) : Q :=
  let t := default (fetched_at (n_retrieval n)) (published_at (n_source n)) in
  clamp0 (inject_Z (now - t) / 3600).

(** Modelled from the spec: the Scorer writes tier, age and confidence;
    the verification status stays at its floor until aggregation. *)
Definition score (now : Z) (n : normalized) : EvidenceRecord :=
  let t := tier_of (n_source n) in
  let age := freshness now n in
  {| claim_id := n_claim_id n;
     claim_text := n_claim_text n;
     src := n_source n;
     retr := n_retrieval n;
     qual := {| tier := t;
                confidence := confidence_law t (category_of (n_claim_id n)) age;
                status := unverified;
                freshness_hours := age |} |}.

(** Modelled from the spec: a record is stale when its age exceeds the SLA
    of its claim's category. *)
Definition stale (r : EvidenceRecord) : bool :=
  negb (Qle_bool (freshness_hours (qual r)) (sla (category_of (claim_id r)))).

(** *** 4.3 Conflict Detector *)

(** Modelled from the spec: numeric claims conflict when their ranges do
    not overlap, categorical ones when their values differ. *)
Definition conflict (a b : claim_value) : bool :=
  match a, b with
  | numeric l1 h1, numeric l2 h2 => negb (Qle_bool l2 h1) || negb (Qle_bool l1 h2)
  | categorical x, categorical y => negb (String.eqb x y)
  | _, _ => true
  end.

Definition disagree (a b : EvidenceRecord) : bool :=
  conflict (value_of (claim_text a)) (value_of (claim_text b)).

(** Modelled from the spec: the record set on the side of [r], that is
    the records of the group that do not contradict it. *)
Definition camp (g : list EvidenceRecord) (r : EvidenceRecord) : list EvidenceRecord :=
  List.filter (fun x => negb (disagree r x)) g.

(** Modelled from the spec: the tier of a record set is its highest tier,
    its aggregate confidence the sum over its records. *)
Definition top_rank (l : list EvidenceRecord) : nat :=
  fold_right Nat.max 0%nat ((fun x => tier_rank (tier (qual x))) <$> l).

Definition total_confidence (l : list EvidenceRecord) : Q :=
  fold_right Qplus 0 ((fun x => confidence (qual x)) <$> l).

(** Modelled from the spec: the tie-break between the sides of [a] and
    [b]: the higher tier first, the higher aggregate confidence second.
    [Gt] says the side of [a] wins, [Eq] that the tie stands. *)
Definition tie_break (g : list EvidenceRecord) (a b : EvidenceRecord) : comparison :=
  match Nat.compare (top_rank (camp g a)) (top_rank (camp g b)) with
  | Eq => total_confidence (camp g a) ?= total_confidence (camp g b)
  | c => c
  end.

Definition is_Eq (c : comparison) : bool :=
  match c with Eq => true | _ => false end.

Definition is_Gt (c : comparison) : bool :=
  match c with Gt => true | _ => false end.

(** Modelled from the spec: the detector could not resolve a tie, some
    contradiction of the group has no winner. *)
Definition unresolved (g : list EvidenceRecord) : bool :=
  existsb (fun a => existsb (fun b => disagree a b && is_Eq (tie_break g a b)) g) g.

(** Modelled from the spec: the records the tie-break lets stand, those
    whose side wins against every record contradicting them. *)
Definition prevailing (g : list EvidenceRecord) : list EvidenceRecord :=
  List.filter
    (fun a => forallb (fun b => implb (disagree a b) (is_Gt (tie_break g a b))) g) g.

(** *** 4.4 Verification Aggregator *)

(** Modelled from the spec: independent records have distinct sources and
    distinct content hashes. *)
Definition independent (a b : EvidenceRecord) : bool :=
  negb (String.eqb (s_name (src a)) (s_name (src b)))
  && negb (String.eqb (content_hash (retr a)) (content_hash (retr b))).

Definition trusted (r : EvidenceRecord) : bool := peer_or_higher (tier (qual r)).

(** Modelled from the spec: at least two independent records agree, at
    least one of them of tier peer-reviewed or higher. *)
Definition corroborated (w : list EvidenceRecord) : bool :=
  existsb (fun a => existsb (fun b =>
    independent a b && negb (disagree a b) && (trusted a || trusted b)) w) w.

(** Modelled from the spec: the status of a claim from its group of
    records, the Conflict Detector deciding first. *)
Definition derive_status (g : list EvidenceRecord) : verification_status :=
  match g with
  | [] => unverified
  | _ =>
      if unresolved g then conflicting
      else if corroborated (prevailing g) then verified
      else if existsb trusted (prevailing g) then partially_verified
      else unverified
  end.

(** Modelled from the spec: evidence is grouped by claim id. *)
Definition group (l : list EvidenceRecord) (id : string) : list EvidenceRecord :=
  List.filter (fun r => String.eqb (claim_id r) id) l.

Definition claim_ids (l : list EvidenceRecord) : list string :=
  remove_dups (claim_id <$> l).

Definition with_status (s : verification_status) (r : EvidenceRecord) : EvidenceRecord :=
  {| claim_id := claim_id r; claim_text := claim_text r; src := src r;
     retr := retr r;
     qual := {| tier := tier (qual r); confidence := confidence (qual r);
                status := s; freshness_hours := freshness_hours (qual r) |} |}.

Definition claim_of (l : list EvidenceRecord) (id : string) : Claim :=
  let g := group l id in
  let s := derive_status g in
  {| c_id := id; c_evidence := with_status s <$> g; c_status := s |}.

(** Modelled from the spec: one Claim per claim id of the evidence. *)
Definition aggregate (l : list EvidenceRecord) : list Claim :=
  claim_of l <$> claim_ids l.

Definition status_eqb (a b : verification_status) : bool :=
  match a, b with
  | verified, verified | partially_verified, partially_verified
  | unverified, unverified | conflicting, conflicting => true
  | _, _ => false
  end.

Definition count_status (s : verification_status) (cs : list Claim) : nat :=
  length (List.filter (fun c => status_eqb (c_status c) s) cs).

(** Modelled from the spec: the summary counts the Claims by status. *)
Definition summarize (cs : list Claim) : VerificationSummary :=
  {| verified_count := count_status verified cs;
     partial_count := count_status partially_verified cs;
     unverified_count := count_status unverified cs;
     conflicting_count := count_status conflicting cs |}.

(** Modelled from the spec: the Verification Aggregator on an evidence
    list. *)
Definition verification (l : list EvidenceRecord) : VerificationSummary :=
  summarize (aggregate l).

(** *** 4.5 Abstention Policy Engine *)

(** Modelled from the spec: the low-trust sources of rule (2) are those
    of tier [other]. *)
Definition low_trust (r : EvidenceRecord) : bool :=
  match tier (qual r) with other => true | _ => false end.

(** Modelled from the spec: the four abstention rules in their precedence
    order, each with its reason. *)
Definition rules (q : Query) (ev : list EvidenceRecord) (cs : list Claim)
    : list (bool * reason) :=
  [ (match ev with [] => true | _ => false end, no_evidence);
    (existsb (fun c => critical q (c_id c) && forallb low_trust (c_evidence c)) cs,
     insufficient_trust);
    (factual q && existsb (fun c => status_eqb (c_status c) conflicting) cs,
     conflicting_evidence);
    (existsb (fun c => realtime q (c_id c) && forallb stale (c_evidence c)) cs,
     evidence_stale) ].

(** Modelled from the spec: the engine stops at the first rule that holds;
    [None] lets the request proceed. *)
Definition abstention (q : Query) (ev : list EvidenceRecord) (cs : list Claim)
    : option reason :=
  snd <$> List.find fst (rules q ev cs).

(** *** 4.6 Grounded Prompt Builder *)

(** Modelled from the spec: the statuses that may support a sentence. *)
Definition eligible (s : verification_status) : bool :=
  match s with
  | verified | partially_verified => true
  | _ => false
  end.

(** Modelled from the spec: only the snippets of verified and partially
    verified Claims, each tagged with its claim id. *)
Definition build_prompt (cs : list Claim) : Prompt :=
  {| snippets :=
       c ← List.filter (fun c => eligible (c_status c)) cs;
       (fun r => (c_id c, snippet (retr r))) <$> c_evidence c;
     forbid_outside_facts := true;
     require_citations := true;
     sentinel := ABSTAIN_UNVERIFIED |}.

Definition prompt_ids (p : Prompt) : list string := fst <$> snippets p.

(** *** 4.7 Truth Gate *)

Inductive sentence_state := pending | cited | accepted | rejected.

Definition lookup_claim (cs : list Claim) (id : string) : option Claim :=
  List.find (fun c => String.eqb (c_id c) id) cs.

(** Modelled from the spec: a cited id resolves when it names a Claim of
    eligible status that was included in the prompt. *)
Definition resolves (cs : list Claim) (p : Prompt) (id : string) : bool :=
  match lookup_claim cs id with
  | Some c => eligible (c_status c) && existsb (String.eqb id) (prompt_ids p)
  | None => false
  end.

(** Modelled from the spec: a sentence passes when it cites at least one
    id and every id it cites resolves. *)
Definition well_cited (cs : list Claim) (p : Prompt) (sentence : string) : bool :=
  match cited_ids sentence with
  | [] => false
  | ids => forallb (resolves cs p) ids
  end.

(** Modelled from the spec: one transition of the gate's state machine,
    [pending -> cited -> accepted] or [pending -> rejected]. *)
Definition gate_step (cs : list Claim) (p : Prompt) (sentence : string)
    (st : sentence_state) : sentence_state :=
  match st with
  | pending => if well_cited cs p sentence then cited else rejected
  | cited => accepted
  | final => final
  end.

Definition judge (cs : list Claim) (p : Prompt) (sentence : string) : sentence_state :=
  gate_step cs p sentence (gate_step cs p sentence pending).

Definition is_accepted (st : sentence_state) : bool :=
  match st with accepted => true | _ => false end.

Definition accepted_sentences (cs : list Claim) (p : Prompt) (narrative : string)
    : list string :=
  List.filter (fun s => is_accepted (judge cs p s)) (split_sentences narrative).

Definition concat_all (l : list string) : string := fold_right String.append EmptyString l.

(** Modelled from the spec: the accepted sentences concatenated, the claim
    ids they cite, and whether the gate forces abstention. *)
Definition truth_gate (cs : list Claim) (p : Prompt) (narrative : string)
    : Summary * bool :=
  let kept := accepted_sentences cs p narrative in
  ({| text := concat_all kept;
      supported_claim_ids := remove_dups (s ← kept; cited_ids s) |},
   match kept with [] => true | _ => String.eqb narrative (sentinel p) end).

(** *** The pipeline *)

Definition later (a : option Z) (b : Z) : option Z :=
  match a with
  | Some x => Some (Z.max x b)
  | None => Some b
  end.

Definition Qmax (a b : Q) : Q := if Qle_bool a b then b else a.

(** Modelled from the spec: the latest fetch time and the greatest age
    over the evidence of a result. *)
Definition freshness_of (ev : list EvidenceRecord) : FreshnessSummary :=
  {| latest_fetch_at := fold_left later ((fun r => fetched_at (retr r)) <$> ev) None;
     max_age_hours := fold_right Qmax 0 ((fun r => freshness_hours (qual r)) <$> ev) |}.

Record Outcome := {
  result : AgentResult;
  summary : Summary
}.

(** Modelled from the spec: the control flow of section 2, from the raw
    hits to the final result. *)
Definition run (q : Query) (now : Z) (hits : list raw_hit) : Outcome :=
  let ev := score now <$> normalize hits in
  let cs := aggregate ev in
  let stamped := (fun r => with_status (derive_status (group ev (claim_id r))) r) <$> ev in
  let finish (a : bool) (why : option string) :=
    {| evidence := stamped; claims := cs;
       verification_summary := summarize cs;
       freshness_summary := freshness_of ev;
       abstained := a; abstain_reason := why |} in
  match abstention q ev cs with
  | Some r =>
      {| result := finish true (Some (reason_text r));
         summary := {| text := EmptyString; supported_claim_ids := [] |} |}
  | None =>
      let p := build_prompt cs in
      let '(s, forced) := truth_gate cs p (generate p) in
      {| result := finish forced None; summary := s |}
  end.

End Stages.

(** *** A concrete instance, for the scenarios of section 8 *)

Fixpoint split_after (c : ascii) (s : string) : list string :=
  match s with
  | EmptyString => []
  | String a rest =>
      if Ascii.eqb a c then String a EmptyString :: split_after c rest
      else
        match split_after c rest with
        | [] => [String a EmptyString]
        | first :: more => String a first :: more
        end
  end.

(** The ids written between square brackets, as in [[c1]]. *)
Fixpoint bracketed (inside : option string) (s : string) : list string :=
  match s with
  | EmptyString => []
  | String a rest =>
      match inside with
      | None => bracketed (if Ascii.eqb a "["%char then Some EmptyString else None) rest
      | Some acc =>
          if Ascii.eqb a "]"%char then acc :: bracketed None rest
          else bracketed (Some (acc +:+ String a EmptyString)) rest
      end
  end.

(** The stated value of a snippet: its first word. *)
Fixpoint first_word (s : string) : string :=
  match s with
  | EmptyString => EmptyString
  | String a rest =>
      if Ascii.eqb a " "%char then EmptyString else String a (first_word rest)
  end.

Definition demo_tier (s : source) : source_tier :=
  if String.eqb (s_name s) "FDA" then official
  else if String.eqb (s_name s) "EMA" then official
  else if String.eqb (s_name s) "PubMed" then peer_reviewed
  else if String.eqb (s_name s) "EuropePMC" then peer_reviewed
  else if String.eqb (s_name s) "FiercePharma" then news
  else other.

(** A confidence law for the examples: the tier sets the base, a stale
    record keeps the share [sla / age] of it. *)
Definition demo_confidence (t : source_tier) (c : category) (age : Q) : Q :=
  (Z.of_nat (tier_rank t) + 1 # 4) * (if Qle_bool age (sla c) then 1 else sla c / age).

Definition demo_generate (p : Prompt) : string :=
  match snippets p with
  | [] => sentinel p
  | (id, s) :: _ => s +:+ " [" +:+ id +:+ "]. It also cures everything [c9]."
  end.

Definition demo : Oracles :=
  {| hash_of := fun s => s;
     tier_of := demo_tier;
     category_of := fun _ => publication_trial;
     confidence_law := demo_confidence;
     value_of := fun s => categorical (first_word s);
     split_sentences := split_after "."%char;
     cited_ids := bracketed None;
     generate := demo_generate |}.

Definition hit (topic source snippet : string) (published : Z) : raw_hit :=
  {| h_topic := topic; h_source := source;
     h_url := Some ("https://example.org/" +:+ source);
     h_document_id := None;
     h_published_at := Some published;
     h_fetched_at := Some published;
     h_query := "aspirin";
     h_snippet := snippet |}.

(** A hit the Normalizer drops: it has no url. *)
Definition malformed_hit : raw_hit :=
  {| h_topic := "c1"; h_source := "PubMed"; h_url := None;
     h_document_id := None; h_published_at := None;
     h_fetched_at := Some 0%Z; h_query := "aspirin";
     h_snippet := "yes (trial A)" |}.

(** The evaluation time of the examples, and a time [n] days before it. *)
Definition demo_now : Z := 3600000.

Definition days_ago (n : Z) : Z := (demo_now - n * 86400)%Z.

(** Two peer-reviewed records that agree on claim [c1], and a blog post
    on claim [c2]. *)
Definition demo_hits : list raw_hit :=
  [ hit "c1" "PubMed" "yes (trial A)" (days_ago 1);
    hit "c1" "EuropePMC" "yes (trial B)" (days_ago 2);
    hit "c2" "Blog" "no" (days_ago 3) ].

Definition demo_evidence : list EvidenceRecord :=
  @score demo demo_now <$> @normalize demo demo_hits.

Definition plain_query : Query :=
  {| factual := false; critical := fun _ => false; realtime := fun _ => false |}.

Definition factual_query : Query :=
  {| factual := true; critical := fun _ => false; realtime := fun _ => false |}.

Definition realtime_query : Query :=
  {| factual := false; critical := fun _ => false; realtime := fun _ => true |}.

End Pipeline.

(** ** The other entry points of the rate limiter *)

Module Limiter.
Import Json RateLimiter.
Local Open Scope Z_scope.

(** [hay.includes(needle)] *)
Fixpoint includes (needle hay : string) : bool :=
  String.prefix needle hay
  || match hay with
     | EmptyString => false
     | String _ rest => includes needle rest
     end.

(** [toLowerCase] on the letters A to Z; a request path is ASCII. *)
Definition lower (c : ascii) : ascii :=
  let n := nat_of_ascii c in
  if ((65 <=? n) && (n <=? 90))%nat then ascii_of_nat (n + 32) else c.

Fixpoint toLowerCase (s : string) : string :=
  match s with
  | EmptyString => EmptyString
  | String c rest => String (lower c) (toLowerCase rest)
  end.

(** The limit type [dynamicRateLimiter] picks for a request path. *)
Definition dynamic_limit_type (req_path : string) : string :=
  let path := toLowerCase req_path in
  if includes "/health" path then "health"
  else if includes "/analyze" path || includes "/roi" path then "analysis"
  else if includes "/report" path || includes "/pdf" path then "reports"
  else if includes "/watch" path || includes "/alert" path then "watchlist"
  else "standard".

(** [dynamicRateLimiter], the middleware mounted on [/api/]. *)
Definition dynamicRateLimiter (req_path : string) (req : request) (now : Z)
    (rateLimitStore : gmap string entry) (res : response)
    : gmap string entry * response * bool :=
  createRateLimiter (dynamic_limit_type req_path) req now rateLimitStore res.

(** [skipIf(conditionFn)], with the condition already applied to the
    request. *)
Definition skipIf (skip : bool) (req_path : string) (req : request) (now : Z)
    (rateLimitStore : gmap string entry) (res : response)
    : gmap string entry * response * bool :=
  if skip then (rateLimitStore, res, true)
  else dynamicRateLimiter req_path req now rateLimitStore res.

(** The entry the middleware writes back: the current window with the
    request counted. *)
Definition next_entry (cfg : config) (now : Z) (stored : option entry) : entry :=
  let w := current_window cfg now stored in
  {| windowStart := windowStart w; e_windowMs := e_windowMs w;
     requests := requests w + 1 |}.

(** A client sending one request at each of the given times through the
    same limiter: the answers ([true] for a request passed on) and the
    store at the end. *)
Fixpoint replay (limitType : string) (req : request) (times : list Z)
    (rateLimitStore : gmap string entry) : list bool * gmap string entry :=
  match times with
  | [] => ([], rateLimitStore)
  | now :: later =>
      let '(store, _, called) :=
        createRateLimiter limitType req now rateLimitStore fresh_response in
      let '(answers, final) := replay limitType req later store in
      (called :: answers, final)
  end.

(** Every entry of the store carries the window length of the limit its
    key is counted under, as the entries the middleware creates do. *)
Definition window_recorded (limitType : string) (req : request)
    (rateLimitStore : gmap string entry) : Prop :=
  forall e, rateLimitStore !! store_key limitType req = Some e ->
            e_windowMs e = windowMs (limit_config limitType).

Definition anonymous (address : string) : request :=
  {| user_id := None; ip := Some address;
     x_forwarded_for := None; remoteAddress := None |}.

(** The seven markers [dynamicRateLimiter] looks for in a path. *)
Definition markers : list string :=
  [ "/health"; "/analyze"; "/roi"; "/report"; "/pdf"; "/watch"; "/alert" ].

Definition authenticated (id address : string) : request :=
  {| user_id := Some id; ip := Some address;
     x_forwarded_for := None; remoteAddress := None |}.

(** Eleven more requests, one a second, after a first one at time 0. *)
Definition burst_times : list Z :=
  [1000; 2000; 3000; 4000; 5000; 6000; 7000; 8000; 9000; 10000; 11000].

(** An entry at the analysis limit, its window having started at 1000. *)
Definition full_entry : entry :=
  {| windowStart := 1000; e_windowMs := 60000; requests := 10 |}.

End Limiter.

(** ** Well-formed schemas *)

Module Wellformed.
Import Json Zod Schemas.

(** The kinds of value a schema can be handed; [k_undefined] is a
    missing property. *)
Inductive kind :=
| k_undefined | k_null | k_bool | k_num | k_str | k_arr | k_obj.

Definition kind_of (v : option json) : kind :=
  match v with
  | None => k_undefined
  | Some JNull => k_null
  | Some (JBool _) => k_bool
  | Some (JNum _) => k_num
  | Some (JStr _) => k_str
  | Some (JArr _) => k_arr
  | Some (JObj _) => k_obj
  end.

Definition kind_eqb (a b : kind) : bool :=
  match a, b with
  | k_undefined, k_undefined | k_null, k_null | k_bool, k_bool | k_num, k_num
  | k_str, k_str | k_arr, k_arr | k_obj, k_obj => true
  | _, _ => false
  end.

Definition all_kinds : list kind :=
  [ k_undefined; k_null; k_bool; k_num; k_str; k_arr; k_obj ].

(** The kinds of value a schema does not refuse outright. *)
Fixpoint kinds (s : schema) : list kind :=
  match s with
  | z_string => [k_str]
  | z_number _ _ _ => [k_num]
  | z_boolean => [k_bool]
  | z_enum _ => [k_str]
  | z_array _ => [k_arr]
  | z_object _ => [k_obj]
  | z_record _ => [k_obj]
  | z_union options => concat (List.map kinds options)
  | z_any => all_kinds
  | z_optional inner => k_undefined :: kinds inner
  end.

Definition has_kind (k : kind) (l : list kind) : bool := existsb (kind_eqb k) l.

Definition disjoint (a b : list kind) : bool :=
  forallb (fun k => negb (has_kind k b)) a.

(** No two lists of kinds overlap. *)
Fixpoint separate (l : list (list kind)) : bool :=
  match l with
  | [] => true
  | a :: rest => forallb (disjoint a) rest && separate rest
  end.

Fixpoint distinct (l : list string) : bool :=
  match l with
  | [] => true
  | k :: rest => negb (existsb (String.eqb k) rest) && distinct rest
  end.

(** A schema as an object literal and a sensible union give it: the keys
    of a shape are distinct, and the options of a union accept values of
    different kinds, so that at most one option can take a value. *)
Fixpoint wf (s : schema) : bool :=
  match s with
  | z_array item => wf item
  | z_object shape =>
      distinct (List.map fst shape) && forallb (fun e => wf (snd e)) shape
  | z_record value => wf value
  | z_union options => separate (List.map kinds options) && forallb wf options
  | z_optional inner => wf inner
  | _ => true
  end.

End Wellformed.

(** ** What the archive keeps *)

Module ArchiveInvariants.
Import Json Archive.
Local Open Scope Z_scope.

(** The document [saveReport] stores for a request, the free-form paths
    as Mongoose has cast them. *)
Definition built_report (req : save_request) (newId : ObjectId) (now : Z) (d : details)
    : report :=
  with_updatedAt (new_report req newId now d) (Some now).

(** The audit entry that goes with it. *)
Definition built_audit (req : save_request) (newId : ObjectId) : audit :=
  let b := body req in
  {| a_userId := req_user req;
     action := "REPORT_GENERATED";
     a_requestId := text (b_requestId b);
     a_molecule := text (b_molecule b);
     a_processingMode := Some (text (b_processingMode b));
     metadata := JObj [ ("reportId", JStr newId) ] |}.

(** What MongoDB and the schema guarantee of the stored reports: ids and
    request ids are unique (the primary key and the unique index), and
    every document has passed the schema's validation. *)
Definition store_consistent (d : database) : Prop :=
  NoDup (_id <$> reports d)
  /\ NoDup (requestId <$> reports d)
  /\ Forall (fun r => valid_report r = true) (reports d).

(** The database with document [r] written: over the stored document with
    its id, or at the end. *)
Definition written (r : report) (d : database) : database :=
  {| reports := replace_report r (reports d); users := users d; auditLog := auditLog d |}.

(** Two reports that agree on every path of [report] but [isShared],
    [sharedWith] and [updatedAt]. *)
Definition same_but_sharing (a b : report) : Prop :=
  with_shares (with_updatedAt a (updatedAt b)) (isShared b) (sharedWith b) = b.

(** Two reports that agree on every path of [report] but [status] and
    [updatedAt]. *)
Definition same_but_status (a b : report) : Prop :=
  _id a = _id b /\ requestId a = requestId b /\ userId a = userId b
  /\ molecule a = molecule b /\ query a = query b
  /\ processingMode a = processingMode b /\ modelUsed a = modelUsed b
  /\ results a = results b /\ summary a = summary b
  /\ knowledgeGraph a = knowledgeGraph b /\ agentsExecuted a = agentsExecuted b
  /\ totalProcessingTimeMs a = totalProcessingTimeMs b
  /\ pdfGenerated a = pdfGenerated b /\ isShared a = isShared b
  /\ sharedWith a = sharedWith b /\ createdAt a = createdAt b.

Definition fresh_body : save_body :=
  {| b_requestId := Some "req-2";
     b_molecule := Some "  ibuprofen ";
     b_query := None;
     b_processingMode := Some "secure";
     b_modelUsed := None;
     b_results := Some (JObj []);
     b_summary := None;
     b_knowledgeGraph := None;
     b_agentsExecuted := None;
     b_totalProcessingTimeMs := None |}.

Definition fresh_request : save_request := through_validators fresh_body None.

End ArchiveInvariants.

(** ** The status handlers of the archival controller

    [archiveReport], [restoreReport] and [deleteReport], with the logging
    the controller does. *)
Module Controller.
Import Json Archive.
Local Open Scope Z_scope.

(** The update [{ status, updatedAt }] applied to a document. *)
Definition set_status (r : report) (st : string) (now : Z) : report :=
  {| _id := _id r; requestId := requestId r; userId := userId r;
     molecule := molecule r; query := query r;
     processingMode := processingMode r; modelUsed := modelUsed r;
     results := results r; summary := summary r;
     knowledgeGraph := knowledgeGraph r; agentsExecuted := agentsExecuted r;
     totalProcessingTimeMs := totalProcessingTimeMs r;
     status := st;
     pdfGenerated := pdfGenerated r;
     isShared := isShared r;
     sharedWith := sharedWith r;
     createdAt := createdAt r;
     updatedAt := Some now |}.

(** [ResearchReport.findByIdAndUpdate(id, { status, updatedAt }, { new: true })]:
    a [CastError] for an id that is no [ObjectId], [null] when no document
    has the id, and otherwise the document as updated.  Updates run no
    validators. *)
Definition ResearchReport_findByIdAndUpdate (id st : string) (now : Z)
    : M (option report) :=
  driver (fun d =>
    if castable id then
      match find_report (fun r => String.eqb (_id r) (cast_id id)) d with
      | None => (inl None, d)
      | Some r =>
          let r' := set_status r st now in
          (inl (Some r'),
           {| reports := replace_report r' (reports d);
              users := users d;
              auditLog := auditLog d |})
      end
    else (inr "CastError", d)).

(** The request of the routes on [/reports/:reportId], and the time the
    update writes to [updatedAt]. *)
Record id_request := {
  p_reportId : string;            (* req.params.reportId *)
  p_user : option ObjectId;       (* req.user?.id *)
  p_now : Z                       (* the time stored in updatedAt *)
}.

Definition confirmation (msg : string) : response :=
  respond 200 (JObj [ ("success", JBool true); ("message", JStr msg) ]).

Definition archiveReport (req : id_request) : world -> outcome * world :=
  try_catch "Failed to archive report"
    (found <~ ResearchReport_findByIdAndUpdate (p_reportId req) "archived" (p_now req) ;
     match found with
     | None => ret (failure 404 "Report not found")
     | Some report =>
         logged <~ logger_call "info" ;
         ret (confirmation "Report archived successfully")
     end).

Definition restoreReport (req : id_request) : world -> outcome * world :=
  try_catch "Failed to restore report"
    (found <~ ResearchReport_findByIdAndUpdate (p_reportId req) "completed" (p_now req) ;
     match found with
     | None => ret (failure 404 "Report not found")
     | Some report =>
         logged <~ logger_call "info" ;
         ret (confirmation "Report restored successfully")
     end).

Definition deleteReport (req : id_request) : world -> outcome * world :=
  try_catch "Failed to delete report"
    (found <~ ResearchReport_findByIdAndUpdate (p_reportId req) "archived" (p_now req) ;
     match found with
     | None => ret (failure 404 "Report not found")
     | Some report =>
         audited <~ AuditLog_create
                  {| a_userId := p_user req;
                     action := "REPORT_DOWNLOADED";
                     a_requestId := requestId report;
                     a_molecule := molecule report;
                     a_processingMode := None;
                     metadata := JObj [ ("action", JStr "deleted");
                                        ("reportId", JStr (p_reportId req)) ] |} ;
         logged <~ logger_call "info" ;
         ret (confirmation "Report deleted successfully")
     end).

(** The three handlers that set a report's status. *)
Inductive status_handler :=
| Archiving
| Restoring
| Deleting.

Definition handle (h : status_handler) : id_request -> world -> outcome * world :=
  match h with
  | Archiving => archiveReport
  | Restoring => restoreReport
  | Deleting => deleteReport
  end.

Definition new_status (h : status_handler) : string :=
  match h with
  | Archiving | Deleting => "archived"
  | Restoring => "completed"
  end.

Definition failed_report : report := set_status report1 "failed" 1700000001000.

Definition world2 : world :=
  {| db := {| reports := [failed_report]; users := [alice; bob]; auditLog := [] |};
     faults := [] |}.

(** The id in capitals: the cast makes it the stored one. *)
Definition on_report1 : id_request :=
  {| p_reportId := "64B000000000000000000001"; p_user := None; p_now := 1700000009000 |}.

Definition on_report1_later : id_request :=
  {| p_reportId := "64b000000000000000000001"; p_user := None; p_now := 1700000010000 |}.

End Controller.

(** ** The client's throttle ([client/src/utils/debounce.js]) *)
Module Throttle.
Local Open Scope Z_scope.

(** One call of the function [throttle(func, wait)] returns, at clock
    reading [now]: whether [func] runs, and the closure's [lastTime]
    after the call. *)
Definition executedFunction (wait lastTime now : Z) : bool * Z :=
  if wait <=? now - lastTime then (true, now) else (false, lastTime).

(** The clock readings at which [func] runs over a series of calls, the
    closure starting from [lastTime]. *)
Fixpoint runs (wait lastTime : Z) (clock : list Z) : list Z :=
  match clock with
  | [] => []
  | now :: later =>
      let '(ran, lastTime') := executedFunction wait lastTime now in
      if ran then now :: runs wait lastTime' later else runs wait lastTime' later
  end.

(** [throttle(func, wait)]: [lastTime] starts at 0. *)
Definition throttle (wait : Z) (clock : list Z) : list Z := runs wait 0 clock.

(** Every element is at least [wait] after the one before it, the first
    one after [start]. *)
Fixpoint spaced (wait start : Z) (l : list Z) : Prop :=
  match l with
  | [] => True
  | t :: rest => wait <= t - start /\ spaced wait t rest
  end.

End Throttle.

(** * Theorems *)

(** ** Rate limiting *)

Module RateLimiterFacts.
Import Json RateLimiter.
Local Open Scope Z_scope.

Lemma remaining_header (k : string) (v : header_value) (res : response) :
  headers (set_header k v res) !! k = Some v.
Proof. unfold set_header; simpl. apply lookup_insert_eq. Qed.

Lemma other_header (k k' : string) (v : header_value) (res : response) :
  k ≠ k' -> headers (set_header k v res) !! k' = headers res !! k'.
Proof. intros Hne. unfold set_header; simpl. by apply lookup_insert_ne. Qed.

(** C8.  For every client and every limit type (any name that is a key of
    [RATE_LIMITS], or that names nothing and so falls back to the standard
    limits), take the client's stored entry: its window is running if the
    time is not past [windowStart + windowMs], and the request's count is
    then the stored count plus one; with no entry, or a window that has
    run out, the count is one, in a window that starts now.  The
    middleware stores that window with that count under the client's key
    and touches no other key; it calls [next()] exactly when the count is
    at most [maxRequests], and otherwise answers 429 with a [Retry-After]
    header; either way the [X-RateLimit-Remaining] header is a number that
    is not negative. *)
Theorem createRateLimiter_passes_within_limit
    (limitType : string) (req : request) (now : Z)
    (store : gmap string entry) (res : response) :
  plain_limit_type limitType ->
  let config := limit_config limitType in
  let key := store_key limitType req in
  let running :=
    match store !! key with
    | Some e => if windowStart e + windowMs config <? now then None else Some e
    | None => None
    end in
  let count := match running with Some e => requests e + 1 | None => 1 end in
  exists store' res' called,
    createRateLimiter limitType req now store res = (store', res', called)
    /\ store' !! key
       = Some match running with
              | Some e => {| windowStart := windowStart e; e_windowMs := e_windowMs e;
                             requests := count |}
              | None => {| windowStart := now; e_windowMs := windowMs config;
                           requests := count |}
              end
    /\ (forall k, k <> key -> store' !! k = store !! k)
    /\ (called = true <-> count <= maxRequests config)
    /\ (called = true -> status res' = status res /\ body res' = body res)
    /\ (called = false ->
          status res' = Some 429
          /\ exists n, headers res' !! "Retry-After" = Some (HNum n))
    /\ exists n, headers res' !! "X-RateLimit-Remaining" = Some (HNum n) /\ 0 <= n.
Proof.
  intros _ config key running count.
  unfold createRateLimiter. fold config. fold key. cbn zeta.
  set (entry0 := current_window config now (store !! key)).
  assert (Hentry : {| windowStart := windowStart entry0; e_windowMs := e_windowMs entry0;
                      requests := requests entry0 + 1 |}
                   = match running with
                     | Some e => {| windowStart := windowStart e;
                                    e_windowMs := e_windowMs e; requests := count |}
                     | None => {| windowStart := now; e_windowMs := windowMs config;
                                  requests := count |}
                     end).
  { unfold entry0, current_window, count, running.
    destruct (store !! key) as [e|]; [|done].
    by destruct (windowStart e + windowMs config <? now). }
  assert (Hcount : requests entry0 + 1 = count).
  { apply (f_equal requests) in Hentry. cbn [requests] in Hentry.
    rewrite Hentry. by destruct running. }
  cbn [requests windowStart e_windowMs]. rewrite Hentry, Hcount.
  destruct (maxRequests config <? count) eqn:Hover.
  - apply Z.ltb_lt in Hover.
    eexists _, _, false. split; [reflexivity|].
    split; [by rewrite lookup_insert_eq|].
    split; [intros k Hk; by rewrite lookup_insert_ne|].
    split; [split; [discriminate | lia]|].
    split; [discriminate|].
    split.
    + intros _. split; [reflexivity|].
      eexists. cbn [send headers]. apply remaining_header.
    + exists (Z.max 0 (maxRequests config - count)). split; [|lia].
      cbn [send headers].
      rewrite !other_header by discriminate. apply remaining_header.
  - apply Z.ltb_ge in Hover.
    eexists _, _, true. split; [reflexivity|].
    split; [by rewrite lookup_insert_eq|].
    split; [intros k Hk; by rewrite lookup_insert_ne|].
    split; [split; [intros _; exact Hover | reflexivity]|].
    split; [intros _; split; reflexivity|].
    split; [discriminate|].
    exists (Z.max 0 (maxRequests config - count)). split; [|lia].
    rewrite !other_header by discriminate. apply remaining_header.
Qed.

Lemma analysis_is_plain : plain_limit_type "analysis".
Proof.
  unfold plain_limit_type, Object_prototype_names.
  rewrite !not_elem_of_cons. repeat split; try discriminate.
  apply not_elem_of_nil.
Qed.

(** The eleventh analysis request of a minute: it is counted, and it is
    turned away with 429. *)
Lemma createRateLimiter_witness :
  plain_limit_type "analysis"
  /\ (let config := limit_config "analysis" in
      let key := store_key "analysis" busy_client in
      let running :=
        match busy_store !! key with
        | Some e => if windowStart e + windowMs config <? 30000 then None else Some e
        | None => None
        end in
      let count := match running with Some e => requests e + 1 | None => 1 end in
      exists store' res' called,
        createRateLimiter "analysis" busy_client 30000 busy_store fresh_response
          = (store', res', called)
        /\ store' !! key
           = Some match running with
                  | Some e => {| windowStart := windowStart e;
                                 e_windowMs := e_windowMs e; requests := count |}
                  | None => {| windowStart := 30000; e_windowMs := windowMs config;
                               requests := count |}
                  end
        /\ (forall k, k <> key -> store' !! k = busy_store !! k)
        /\ (called = true <-> count <= maxRequests config)
        /\ (called = true ->
              status res' = status fresh_response /\ body res' = body fresh_response)
        /\ (called = false ->
              status res' = Some 429
              /\ exists n, headers res' !! "Retry-After" = Some (HNum n))
        /\ exists n, headers res' !! "X-RateLimit-Remaining" = Some (HNum n) /\ 0 <= n)
  /\ (createRateLimiter "analysis" busy_client 30000 busy_store fresh_response).2 = false
  /\ status (createRateLimiter "analysis" busy_client 30000 busy_store fresh_response).1.2
     = Some 429
  /\ (createRateLimiter "analysis" busy_client 30000 busy_store fresh_response).1.1
       !! "analysis:user:u42"
     = Some {| windowStart := 1000; e_windowMs := 60000; requests := 11 |}.
Proof.
  split; [exact analysis_is_plain|].
  split; [exact (createRateLimiter_passes_within_limit "analysis" busy_client 30000
                   busy_store fresh_response analysis_is_plain)|].
  split; [reflexivity|]. split; reflexivity.
Defined.

End RateLimiterFacts.

(** ** The archival controller *)

Module ArchiveFacts.
Import Json Archive.
Local Open Scope Z_scope.

(** A driver call either rejects, leaving the database as it was, or runs
    its operation. *)
Lemma driver_cases {A : Type} (f : database -> (A + string) * database) (w : world) :
  (exists later, faults w = true :: later
     /\ driver f w = (inr "MongoNetworkError", {| db := db w; faults := later |}))
  \/ (head (faults w) <> Some true
      /\ driver f w = ((f (db w)).1, {| db := (f (db w)).2; faults := tail (faults w) |})).
Proof.
  unfold driver. destruct (faults w) as [|[] later] eqn:Hf.
  - right. split; [discriminate|]. by destruct (f (db w)).
  - left. eauto.
  - right. split; [discriminate|]. by destruct (f (db w)).
Qed.

(** Split a hypothesis on a driver call into its two outcomes and drop
    the one in which the call was rejected. *)
Ltac driver_succeeded Hs w :=
  match type of Hs with context [driver ?f w] =>
    let Hd := fresh "Hd" in
    destruct (driver_cases f w) as [(? & _ & Hd)|(_ & Hd)]; rewrite Hd in Hs;
    [discriminate|]
  end.

Lemma find_report_some (p : report -> bool) (d : database) (r : report) :
  r ∈ reports d -> p r = true -> exists r', find_report p d = Some r'.
Proof.
  unfold find_report. intros Hin Hp.
  destruct (List.find p (reports d)) as [r'|] eqn:Hfind; [eauto|].
  apply list_elem_of_In in Hin.
  pose proof (find_none _ _ Hfind _ Hin) as Hn. congruence.
Qed.

Section Saving.
Context {mongoose : Mongoose}.

(** C9, as amended.  A [saveReport] request that carries the [requestId]
    of a stored report never changes the database: no report is created or
    modified and no audit entry is written.  It is answered 400 when the
    validators of the route have left errors on the request, and 409 when
    they have left none and the look-up goes through. *)
Theorem saveReport_duplicate_leaves_store
    (req : save_request) (newId : ObjectId) (now : Z) (w : world) (r : report) :
  r ∈ reports (db w) ->
  b_requestId (body req) = Some (requestId r) ->
  db (saveReport req newId now w).2 = db w
  /\ (validationResult req <> [] ->
        exists resp, (saveReport req newId now w).1 = Sent resp /\ code resp = 400)
  /\ (validationResult req = [] -> head (faults w) <> Some true ->
        (saveReport req newId now w).1
        = Sent (failure 409 "Report with this request ID already exists")).
Proof.
  intros Hin Hrid.
  unfold saveReport, try_catch.
  destruct (bool_decide (validationResult req = [])) eqn:Hval; cbn [negb].
  - apply bool_decide_eq_true in Hval.
    unfold bind, ResearchReport_findOne.
    match goal with |- context [driver ?f w] =>
      destruct (driver_cases f w) as [(later & Hf & ->)|(Hok & ->)] end.
    + cbn. split; [done|]. split; [done|]. intros _ Hhead. by rewrite Hf in Hhead.
    + cbn [fst snd].
      destruct (find_report_some
                  (fun x => String.eqb (requestId x) (text (b_requestId (body req))))
                  (db w) r Hin) as [r' ->].
      { cbn. rewrite Hrid. cbn. apply String.eqb_refl. }
      cbn. by repeat split.
  - apply bool_decide_eq_false in Hval. cbn.
    split; [done|]. split; [|done]. intros _. by eexists.
Qed.

End Saving.

(** A request that repeats a stored request id and passes the validators
    of the route. *)
Lemma saveReport_duplicate_witness :
  report1 ∈ reports (db world1)
  /\ b_requestId (body (through_validators duplicate_body None)) = Some (requestId report1)
  /\ validationResult (through_validators duplicate_body None) = []
  /\ db (saveReport (mongoose := lenient) (through_validators duplicate_body None)
           "64b000000000000000000002" 5 world1).2 = db world1
  /\ (saveReport (mongoose := lenient) (through_validators duplicate_body None)
        "64b000000000000000000002" 5 world1).1
     = Sent (failure 409 "Report with this request ID already exists").
Proof.
  assert (Hin : report1 ∈ reports (db world1)) by (cbn; apply list_elem_of_here).
  split; [exact Hin|]. split; [reflexivity|]. split; [reflexivity|].
  destruct (saveReport_duplicate_leaves_store (mongoose := lenient)
              (through_validators duplicate_body None)
              "64b000000000000000000002" 5 world1 report1 Hin eq_refl)
    as (Hdb & _ & Hanswer).
  split; [exact Hdb|]. apply Hanswer; [reflexivity | discriminate].
Defined.

(** The claim as first stated fails: a request that repeats a stored
    request id but carries a one-letter molecule name comes from the
    validators with errors on it and is answered 400 by the validation
    guard, not 409. *)
Lemma saveReport_duplicate_not_always_409 :
  ~ (forall (mongoose : Mongoose) (req : save_request) (newId : ObjectId) (now : Z)
            (w : world),
       (exists r, r ∈ reports (db w)
                  /\ b_requestId (body req) = Some (requestId r)) ->
       exists resp, (saveReport req newId now w).1 = Sent resp /\ code resp = 409).
Proof.
  intros Hall.
  specialize (Hall lenient (through_validators invalid_duplicate_body None)
                   "64b000000000000000000002" 5 world1).
  assert (Hdup : exists r, r ∈ reports (db world1)
                   /\ b_requestId (body (through_validators invalid_duplicate_body None))
                      = Some (requestId r)).
  { exists report1. split; [cbn; apply list_elem_of_here | reflexivity]. }
  destruct (Hall Hdup) as (resp & Hsent & Hcode).
  vm_compute in Hsent. injection Hsent as <-. discriminate Hcode.
Qed.

Lemma find_replaced (r : report) (l : list report) :
  List.find (fun x => String.eqb (_id x) (_id r)) (replace_report r l) = Some r.
Proof.
  induction l as [|x rest IH]; cbn.
  - by rewrite String.eqb_refl.
  - destruct (String.eqb (_id x) (_id r)) eqn:Hx; cbn.
    + by rewrite String.eqb_refl.
    + by rewrite Hx.
Qed.

Lemma find_by_id (id : string) (l : list report) (r : report) :
  List.find (fun x => String.eqb (_id x) id) l = Some r -> _id r = id.
Proof.
  intros Hf. apply find_some in Hf as [_ Heq]. by apply String.eqb_eq.
Qed.

Lemma some_shared_false (id : ObjectId) (l : list share) :
  some_shared id l = inl false -> forall s, s ∈ l -> entry_of id s = false.
Proof.
  induction l as [|x rest IH]; cbn; intros Hs s Hin.
  - by apply elem_of_nil in Hin.
  - destruct (s_userId x) as [u|] eqn:Hu; [|discriminate].
    destruct (String.eqb u id) eqn:Heq; [discriminate|].
    apply elem_of_cons in Hin as [->|Hin]; [|by apply IH].
    unfold entry_of. by rewrite Hu.
Qed.

Lemma without_user_filter (id : string) (l kept : list share) :
  without_user id l = inl kept ->
  kept = List.filter (fun s => negb (entry_of id s)) l.
Proof.
  revert kept. induction l as [|x rest IH]; cbn; intros kept Hk.
  - congruence.
  - unfold entry_of at 1.
    destruct (s_userId x) as [u|]; [|discriminate].
    destruct (without_user id rest) as [kept'|]; [|discriminate].
    rewrite <- (IH kept' eq_refl).
    destruct (String.eqb u id); cbn; congruence.
Qed.

Lemma restamp_id (stamp : option Z) (r : report) : _id (restamp stamp r) = _id r.
Proof. by destruct stamp. Qed.

Lemma restamp_sharing (stamp : option Z) (r : report) :
  isShared (restamp stamp r) = isShared r /\ sharedWith (restamp stamp r) = sharedWith r.
Proof. by destruct stamp. Qed.

(** What a successful [save] of [r] does to the world. *)
Lemma save_ok (stamp : option Z) (r : report) (w w' : world) (u : ()) :
  save stamp r w = (inl u, w') ->
  find_report (fun x => String.eqb (_id x) (_id r)) (db w') = Some (restamp stamp r).
Proof.
  unfold save. intros Hs.
  driver_succeeded Hs w.
  cbn [fst snd] in Hs.
  destruct (negb (valid_report r)); [discriminate|].
  destruct (existsb _ _); [discriminate|].
  cbn in Hs. simplify_eq.
  unfold find_report. cbn. rewrite <- (restamp_id stamp r). apply find_replaced.
Qed.

Lemma findById_ok (id : string) (w w' : world) (found : option report) :
  ResearchReport_findById id w = (inl found, w') ->
  db w' = db w /\ found = stored id w.
Proof.
  unfold ResearchReport_findById. intros Hs.
  driver_succeeded Hs w.
  destruct (castable id); cbn in Hs; [|discriminate].
  injection Hs as <- <-. by split.
Qed.

Lemma User_findOne_ok (mail : option string) (w w' : world) (found : option user) :
  User_findOne mail w = (inl found, w') ->
  db w' = db w /\ found = user_by_email mail (db w).
Proof.
  unfold User_findOne. intros Hs.
  driver_succeeded Hs w.
  cbn in Hs. by injection Hs as <- <-.
Qed.

(** Once the save has resolved, the handler goes on to [logger.info]:
    the world it leaves is the one the save left. *)
Lemma perform_after_save (op : sharing) (w : world) :
  saved op w ->
  (perform op w).2
  = match op with
    | Share req => (share_and_save req w).2
    | Unshare req => (unshare_and_save req w).2
    end.
Proof.
  destruct op as [req|req]; cbn [saved perform];
    unfold shareReport, unshareReport, try_catch, bind.
  - destruct (share_and_save req w) as [[[early|]|e] w']; by cbn.
  - destruct (unshare_and_save req w) as [[[early|]|e] w']; by cbn.
Qed.

(** C10.  When [shareReport] or [unshareReport] has got through its
    [report.save()], the stored report's [isShared] flag says whether
    its [sharedWith] list is non-empty.  [unshareReport] keeps exactly
    the entries of other users; [shareReport] appends one entry, for a
    user who had none, and sets the flag. *)
Theorem sharing_keeps_isShared_in_step (op : sharing) (w : world) :
  saved op w ->
  exists before after,
    stored (target op) w = Some before
    /\ stored (target op) (perform op w).2 = Some after
    /\ isShared after = negb (bool_decide (sharedWith after = []))
    /\ match op with
       | Share req =>
           exists u,
             user_by_email (sh_email req) (db w) = Some u
             /\ sharedWith after =
                  (sharedWith before
                   ++ [ {| s_userId := Some (u_id u);
                           permission := Some (default "view" (sh_permission req)) |} ])%list
             /\ (forall s, s ∈ sharedWith before -> entry_of (u_id u) s = false)
             /\ isShared after = true
       | Unshare req =>
           sharedWith after =
             List.filter (fun s => negb (entry_of (un_userId req) s)) (sharedWith before)
           /\ (sharedWith after = [] -> isShared after = false)
       end.
Proof.
  intros Hsaved. rewrite (perform_after_save op w Hsaved).
  destruct op as [req|req]; cbn [saved target] in *.
  - unfold share_and_save, bind in *.
    destruct (User_findOne (sh_email req) w) as [[[u|]|e] w1] eqn:Hu;
      [|cbn in Hsaved; discriminate..].
    apply User_findOne_ok in Hu as [Hu Hfound].
    destruct (ResearchReport_findById (sh_reportId req) w1) as [[[r|]|e] w2] eqn:Hr;
      [|cbn in Hsaved; discriminate..].
    apply findById_ok in Hr as [Hdb Hr].
    unfold lift in *.
    destruct (some_shared (u_id u) (sharedWith r)) as [[]|e] eqn:Hs;
      [cbn in Hsaved; discriminate| |cbn in Hsaved; discriminate].
    match goal with |- context [save ?stamp ?r' w2] =>
      destruct (save stamp r' w2) as [[[]|e] w3] eqn:Hsave;
        [|cbn in Hsaved; discriminate];
      apply save_ok in Hsave; cbn [_id with_shares] in Hsave end.
    cbn [fst snd].
    assert (Hid : _id r = cast_id (sh_reportId req)).
    { symmetry in Hr. unfold stored, find_report in Hr. by apply find_by_id in Hr. }
    rewrite Hid in Hsave.
    eexists r, _. split.
    { unfold stored in *. by rewrite <- Hu. }
    split; [exact Hsave|]. cbn [isShared sharedWith with_shares restamp with_updatedAt].
    split.
    { rewrite bool_decide_eq_false_2; [done|]. by destruct (sharedWith r). }
    exists u. split; [done|]. split; [reflexivity|]. split; [|reflexivity].
    by apply some_shared_false.
  - unfold unshare_and_save, bind in *.
    destruct (ResearchReport_findById (un_reportId req) w) as [[[r|]|e] w1] eqn:Hr;
      [|cbn in Hsaved; discriminate..].
    apply findById_ok in Hr as [Hdb Hr].
    unfold lift in *.
    destruct (without_user (un_userId req) (sharedWith r)) as [kept|e] eqn:Hk;
      [|cbn in Hsaved; discriminate].
    match goal with |- context [save ?stamp ?r' w1] =>
      destruct (save stamp r' w1) as [[[]|e] w2] eqn:Hsave;
        [|cbn in Hsaved; discriminate];
      apply save_ok in Hsave; cbn [_id with_shares] in Hsave end.
    cbn [fst snd].
    assert (Hid : _id r = cast_id (un_reportId req)).
    { symmetry in Hr. unfold stored, find_report in Hr. by apply find_by_id in Hr. }
    rewrite Hid in Hsave.
    eexists r, _. split; [by rewrite Hr|].
    split; [exact Hsave|].
    destruct (restamp_sharing (un_stamp req)
                (with_shares r (negb (bool_decide (kept = []))) kept)) as [-> ->].
    cbn [isShared sharedWith with_shares].
    split; [reflexivity|].
    split; [by apply without_user_filter|].
    intros ->. reflexivity.
Qed.

(** Sharing the sample report with a second user, the id and the address
    written otherwise than they are stored; and taking the first user's
    access away, which leaves the report unshared.  Both requests end
    without a response. *)
Lemma sharing_witness :
  (saved (Share share_with_bob) world1
   /\ (perform (Share share_with_bob) world1).1 = Rejected "TypeError"
   /\ exists before after,
        stored (target (Share share_with_bob)) world1 = Some before
        /\ stored (target (Share share_with_bob))
             (perform (Share share_with_bob) world1).2 = Some after
        /\ isShared after = negb (bool_decide (sharedWith after = []))
        /\ exists u,
             user_by_email (sh_email share_with_bob) (db world1) = Some u
             /\ sharedWith after =
                  (sharedWith before
                   ++ [ {| s_userId := Some (u_id u);
                           permission :=
                             Some (default "view" (sh_permission share_with_bob)) |} ])%list
             /\ (forall s, s ∈ sharedWith before -> entry_of (u_id u) s = false)
             /\ isShared after = true)
  /\ (saved (Unshare unshare_alice) world1
      /\ (perform (Unshare unshare_alice) world1).1 = Rejected "TypeError"
      /\ exists before after,
           stored (target (Unshare unshare_alice)) world1 = Some before
           /\ stored (target (Unshare unshare_alice))
                (perform (Unshare unshare_alice) world1).2 = Some after
           /\ isShared after = negb (bool_decide (sharedWith after = []))
           /\ sharedWith after =
                List.filter (fun s => negb (entry_of (un_userId unshare_alice) s))
                  (sharedWith before)
           /\ (sharedWith after = [] -> isShared after = false))
  /\ sharedWith <$> stored (target (Unshare unshare_alice))
                      (perform (Unshare unshare_alice) world1).2 = Some []
  /\ isShared <$> stored (target (Unshare unshare_alice))
                    (perform (Unshare unshare_alice) world1).2 = Some false.
Proof.
  split; [split; [reflexivity|]; split; [reflexivity|];
          exact (sharing_keeps_isShared_in_step (Share share_with_bob) world1 eq_refl)|].
  split; [split; [reflexivity|]; split; [reflexivity|];
          exact (sharing_keeps_isShared_in_step (Unshare unshare_alice) world1 eq_refl)|].
  split; reflexivity.
Defined.

End ArchiveFacts.

(** ** Response validation *)

Module SchemaFacts.
Import Json Zod Schemas.

Lemma parse_object (shape : list (string * schema)) (j : json) (r : option json) :
  parse (z_object shape) (Some j) = Some r ->
  exists fields out,
    j = JObj fields /\ r = Some (JObj out)
    /\ parse_keys (fun sk x => parse sk x) fields shape = Some out.
Proof.
  cbn [parse]. destruct j as [| | | | |fields]; try discriminate.
  destruct (parse_keys _ fields shape) as [out|] eqn:Hk; [|discriminate].
  intros [= <-]. eauto.
Qed.

(** Every key of the shape was parsed, from the property of that name. *)
Lemma parse_keys_field {S : Type} (p : S -> option json -> option (option json))
    (fields : list (string * json)) (shape : list (string * S))
    (out : list (string * json)) (k : string) (sk : S) :
  parse_keys p fields shape = Some out ->
  In (k, sk) shape ->
  exists r, p sk (get k fields) = Some r.
Proof.
  revert out. induction shape as [|[k0 s0] rest IH]; intros out Hp Hin; [done|].
  cbn in Hp.
  destruct (p s0 (get k0 fields)) as [r0|] eqn:H0; [|discriminate].
  destruct (parse_keys p fields rest) as [out'|] eqn:Hrest;
    [|by destruct r0].
  destruct Hin as [[= -> ->]|Hin]; [eauto | by eapply IH].
Qed.

(** The parsed object has no key outside the shape. *)
Lemma parse_keys_strips {S : Type} (p : S -> option json -> option (option json))
    (fields : list (string * json)) (shape : list (string * S))
    (out : list (string * json)) (k : string) :
  parse_keys p fields shape = Some out ->
  existsb (fun e => String.eqb k e.1) shape = false ->
  get k out = None.
Proof.
  revert out. induction shape as [|[k0 s0] rest IH]; intros out Hp Hk.
  - cbn in Hp. by injection Hp as <-.
  - cbn in Hp, Hk. apply orb_false_iff in Hk as [Hk0 Hk].
    destruct (p s0 (get k0 fields)) as [r0|]; [|discriminate].
    destruct (parse_keys p fields rest) as [out'|]; [|by destruct r0].
    specialize (IH out' eq_refl Hk).
    destruct r0 as [y|]; injection Hp as <-; [|done].
    cbn. by rewrite Hk0.
Qed.

Lemma parse_string (v : option json) (r : option json) :
  parse z_string v = Some r -> exists s, v = Some (JStr s).
Proof. cbn. destruct v as [[]|]; try discriminate. eauto. Qed.

Lemma parse_array (item : schema) (v : option json) (r : option json) :
  parse (z_array item) v = Some r -> exists xs, v = Some (JArr xs).
Proof. cbn [parse]. destruct v as [[]|]; try discriminate. eauto. Qed.

Lemma parse_items_each (p : option json -> option (option json))
    (xs ys : list json) (x : json) :
  parse_items p xs = Some ys -> x ∈ xs -> exists y, p (Some x) = Some (Some y).
Proof.
  revert ys. induction xs as [|a xs IH]; intros ys Hp Hin.
  - by apply elem_of_nil in Hin.
  - cbn in Hp. destruct (p (Some a)) as [[y|]|] eqn:Ha; try discriminate.
    destruct (parse_items p xs) as [ys'|] eqn:Hrest; [|discriminate].
    apply elem_of_cons in Hin as [->|Hin]; [eauto | by eapply IH].
Qed.

Lemma parse_array_items (item : schema) (xs : list json) (r : option json) :
  parse (z_array item) (Some (JArr xs)) = Some r ->
  forall x, x ∈ xs -> accepts item x = true.
Proof.
  cbn [parse]. destruct (parse_items (parse item) xs) as [ys|] eqn:Hp; [|discriminate].
  intros _ x Hx. unfold accepts.
  by destruct (parse_items_each _ _ _ x Hp Hx) as [y ->].
Qed.

(** The validator is lenient: what the schema refuses comes back as it is. *)
Lemma validateAnalysisResponse_lenient (j : json) :
  accepts AnalysisResponseSchema j = false -> validateAnalysisResponse j = j.
Proof.
  unfold accepts, validateAnalysisResponse.
  by destruct (parse AnalysisResponseSchema (Some j)).
Qed.

(** The grounded shape of the Phase 1 plan is refused by the schema, so the
    validator hands it on untouched. *)
Example grounded_response_passes_through :
  accepts AnalysisResponseSchema grounded_response = false
  /\ validateAnalysisResponse grounded_response = grounded_response.
Proof. split; reflexivity. Qed.

(** C7, as amended.  A response the analysis schema accepts is an object
    with a string [request_id], a string [molecule] and an
    [agents_executed] array.  Neither [results] nor [summary] is asked
    for, and the validated value has neither, since keys outside the
    shape are stripped.  The agent results sit under optional keys of
    their own: a [clinical] block, when present, satisfies the clinical
    schema, and its validated value has none of the grounding fields. *)
Theorem AnalysisResponseSchema_accepted_shape (j : json) :
  accepts AnalysisResponseSchema j = true ->
  (exists rid mol agents,
     prop "request_id" j = Some (JStr rid)
     /\ prop "molecule" j = Some (JStr mol)
     /\ prop "agents_executed" j = Some (JArr agents)
     /\ forall a, a ∈ agents -> accepts AgentExecutedSchema a = true)
  /\ has_key "results" (validateAnalysisResponse j) = false
  /\ has_key "summary" (validateAnalysisResponse j) = false
  /\ forall c, prop "clinical" j = Some c ->
       accepts ClinicalResponseSchema c = true
       /\ forall c', parse ClinicalResponseSchema (Some c) = Some (Some c') ->
            forallb (fun f => negb (has_key f c')) grounding_fields = true.
Proof.
  unfold accepts at 1, validateAnalysisResponse.
  destruct (parse AnalysisResponseSchema (Some j)) as [r|] eqn:Hp; [|discriminate].
  intros _.
  apply parse_object in Hp as (fields & out & -> & -> & Hk).
  assert (Hfield : forall k sk, In (k, sk) AnalysisResponseShape ->
            exists r, parse sk (get k fields) = Some r).
  { intros k sk Hin. exact (parse_keys_field _ _ _ _ k sk Hk Hin). }
  split.
  { destruct (Hfield "request_id" z_string) as [r1 H1]; [cbn; tauto|].
    destruct (Hfield "molecule" z_string) as [r2 H2]; [cbn; tauto|].
    destruct (Hfield "agents_executed" (z_array AgentExecutedSchema)) as [r3 H3];
      [cbn; tauto|].
    apply parse_string in H1 as [rid H1].
    apply parse_string in H2 as [mol H2].
    destruct (parse_array _ _ _ H3) as [agents Hagents].
    exists rid, mol, agents. cbn [prop]. repeat split; [done..|].
    rewrite Hagents in H3. intros a Ha.
    exact (parse_array_items _ _ _ H3 a Ha). }
  split.
  { unfold has_key. cbn [prop].
    by rewrite (parse_keys_strips _ _ _ _ "results" Hk eq_refl). }
  split.
  { unfold has_key. cbn [prop].
    by rewrite (parse_keys_strips _ _ _ _ "summary" Hk eq_refl). }
  intros c Hc. cbn [prop] in Hc.
  destruct (Hfield "clinical" (opt ClinicalResponseSchema)) as [r Hr]; [cbn; tauto|].
  rewrite Hc in Hr. unfold opt in Hr. cbn [parse] in Hr.
  split.
  { unfold accepts.
    change (parse (z_object ?s) (Some c)) with (parse ClinicalResponseSchema (Some c)) in Hr.
    by rewrite Hr. }
  intros c' Hc'.
  apply parse_object in Hc' as (cf & cout & -> & [= ->] & Hck).
  unfold grounding_fields, has_key. cbn [forallb prop].
  rewrite (parse_keys_strips _ _ _ _ "evidence" Hck eq_refl).
  rewrite (parse_keys_strips _ _ _ _ "claims" Hck eq_refl).
  rewrite (parse_keys_strips _ _ _ _ "verification_summary" Hck eq_refl).
  rewrite (parse_keys_strips _ _ _ _ "freshness_summary" Hck eq_refl).
  rewrite (parse_keys_strips _ _ _ _ "abstained" Hck eq_refl).
  by rewrite (parse_keys_strips _ _ _ _ "abstain_reason" Hck eq_refl).
Qed.

(** The legacy response is accepted, and so shows the shape at work. *)
Lemma AnalysisResponseSchema_witness :
  accepts AnalysisResponseSchema legacy_response = true
  /\ (exists rid mol agents,
        prop "request_id" legacy_response = Some (JStr rid)
        /\ prop "molecule" legacy_response = Some (JStr mol)
        /\ prop "agents_executed" legacy_response = Some (JArr agents)
        /\ forall a, a ∈ agents -> accepts AgentExecutedSchema a = true)
  /\ has_key "results" (validateAnalysisResponse legacy_response) = false
  /\ has_key "summary" (validateAnalysisResponse legacy_response) = false
  /\ forall c, prop "clinical" legacy_response = Some c ->
       accepts ClinicalResponseSchema c = true
       /\ forall c', parse ClinicalResponseSchema (Some c) = Some (Some c') ->
            forallb (fun f => negb (has_key f c')) grounding_fields = true.
Proof.
  split; [reflexivity|].
  exact (AnalysisResponseSchema_accepted_shape legacy_response eq_refl).
Defined.

(** The claim as first stated fails: the schema accepts a response that
    has no [results] map and no [summary], and whose one agent result
    carries none of the grounding fields. *)
Lemma accepted_response_need_not_be_grounded :
  ~ (forall j, accepts AnalysisResponseSchema j = true ->
               grounded_top_level j = true).
Proof.
  intros Hall. specialize (Hall legacy_response eq_refl).
  vm_compute in Hall. discriminate.
Qed.

End SchemaFacts.

(** ** The evidence pipeline *)

Module PipelineFacts.
Import Pipeline.

Section Aggregation.
Context `{Oracles}.

(** *** Order independence of the list traversals *)

Lemma existsb_pointwise {A : Type} (f f' : A -> bool) (l : list A) :
  (forall x, f x = f' x) -> existsb f l = existsb f' l.
Proof. intros Hf. induction l as [|x l IH]; cbn; [done|]. by rewrite Hf, IH. Qed.

Lemma forallb_pointwise {A : Type} (f f' : A -> bool) (l : list A) :
  (forall x, f x = f' x) -> forallb f l = forallb f' l.
Proof. intros Hf. induction l as [|x l IH]; cbn; [done|]. by rewrite Hf, IH. Qed.

Lemma existsb_perm {A : Type} (f f' : A -> bool) (l l' : list A) :
  l ≡ₚ l' -> (forall x, f x = f' x) -> existsb f l = existsb f' l'.
Proof.
  intros Hp Hf. rewrite (existsb_pointwise f f' l Hf).
  induction Hp as [|x l l' _ IH|x y l|l l' l'' _ IH1 _ IH2]; cbn.
  - reflexivity.
  - by rewrite IH.
  - destruct (f' x), (f' y); reflexivity.
  - by rewrite IH1.
Qed.

Lemma forallb_perm {A : Type} (f f' : A -> bool) (l l' : list A) :
  l ≡ₚ l' -> (forall x, f x = f' x) -> forallb f l = forallb f' l'.
Proof.
  intros Hp Hf. rewrite (forallb_pointwise f f' l Hf).
  induction Hp as [|x l l' _ IH|x y l|l l' l'' _ IH1 _ IH2]; cbn.
  - reflexivity.
  - by rewrite IH.
  - destruct (f' x), (f' y); reflexivity.
  - by rewrite IH1.
Qed.

Lemma filter_perm {A : Type} (f f' : A -> bool) (l l' : list A) :
  l ≡ₚ l' -> (forall x, f x = f' x) -> List.filter f l ≡ₚ List.filter f' l'.
Proof.
  intros Hp Hf. rewrite (filter_ext f f' Hf l).
  induction Hp as [|x l l' _ IH|x y l|l l' l'' _ IH1 _ IH2]; cbn.
  - reflexivity.
  - destruct (f' x); by rewrite IH.
  - destruct (f' x), (f' y); try reflexivity. apply perm_swap.
  - by rewrite IH1.
Qed.

Lemma top_rank_perm (l l' : list EvidenceRecord) :
  l ≡ₚ l' -> top_rank l = top_rank l'.
Proof.
  unfold top_rank.
  induction 1 as [|x l l' _ IH|x y l|l l' l'' _ IH1 _ IH2]; cbn; lia.
Qed.

Lemma total_confidence_perm (l l' : list EvidenceRecord) :
  l ≡ₚ l' -> (total_confidence l == total_confidence l')%Q.
Proof.
  unfold total_confidence.
  induction 1 as [|x l l' _ IH|x y l|l l' l'' _ IH1 _ IH2]; cbn.
  - reflexivity.
  - by rewrite IH.
  - ring.
  - by rewrite IH1.
Qed.

(** *** The Conflict Detector does not look at the order of a group *)

Lemma camp_perm (g g' : list EvidenceRecord) (r : EvidenceRecord) :
  g ≡ₚ g' -> camp g r ≡ₚ camp g' r.
Proof. intros Hp. by apply filter_perm. Qed.

Lemma tie_break_perm (g g' : list EvidenceRecord) (a b : EvidenceRecord) :
  g ≡ₚ g' -> tie_break g a b = tie_break g' a b.
Proof.
  intros Hp. unfold tie_break.
  rewrite (top_rank_perm _ _ (camp_perm g g' a Hp)).
  rewrite (top_rank_perm _ _ (camp_perm g g' b Hp)).
  rewrite (total_confidence_perm _ _ (camp_perm g g' a Hp)).
  by rewrite (total_confidence_perm _ _ (camp_perm g g' b Hp)).
Qed.

Lemma unresolved_perm (g g' : list EvidenceRecord) :
  g ≡ₚ g' -> unresolved g = unresolved g'.
Proof.
  intros Hp. unfold unresolved.
  apply existsb_perm; [done|]. intros a.
  apply existsb_perm; [done|]. intros b.
  by rewrite (tie_break_perm g g' a b Hp).
Qed.

Lemma prevailing_perm (g g' : list EvidenceRecord) :
  g ≡ₚ g' -> prevailing g ≡ₚ prevailing g'.
Proof.
  intros Hp. unfold prevailing.
  apply filter_perm; [done|]. intros a.
  apply forallb_perm; [done|]. intros b.
  by rewrite (tie_break_perm g g' a b Hp).
Qed.

Lemma corroborated_perm (w w' : list EvidenceRecord) :
  w ≡ₚ w' -> corroborated w = corroborated w'.
Proof.
  intros Hp. unfold corroborated.
  apply existsb_perm; [done|]. intros a.
  by apply existsb_perm.
Qed.

(** *** The Aggregator does not either *)

Lemma derive_status_perm (g g' : list EvidenceRecord) :
  g ≡ₚ g' -> derive_status g = derive_status g'.
Proof.
  intros Hp. unfold derive_status.
  rewrite (unresolved_perm g g' Hp).
  rewrite (corroborated_perm _ _ (prevailing_perm g g' Hp)).
  rewrite (existsb_perm trusted trusted _ _ (prevailing_perm g g' Hp)) by done.
  destruct g as [|x g], g' as [|x' g']; try reflexivity.
  by apply Permutation_nil_cons in Hp.
Qed.

Lemma group_perm (l l' : list EvidenceRecord) (id : string) :
  l ≡ₚ l' -> group l id ≡ₚ group l' id.
Proof. intros Hp. by apply filter_perm. Qed.

Lemma claim_ids_perm (l l' : list EvidenceRecord) :
  l ≡ₚ l' -> claim_ids l ≡ₚ claim_ids l'.
Proof.
  intros Hp. unfold claim_ids.
  apply NoDup_Permutation; [apply NoDup_remove_dups..|].
  intros id. rewrite !elem_of_remove_dups. by rewrite Hp.
Qed.

(** The count of a status is a count over the claim ids. *)
Lemma count_status_ids (s : verification_status) (l : list EvidenceRecord) :
  count_status s (aggregate l) =
    length (List.filter (fun id => status_eqb (derive_status (group l id)) s)
              (claim_ids l)).
Proof.
  unfold count_status, aggregate.
  induction (claim_ids l) as [|id ids IH]; cbn; [reflexivity|].
  destruct (status_eqb (derive_status (group l id)) s); cbn; by rewrite IH.
Qed.

Lemma count_status_perm (s : verification_status) (l l' : list EvidenceRecord) :
  l ≡ₚ l' -> count_status s (aggregate l) = count_status s (aggregate l').
Proof.
  intros Hp. rewrite !count_status_ids.
  apply Permutation_length, filter_perm; [by apply claim_ids_perm|].
  intros id. by rewrite (derive_status_perm _ _ (group_perm l l' id Hp)).
Qed.

(** The Normalizer and the Scorer work hit by hit, so a permutation of
    the raw hits is a permutation of the evidence. *)
Lemma evidence_perm (now : Z) (hits hits' : list raw_hit) :
  hits ≡ₚ hits' -> score now <$> normalize hits ≡ₚ score now <$> normalize hits'.
Proof. intros Hp. unfold normalize. by rewrite Hp. Qed.

(** C5.  The Verification Aggregator gives a permuted evidence list the
    summary it gives the list itself: the four counts are the same. *)
Theorem verification_permutation_invariant (l l' : list EvidenceRecord) :
  l ≡ₚ l' ->
  verification l = verification l'
  /\ verified_count (verification l) = verified_count (verification l')
  /\ partial_count (verification l) = partial_count (verification l')
  /\ unverified_count (verification l) = unverified_count (verification l')
  /\ conflicting_count (verification l) = conflicting_count (verification l').
Proof.
  intros Hp.
  assert (Heq : verification l = verification l').
  { unfold verification, summarize.
    by rewrite !(count_status_perm _ l l' Hp). }
  by rewrite Heq.
Qed.

Lemma run_verification_summary (q : Query) (now : Z) (hits : list raw_hit) :
  verification_summary (result (run q now hits))
  = verification (score now <$> normalize hits).
Proof.
  unfold run. cbv zeta.
  by destruct (abstention q _ _); cbn.
Qed.

(** The same holds of whole runs: permuting the raw hits leaves the
    verification summary of the result as it was. *)
Corollary run_summary_permutation (q : Query) (now : Z) (hits hits' : list raw_hit) :
  hits ≡ₚ hits' ->
  verification_summary (result (run q now hits))
  = verification_summary (result (run q now hits')).
Proof.
  intros Hp. rewrite !run_verification_summary.
  pose proof (evidence_perm now hits hits' Hp) as He.
  unfold verification, summarize.
  by rewrite !(count_status_perm _ _ _ He).
Qed.

End Aggregation.

Section Abstention.
Context `{Oracles}.

(** [List.find] returns the first element that satisfies the test. *)
Lemma find_first {A : Type} (f : A -> bool) (l : list A) (x : A) :
  List.find f l = Some x <->
  exists i, l !! i = Some x /\ f x = true
            /\ forall j y, (j < i)%nat -> l !! j = Some y -> f y = false.
Proof.
  induction l as [|a l IH]; cbn.
  - split; [discriminate|]. by intros (i & Hi & _).
  - destruct (f a) eqn:Ha.
    + split.
      * intros [= <-]. exists 0%nat. repeat split; [done|]. intros j y Hj. lia.
      * intros ([|i] & Hi & Hx & Hfirst); [by injection Hi as <-|].
        specialize (Hfirst 0%nat a). cbn in Hfirst.
        rewrite Hfirst in Ha; [discriminate | lia | done].
    + rewrite IH. split.
      * intros (i & Hi & Hx & Hfirst). exists (S i). repeat split; [done..|].
        intros [|j] y Hj Hy; [by injection Hy as <- | apply (Hfirst j); [lia|done]].
      * intros ([|i] & Hi & Hx & Hfirst).
        { injection Hi as <-. congruence. }
        exists i. repeat split; [done..|].
        intros j y Hj Hy. apply (Hfirst (S j)); [lia | done].
Qed.

Lemma reason_text_enumerated (r : reason) : reason_text r ∈ enumerated_reasons.
Proof.
  unfold enumerated_reasons. destruct r; cbn; rewrite !elem_of_cons; tauto.
Qed.

(** C2.  A run whose evidence is empty (no hit at all, or none that
    survives normalization) abstains with the reason "no evidence
    retrieved".  The engine's rules stand in a fixed order, its answer is
    the reason of the first rule that holds, and a reason a result carries
    is always one of the four enumerated strings. *)
Theorem abstention_policy (q : Query) (now : Z) (hits : list raw_hit) :
  let out := result (run q now hits) in
  (normalize hits = [] ->
     abstained out = true /\ abstain_reason out = Some "no evidence retrieved")
  /\ (forall s, abstain_reason out = Some s ->
        abstained out = true /\ s ∈ enumerated_reasons)
  /\ forall ev cs,
       snd <$> rules q ev cs =
         [ no_evidence; insufficient_trust; conflicting_evidence; evidence_stale ]
       /\ forall r,
            abstention q ev cs = Some r <->
            exists i, rules q ev cs !! i = Some (true, r)
                      /\ forall j b r', (j < i)%nat ->
                            rules q ev cs !! j = Some (b, r') -> b = false.
Proof.
  cbn zeta. split; [|split].
  - intros Hempty. unfold run. cbv zeta. rewrite Hempty. cbn. by split.
  - intros s. unfold run. cbv zeta.
    destruct (abstention q _ _) as [r|]; cbn.
    + intros [= <-]. split; [done | apply reason_text_enumerated].
    + discriminate.
  - intros ev cs. split; [reflexivity|]. intros r. unfold abstention.
    rewrite fmap_Some. split.
    + intros ([b r0] & Hfind & ->). apply find_first in Hfind as (i & Hi & Hb & Hfirst).
      cbn in Hb. subst b. exists i. split; [done|].
      intros j b r' Hj Hl. exact (Hfirst j (b, r') Hj Hl).
    + intros (i & Hi & Hfirst). exists (true, r). split; [|done].
      apply find_first. exists i. repeat split; [done..|].
      intros j [b r'] Hj Hl. exact (Hfirst j b r' Hj Hl).
Qed.

End Abstention.

Section Gate.
Context `{Oracles}.

Lemma aggregate_ids (l : list EvidenceRecord) : c_id <$> aggregate l = claim_ids l.
Proof.
  unfold aggregate. rewrite <- list_fmap_compose.
  induction (claim_ids l) as [|id ids IH]; cbn; [done|]. by rewrite IH.
Qed.

(** A claim table without repeated ids resolves each id to its claim. *)
Lemma lookup_claim_unique (cs : list Claim) (c : Claim) :
  NoDup (c_id <$> cs) -> c ∈ cs -> lookup_claim cs (c_id c) = Some c.
Proof.
  unfold lookup_claim. induction cs as [|x cs IH]; cbn; intros Hnd Hin.
  - by apply elem_of_nil in Hin.
  - apply NoDup_cons in Hnd as [Hx Hnd].
    destruct (String.eqb (c_id x) (c_id c)) eqn:Heq.
    + apply String.eqb_eq in Heq.
      apply elem_of_cons in Hin as [->|Hin]; [done|].
      exfalso. apply Hx. rewrite Heq. by apply list_elem_of_fmap_2.
    + apply elem_of_cons in Hin as [->|Hin]; [|by apply IH].
      by rewrite String.eqb_refl in Heq.
Qed.

Lemma judge_final (cs : list Claim) (p : Prompt) (s : string) :
  judge cs p s = if well_cited cs p s then accepted else rejected.
Proof. unfold judge, gate_step. by destruct (well_cited cs p s). Qed.

Lemma accepted_well_cited (cs : list Claim) (p : Prompt) (narrative s : string) :
  s ∈ accepted_sentences cs p narrative <->
  s ∈ split_sentences narrative /\ well_cited cs p s = true.
Proof.
  unfold accepted_sentences. rewrite list_elem_of_In, filter_In, <- list_elem_of_In.
  rewrite judge_final. by destruct (well_cited cs p s).
Qed.

Lemma well_cited_resolves (cs : list Claim) (p : Prompt) (s id : string) :
  well_cited cs p s = true -> id ∈ cited_ids s ->
  exists c, lookup_claim cs id = Some c
            /\ eligible (c_status c) = true /\ id ∈ prompt_ids p.
Proof.
  unfold well_cited. intros Hw Hid.
  destruct (cited_ids s) as [|i ids] eqn:Hc; [discriminate|].
  rewrite forallb_forall in Hw. apply list_elem_of_In in Hid.
  specialize (Hw id Hid). unfold resolves in Hw.
  destruct (lookup_claim cs id) as [c|]; [|discriminate].
  apply andb_true_iff in Hw as [He Hp]. exists c. repeat split; [done|].
  apply existsb_exists in Hp as (k & Hk & Heq).
  apply String.eqb_eq in Heq as ->. by apply list_elem_of_In.
Qed.

(** C1.  In every final summary of the pipeline, no claim whose status is
    unverified or conflicting is among the supported claim ids.  The gate
    accepts a sentence only if it cites an id and every id it cites
    resolves to a verified or partially verified Claim that was included
    in the prompt; the text is made of the accepted sentences alone, so
    every other sentence is dropped. *)
Theorem truth_gate_supports_only_eligible (q : Query) (now : Z) (hits : list raw_hit) :
  let out := run q now hits in
  let cs := claims (result out) in
  (forall c, c ∈ cs ->
     c_status c = unverified \/ c_status c = conflicting ->
     c_id c ∉ supported_claim_ids (summary out))
  /\ (forall p narrative s,
        s ∈ accepted_sentences cs p narrative ->
        s ∈ split_sentences narrative
        /\ cited_ids s <> []
        /\ forall id, id ∈ cited_ids s ->
             exists c, lookup_claim cs id = Some c
                       /\ (c_status c = verified \/ c_status c = partially_verified)
                       /\ id ∈ prompt_ids p)
  /\ (forall p narrative,
        text (truth_gate cs p narrative).1
          = concat_all (accepted_sentences cs p narrative)
        /\ forall s, judge cs p s = rejected ->
             s ∉ accepted_sentences cs p narrative).
Proof.
  cbn zeta.
  set (ev := score now <$> normalize hits).
  assert (Hcs : claims (result (run q now hits)) = aggregate ev).
  { unfold run. cbv zeta. fold ev. destruct (abstention q ev (aggregate ev)); [done|].
    by destruct (truth_gate _ _ _). }
  rewrite Hcs. clear Hcs.
  assert (Hres : forall p narrative s id,
            s ∈ accepted_sentences (aggregate ev) p narrative ->
            id ∈ cited_ids s ->
            exists c, lookup_claim (aggregate ev) id = Some c
                      /\ (c_status c = verified \/ c_status c = partially_verified)
                      /\ id ∈ prompt_ids p).
  { intros p narrative s id Hs Hid. apply accepted_well_cited in Hs as [_ Hw].
    destruct (well_cited_resolves _ _ _ _ Hw Hid) as (c & Hl & He & Hp).
    exists c. repeat split; [done| |done].
    destruct (c_status c); cbn in He; auto; discriminate. }
  split; [|split].
  - intros c Hc Hbad Hin. unfold run in Hin. cbv zeta in Hin. fold ev in Hin.
    destruct (abstention q ev (aggregate ev)); cbn in Hin;
      [by apply elem_of_nil in Hin|].
    unfold truth_gate in Hin. cbn in Hin.
    apply elem_of_remove_dups, list_elem_of_bind in Hin as (s & Hid & Hs).
    destruct (Hres _ _ _ _ Hs Hid) as (c' & Hl & He & _).
    rewrite lookup_claim_unique in Hl; [|by rewrite aggregate_ids; apply NoDup_remove_dups|done].
    injection Hl as <-. destruct Hbad as [Hb|Hb], He as [He|He]; congruence.
  - intros p narrative s Hs. pose proof Hs as Hs'.
    apply accepted_well_cited in Hs' as [Hin Hw].
    split; [done|]. split.
    + unfold well_cited in Hw. by destruct (cited_ids s).
    + intros id Hid. by eapply Hres.
  - intros p narrative. split; [reflexivity|].
    intros s Hrej Hin. apply accepted_well_cited in Hin as [_ Hw].
    rewrite judge_final, Hw in Hrej. discriminate.
Qed.

End Gate.

(** The evidence of the examples and the same evidence in reverse order. *)
Lemma verification_permutation_witness :
  demo_evidence ≡ₚ reverse demo_evidence
  /\ @verification demo demo_evidence = @verification demo (reverse demo_evidence)
  /\ verified_count (@verification demo demo_evidence)
       = verified_count (@verification demo (reverse demo_evidence))
  /\ partial_count (@verification demo demo_evidence)
       = partial_count (@verification demo (reverse demo_evidence))
  /\ unverified_count (@verification demo demo_evidence)
       = unverified_count (@verification demo (reverse demo_evidence))
  /\ conflicting_count (@verification demo demo_evidence)
       = conflicting_count (@verification demo (reverse demo_evidence)).
Proof.
  assert (Hp : demo_evidence ≡ₚ reverse demo_evidence)
    by (symmetry; apply reverse_Permutation).
  split; [exact Hp|].
  exact (@verification_permutation_invariant demo _ _ Hp).
Defined.

(** A run whose only hit is dropped by the Normalizer. *)
Lemma abstention_witness :
  @normalize demo [malformed_hit] = []
  /\ abstained (result (@run demo factual_query 0 [malformed_hit])) = true
  /\ abstain_reason (result (@run demo factual_query 0 [malformed_hit]))
       = Some "no evidence retrieved".
Proof.
  split; [reflexivity|].
  exact (proj1 (@abstention_policy demo factual_query 0 [malformed_hit]) eq_refl).
Defined.

(** *** The scenarios of section 8, run on the model *)

Example scenario_stale_realtime_claim :
  let r := result (@run demo realtime_query demo_now
                     [hit "c1" "PubMed" "yes (trial A)" (days_ago 30)]) in
  abstained r = true /\ abstain_reason r = Some "evidence stale".
Proof. by vm_compute. Qed.

Example scenario_two_independent_peer_reviewed :
  c_status <$> claims (result (@run demo plain_query demo_now
     [ hit "c1" "PubMed" "yes (trial A)" (days_ago 1);
       hit "c1" "EuropePMC" "yes (trial B)" (days_ago 1) ]))
  = [verified].
Proof. by vm_compute. Qed.

Example scenario_official_wins_tie_break :
  c_status <$> claims (result (@run demo plain_query demo_now
     [ hit "c1" "FDA" "yes (label)" (days_ago 1);
       hit "c1" "PubMed" "no (trial)" (days_ago 1) ]))
  = [partially_verified].
Proof. by vm_compute. Qed.

Example scenario_unresolved_conflict :
  let r := result (@run demo factual_query demo_now
     [ hit "c1" "PubMed" "yes (trial A)" (days_ago 1);
       hit "c1" "EuropePMC" "no (trial B)" (days_ago 1) ]) in
  c_status <$> claims r = [conflicting]
  /\ abstained r = true /\ abstain_reason r = Some "conflicting evidence".
Proof. by vm_compute. Qed.

(** The generator of the examples adds a sentence citing an unknown
    claim; the gate drops it. *)
Example scenario_gate_drops_unsupported_sentence :
  summary (@run demo plain_query demo_now demo_hits)
  = {| text := "yes (trial A) [c1]."; supported_claim_ids := ["c1"] |}.
Proof. by vm_compute. Qed.

End PipelineFacts.

(** ** More on rate limiting *)

Module LimiterFacts.
Import Json RateLimiter Limiter.
Local Open Scope Z_scope.

(** Every limit the table or its fallback yields has a positive window
    and lets at least one request through. *)
Lemma limit_config_positive (limitType : string) :
  0 < windowMs (limit_config limitType) /\ 1 <= maxRequests (limit_config limitType).
Proof.
  unfold limit_config, RATE_LIMITS. cbn [own_property].
  repeat (destruct (String.eqb limitType _); [cbn; lia|]).
  cbn; lia.
Qed.

Lemma analysis_plain : plain_limit_type "analysis".
Proof.
  unfold plain_limit_type, Object_prototype_names.
  rewrite !not_elem_of_cons. repeat split; try discriminate.
  apply not_elem_of_nil.
Qed.

Lemma header_set (k : string) (v : header_value) (res : response) :
  headers (set_header k v res) !! k = Some v.
Proof. unfold set_header; cbn. apply lookup_insert_eq. Qed.

Lemma header_kept (k k' : string) (v : header_value) (res : response) :
  k <> k' -> headers (set_header k v res) !! k' = headers res !! k'.
Proof. intros Hne. unfold set_header; cbn. by apply lookup_insert_ne. Qed.

(** What one call does to the store and whether it passes the request on. *)
Lemma limiter_step (limitType : string) (req : request) (now : Z)
    (store : gmap string entry) (res : response) :
  (createRateLimiter limitType req now store res).1.1
    = <[store_key limitType req :=
          next_entry (limit_config limitType) now (store !! store_key limitType req)]> store
  /\ (createRateLimiter limitType req now store res).2
      = negb (maxRequests (limit_config limitType)
              <? requests (next_entry (limit_config limitType) now
                             (store !! store_key limitType req))).
Proof.
  unfold createRateLimiter, next_entry. cbn zeta. cbn [requests windowStart e_windowMs].
  by destruct (_ <? _).
Qed.

(** The answer depends on the store only through the window the client's
    request is counted in. *)
Lemma limiter_reads_window (limitType : string) (req : request) (now : Z)
    (store store' : gmap string entry) (res : response) :
  current_window (limit_config limitType) now (store !! store_key limitType req)
    = current_window (limit_config limitType) now (store' !! store_key limitType req) ->
  (createRateLimiter limitType req now store res).1.2
    = (createRateLimiter limitType req now store' res).1.2
  /\ (createRateLimiter limitType req now store res).2
      = (createRateLimiter limitType req now store' res).2
  /\ (createRateLimiter limitType req now store res).1.1 !! store_key limitType req
      = (createRateLimiter limitType req now store' res).1.1 !! store_key limitType req.
Proof.
  intros Heq.
  rewrite (proj1 (limiter_step limitType req now store res)).
  rewrite (proj1 (limiter_step limitType req now store' res)).
  rewrite !lookup_insert_eq. unfold next_entry.
  unfold createRateLimiter. cbn zeta. rewrite Heq.
  by destruct (_ <? _).
Qed.

Lemma limiter_reads_own_entry (limitType : string) (req : request) (now : Z)
    (store store' : gmap string entry) (res : response) :
  store !! store_key limitType req = store' !! store_key limitType req ->
  (createRateLimiter limitType req now store res).1.2
    = (createRateLimiter limitType req now store' res).1.2
  /\ (createRateLimiter limitType req now store res).2
      = (createRateLimiter limitType req now store' res).2.
Proof.
  intros Heq.
  destruct (limiter_reads_window limitType req now store store' res) as (? & ? & _);
    [by rewrite Heq | done].
Qed.

(** X1.  Requests counted under different keys do not interfere: taken in
    either order they get the same answers and leave the same store. *)
Theorem limiter_calls_commute
    (type1 type2 : string) (req1 req2 : request) (t1 t2 : Z)
    (store : gmap string entry) (res1 res2 : response) :
  store_key type1 req1 <> store_key type2 req2 ->
  let first1 := createRateLimiter type1 req1 t1 store res1 in
  let then2 := createRateLimiter type2 req2 t2 first1.1.1 res2 in
  let first2 := createRateLimiter type2 req2 t2 store res2 in
  let then1 := createRateLimiter type1 req1 t1 first2.1.1 res1 in
  then2.1.1 = then1.1.1
  /\ first1.1.2 = then1.1.2 /\ first1.2 = then1.2
  /\ first2.1.2 = then2.1.2 /\ first2.2 = then2.2.
Proof.
  intros Hne. cbn zeta.
  destruct (limiter_step type1 req1 t1 store res1) as [Hs1 _].
  destruct (limiter_step type2 req2 t2 store res2) as [Hs2 _].
  assert (H1 : (createRateLimiter type2 req2 t2 store res2).1.1
                 !! store_key type1 req1 = store !! store_key type1 req1).
  { rewrite Hs2. by apply lookup_insert_ne. }
  assert (H2 : (createRateLimiter type1 req1 t1 store res1).1.1
                 !! store_key type2 req2 = store !! store_key type2 req2).
  { rewrite Hs1. by apply lookup_insert_ne. }
  split.
  - rewrite (proj1 (limiter_step type2 req2 t2 _ res2)), H2, Hs1.
    rewrite (proj1 (limiter_step type1 req1 t1 _ res1)), H1, Hs2.
    by apply insert_insert_ne.
  - destruct (limiter_reads_own_entry type1 req1 t1 _ _ res1 (eq_sym H1)) as [-> ->].
    destruct (limiter_reads_own_entry type2 req2 t2 _ _ res2 (eq_sym H2)) as [-> ->].
    done.
Qed.

Lemma limiter_calls_commute_witness :
  store_key "analysis" busy_client <> store_key "analysis" (anonymous "10.0.0.9")
  /\ let first1 := createRateLimiter "analysis" busy_client 30000 busy_store fresh_response in
     let then2 := createRateLimiter "analysis" (anonymous "10.0.0.9") 31000 first1.1.1
                    fresh_response in
     let first2 := createRateLimiter "analysis" (anonymous "10.0.0.9") 31000 busy_store
                     fresh_response in
     let then1 := createRateLimiter "analysis" busy_client 30000 first2.1.1 fresh_response in
     then2.1.1 = then1.1.1
     /\ first1.1.2 = then1.1.2 /\ first1.2 = then1.2
     /\ first2.1.2 = then2.1.2 /\ first2.2 = then2.2.
Proof.
  assert (Hne : store_key "analysis" busy_client
                <> store_key "analysis" (anonymous "10.0.0.9"))
    by (intros Heq; vm_compute in Heq; discriminate).
  split; [exact Hne|].
  exact (limiter_calls_commute "analysis" "analysis" busy_client (anonymous "10.0.0.9")
           30000 31000 busy_store fresh_response fresh_response Hne).
Defined.

(** Inside a running window every request is counted on top of the last. *)
Lemma replay_in_window (limitType : string) (req : request) (times : list Z) :
  forall (store : gmap string entry) (e : entry),
    store !! store_key limitType req = Some e ->
    (forall t, t ∈ times -> t <= windowStart e + windowMs (limit_config limitType)) ->
    length (replay limitType req times store).1 = length times
    /\ forall i, (i < length times)%nat ->
         (replay limitType req times store).1 !! i
           = Some (requests e + Z.of_nat i + 1 <=? maxRequests (limit_config limitType)).
Proof.
  induction times as [|t later IH]; intros store e He Hin.
  - split; [done|]. cbn. lia.
  - cbn [replay].
    destruct (createRateLimiter limitType req t store fresh_response)
      as [[s1 r1] c1] eqn:Hc.
    destruct (limiter_step limitType req t store fresh_response) as [Hs Hcalled].
    rewrite Hc in Hs, Hcalled. cbn in Hs, Hcalled.
    assert (Hkeep : current_window (limit_config limitType) t (Some e) = e).
    { cbn. assert (t <= windowStart e + windowMs (limit_config limitType))
        by (apply Hin, list_elem_of_here).
      destruct (_ <? t) eqn:Hlt; [apply Z.ltb_lt in Hlt; lia | done]. }
    rewrite He in Hs, Hcalled. unfold next_entry in Hs, Hcalled.
    rewrite Hkeep in Hs, Hcalled. cbn [requests] in Hcalled.
    specialize (IH s1 {| windowStart := windowStart e; e_windowMs := e_windowMs e;
                         requests := requests e + 1 |}).
    destruct IH as [Hlen Hnth].
    { rewrite Hs. apply lookup_insert_eq. }
    { intros t' Ht'. cbn. by apply Hin, list_elem_of_further. }
    destruct (replay limitType req later s1) as [answers final].
    cbn [fst length] in *. split; [by rewrite Hlen|].
    intros [|i] Hi; cbn.
    + rewrite Hcalled. f_equal. rewrite Z.leb_antisym. f_equal. f_equal. lia.
    + rewrite Hnth by lia. cbn [requests]. do 2 f_equal. lia.
Qed.

(** X2.  Under a limit type that is a key of [RATE_LIMITS] or names
    nothing (not one of the names an object inherits, for which
    [RATE_LIMITS[limitType]] is no limit), a client whose window is new
    (no entry, or one that has run out) and who sends a burst of requests
    inside one window has exactly the first [maxRequests] of them passed
    on: the request number [i + 1] is passed on if and only if
    [i + 1 <= maxRequests]. *)
Theorem burst_passes_first_maxRequests
    (limitType : string) (req : request) (t0 : Z) (later : list Z)
    (store : gmap string entry) :
  plain_limit_type limitType ->
  (forall e, store !! store_key limitType req = Some e ->
             windowStart e + windowMs (limit_config limitType) < t0) ->
  (forall t, t ∈ later -> t <= t0 + windowMs (limit_config limitType)) ->
  length (replay limitType req (t0 :: later) store).1 = S (length later)
  /\ forall i, (i <= length later)%nat ->
       (replay limitType req (t0 :: later) store).1 !! i
         = Some (Z.of_nat i + 1 <=? maxRequests (limit_config limitType)).
Proof.
  intros _ Hnew Hin. cbn [replay].
  destruct (createRateLimiter limitType req t0 store fresh_response)
    as [[s1 r1] c1] eqn:Hc.
  destruct (limiter_step limitType req t0 store fresh_response) as [Hs Hcalled].
  rewrite Hc in Hs, Hcalled. cbn in Hs, Hcalled.
  assert (Hfresh : current_window (limit_config limitType) t0
                     (store !! store_key limitType req)
                   = {| windowStart := t0;
                        e_windowMs := windowMs (limit_config limitType);
                        requests := 0 |}).
  { destruct (store !! store_key limitType req) as [e|] eqn:He; cbn; [|done].
    specialize (Hnew e eq_refl). apply Z.ltb_lt in Hnew. by rewrite Hnew. }
  unfold next_entry in Hs, Hcalled. rewrite Hfresh in Hs, Hcalled.
  cbn [requests windowStart e_windowMs] in Hs, Hcalled.
  destruct (replay_in_window limitType req later s1
              {| windowStart := t0; e_windowMs := windowMs (limit_config limitType);
                 requests := 0 + 1 |}) as [Hlen Hnth].
  { rewrite Hs. apply lookup_insert_eq. }
  { exact Hin. }
  destruct (replay limitType req later s1) as [answers final].
  cbn [fst length] in *. split; [by rewrite Hlen|].
  intros [|i] Hi; cbn.
  - rewrite Hcalled. f_equal. by rewrite Z.leb_antisym.
  - rewrite Hnth by lia. cbn [requests]. do 2 f_equal. lia.
Qed.

(** Twelve analysis requests in twelve seconds from a new client. *)
Lemma burst_witness :
  plain_limit_type "analysis"
  /\ (forall e, (∅ : gmap string entry) !! store_key "analysis" (anonymous "10.0.0.9") = Some e ->
             windowStart e + windowMs (limit_config "analysis") < 0)
  /\ (forall t, t ∈ burst_times -> t <= 0 + windowMs (limit_config "analysis"))
  /\ length (replay "analysis" (anonymous "10.0.0.9") (0 :: burst_times) ∅).1
       = S (length burst_times)
  /\ forall i, (i <= length burst_times)%nat ->
       (replay "analysis" (anonymous "10.0.0.9") (0 :: burst_times) ∅).1 !! i
         = Some (Z.of_nat i + 1 <=? maxRequests (limit_config "analysis")).
Proof.
  assert (H1 : forall e,
            (∅ : gmap string entry) !! store_key "analysis" (anonymous "10.0.0.9") = Some e ->
            windowStart e + windowMs (limit_config "analysis") < 0)
    by (intros e He; rewrite lookup_empty in He; discriminate).
  assert (H2 : forall t, t ∈ burst_times -> t <= 0 + windowMs (limit_config "analysis")).
  { apply Forall_forall. unfold burst_times. repeat constructor; cbn; lia. }
  split; [exact analysis_plain|]. split; [exact H1|]. split; [exact H2|].
  exact (burst_passes_first_maxRequests "analysis" (anonymous "10.0.0.9") 0 burst_times
           ∅ analysis_plain H1 H2).
Defined.

(** X3.  The window boundary, under a limit type that is a key of
    [RATE_LIMITS] or names nothing (not one of the names an object
    inherits).  A stored window still counts at the very millisecond it
    ends: up to and including [windowStart + windowMs] the request is
    counted on top of the stored count, and passed on only if that stays
    within [maxRequests].  Strictly after it the client starts a new
    window with this request as its first, and is always passed on. *)
Theorem window_boundary
    (limitType : string) (req : request) (now : Z)
    (store : gmap string entry) (res : response) (e : entry) :
  plain_limit_type limitType ->
  store !! store_key limitType req = Some e ->
  let config := limit_config limitType in
  let after := createRateLimiter limitType req now store res in
  (now <= windowStart e + windowMs config ->
     after.2 = (requests e + 1 <=? maxRequests config)
     /\ after.1.1 !! store_key limitType req
        = Some {| windowStart := windowStart e; e_windowMs := e_windowMs e;
                  requests := requests e + 1 |})
  /\ (windowStart e + windowMs config < now ->
       after.2 = true
       /\ after.1.1 !! store_key limitType req
          = Some {| windowStart := now; e_windowMs := windowMs config;
                    requests := 1 |}).
Proof.
  intros _ He. cbn zeta.
  destruct (limiter_step limitType req now store res) as [-> ->].
  rewrite lookup_insert_eq, He. unfold next_entry. cbn [current_window].
  split; intros Hnow.
  - destruct (_ <? now) eqn:Hlt; [apply Z.ltb_lt in Hlt; lia|].
    split; [|done]. by rewrite Z.leb_antisym.
  - apply Z.ltb_lt in Hnow. rewrite Hnow. cbn [requests windowStart e_windowMs].
    split; [|done].
    destruct (limit_config_positive limitType) as [_ Hmax].
    apply negb_true_iff, Z.ltb_ge. lia.
Qed.

Lemma window_boundary_witness :
  plain_limit_type "analysis"
  /\ ({[ "analysis:user:u42" := full_entry ]} : gmap string entry)
    !! store_key "analysis" busy_client = Some full_entry
  /\ let config := limit_config "analysis" in
     let after := createRateLimiter "analysis" busy_client 61000
                    {[ "analysis:user:u42" := full_entry ]} fresh_response in
     (61000 <= windowStart full_entry + windowMs config ->
        after.2 = (requests full_entry + 1 <=? maxRequests config)
        /\ after.1.1 !! store_key "analysis" busy_client
           = Some {| windowStart := windowStart full_entry;
                     e_windowMs := e_windowMs full_entry;
                     requests := requests full_entry + 1 |})
     /\ (windowStart full_entry + windowMs config < 61000 ->
          after.2 = true
          /\ after.1.1 !! store_key "analysis" busy_client
             = Some {| windowStart := 61000; e_windowMs := windowMs config;
                       requests := 1 |}).
Proof.
  assert (He : ({[ "analysis:user:u42" := full_entry ]} : gmap string entry)
                 !! store_key "analysis" busy_client = Some full_entry)
    by reflexivity.
  split; [exact analysis_plain|]. split; [exact He|].
  exact (window_boundary "analysis" busy_client 61000 _ fresh_response full_entry
           analysis_plain He).
Defined.

(** X4.  [getRateLimitStatus] agrees with the headers: asked at the time
    of a request, for the client and limit type of that request, it
    reports the remaining count, the limit and the reset time that the
    middleware has just written into the response. *)
Theorem status_agrees_with_headers
    (limitType : string) (req : request) (now : Z)
    (store : gmap string entry) (res : response) :
  let after := createRateLimiter limitType req now store res in
  let st := getRateLimitStatus (getClientIdentifier req) limitType now after.1.1 in
  headers after.1.2 !! "X-RateLimit-Remaining" = Some (HNum (remaining st))
  /\ headers after.1.2 !! "X-RateLimit-Limit" = Some (HNum (limit st))
  /\ exists reset, resetTime st = Some reset
       /\ headers after.1.2 !! "X-RateLimit-Reset" = Some (HNum (ceil_div reset 1000)).
Proof.
  cbn zeta.
  destruct (limit_config_positive limitType) as [Hw _].
  unfold getRateLimitStatus.
  change (limitType +:+ ":" +:+ getClientIdentifier req) with (store_key limitType req).
  rewrite (proj1 (limiter_step limitType req now store res)), lookup_insert_eq.
  assert (Hlive : (windowStart (next_entry (limit_config limitType) now
                    (store !! store_key limitType req))
                  + windowMs (limit_config limitType) <? now) = false).
  { apply Z.ltb_ge. unfold next_entry, current_window. cbn [windowStart].
    destruct (store !! store_key limitType req) as [e|]; [|cbn; lia].
    destruct (_ <? now) eqn:Hlt; [cbn; lia | by apply Z.ltb_ge in Hlt]. }
  rewrite Hlive. clear Hlive. cbn [remaining limit resetTime].
  unfold createRateLimiter, next_entry. cbn zeta. cbn [requests windowStart].
  destruct (maxRequests _ <? _); cbn [fst snd send headers].
  - split; [rewrite !header_kept by discriminate; apply header_set|].
    split; [rewrite !header_kept by discriminate; apply header_set|].
    eexists. split; [reflexivity|].
    rewrite !header_kept by discriminate. apply header_set.
  - split; [rewrite !header_kept by discriminate; apply header_set|].
    split; [rewrite !header_kept by discriminate; apply header_set|].
    eexists. split; [reflexivity|].
    rewrite !header_kept by discriminate. apply header_set.
Qed.

Lemma cleanup_lookup (tick : Z) (store : gmap string entry) (k : string) :
  cleanup tick store !! k =
    match store !! k with
    | Some e => if decide (windowStart e + e_windowMs e < tick) then None else Some e
    | None => None
    end.
Proof.
  unfold cleanup. destruct (store !! k) as [e|] eqn:He.
  - destruct (decide (windowStart e + e_windowMs e < tick)) as [Hexp|Hlive].
    + apply map_lookup_filter_None. right. intros x Hx. cbn.
      rewrite He in Hx. injection Hx as <-. tauto.
    + apply map_lookup_filter_Some. by split.
  - apply map_lookup_filter_None. by left.
Qed.

(** X5.  The clean-up timer cannot be observed through the middleware.
    If the client's entry records the window length of its limit (as every
    entry the middleware writes does), a request at time [now] gets the
    same response, the same decision and the same new entry whether or not
    the timer has run at an earlier time [tick]; and the new entry records
    the window length again. *)
Theorem cleanup_is_unobservable
    (limitType : string) (req : request) (tick now : Z)
    (store : gmap string entry) (res : response) :
  window_recorded limitType req store ->
  tick <= now ->
  let direct := createRateLimiter limitType req now store res in
  let swept := createRateLimiter limitType req now (cleanup tick store) res in
  direct.1.2 = swept.1.2
  /\ direct.2 = swept.2
  /\ direct.1.1 !! store_key limitType req = swept.1.1 !! store_key limitType req
  /\ window_recorded limitType req direct.1.1.
Proof.
  intros Hrec Htick. cbn zeta.
  assert (Hwin : current_window (limit_config limitType) now
                   (store !! store_key limitType req)
                 = current_window (limit_config limitType) now
                     (cleanup tick store !! store_key limitType req)).
  { rewrite cleanup_lookup.
    destruct (store !! store_key limitType req) as [e|] eqn:He; [|done].
    destruct (decide _) as [Hexp|]; [|done].
    cbn. rewrite (Hrec e He) in Hexp.
    destruct (_ <? now) eqn:Hlt; [done|]. apply Z.ltb_ge in Hlt. lia. }
  destruct (limiter_reads_window limitType req now store (cleanup tick store) res Hwin)
    as (H1 & H2 & H3).
  repeat split; [done..|].
  intros e' He'.
  rewrite (proj1 (limiter_step limitType req now store res)), lookup_insert_eq in He'.
  injection He' as <-. unfold next_entry, current_window. cbn [e_windowMs].
  destruct (store !! store_key limitType req) as [e|] eqn:He; [|done].
  destruct (_ <? now); [done | by apply Hrec].
Qed.

Lemma cleanup_witness :
  window_recorded "analysis" busy_client busy_store
  /\ 61001 <= 70000
  /\ let direct := createRateLimiter "analysis" busy_client 70000 busy_store fresh_response in
     let swept := createRateLimiter "analysis" busy_client 70000 (cleanup 61001 busy_store)
                    fresh_response in
     direct.1.2 = swept.1.2
     /\ direct.2 = swept.2
     /\ direct.1.1 !! store_key "analysis" busy_client
        = swept.1.1 !! store_key "analysis" busy_client
     /\ window_recorded "analysis" busy_client direct.1.1.
Proof.
  assert (Hrec : window_recorded "analysis" busy_client busy_store).
  { intros e He. vm_compute in He. by injection He as <-. }
  assert (Hle : 61001 <= 70000) by lia.
  split; [exact Hrec|]. split; [exact Hle|].
  exact (cleanup_is_unobservable "analysis" busy_client 61001 70000 busy_store
           fresh_response Hrec Hle).
Defined.

(** X6.  Who shares a counter.  Under one limit type two requests are
    counted under the same key only if they have the same client
    identifier; an authenticated request is identified by its user id
    whatever its address, and never has the identifier of an anonymous
    request. *)
Theorem client_identifiers_separate (limitType : string) (r1 r2 : request) :
  (store_key limitType r1 = store_key limitType r2 <->
     getClientIdentifier r1 = getClientIdentifier r2)
  /\ (getClientIdentifier r1 = getClientIdentifier r2 ->
       match truthy (user_id r1), truthy (user_id r2) with
       | Some a, Some b => a = b
       | None, None => True
       | _, _ => False
       end)
  /\ (forall id, truthy (user_id r1) = Some id ->
       getClientIdentifier r1 = "user:" +:+ id).
Proof.
  split; [|split].
  - unfold store_key. split; [|by intros ->].
    induction limitType as [|c rest IH]; cbn; intros Heq.
    + by injection Heq.
    + injection Heq as Heq. by apply IH.
  - unfold getClientIdentifier.
    destruct (truthy (user_id r1)) as [a|], (truthy (user_id r2)) as [b|]; cbn;
      intros Heq; try discriminate; [|done].
    by injection Heq.
  - intros id Hid. unfold getClientIdentifier. by rewrite Hid.
Qed.

(** [prefix needle hay] says that [hay] starts with [needle]. *)
Lemma prefix_starts (needle hay : string) :
  String.prefix needle hay = true <-> exists post, hay = needle +:+ post.
Proof.
  revert hay. induction needle as [|c rest IH]; intros hay; cbn.
  - split; [intros _; by exists hay | intros _; by destruct hay].
  - destruct hay as [|d hay']; [split; [done | by intros [post Hp]]|].
    cbn. destruct (ascii_dec c d) as [->|Hne].
    + rewrite IH. split; intros [post Hp]; exists post; [by rewrite Hp | by injection Hp].
    + split; [done|]. intros [post Hp]. injection Hp as Hcd _. congruence.
Qed.

(** [includes needle hay] says that [needle] occurs somewhere in [hay]. *)
Lemma includes_occurs (needle hay : string) :
  includes needle hay = true <-> exists pre post, hay = pre +:+ needle +:+ post.
Proof.
  induction hay as [|d hay' IH]; cbn [includes]; rewrite orb_true_iff, prefix_starts.
  - split.
    + intros [[post Hp]|Hf]; [|done]. by exists EmptyString, post.
    + intros ([|c pre] & post & Hp); [left; by exists post | discriminate].
  - rewrite IH. split.
    + intros [[post Hp]|(pre & post & Hp)].
      * by exists EmptyString, post.
      * exists (String d pre), post. cbn. by rewrite Hp.
    + intros ([|c pre] & post & Hp).
      * left. by exists post.
      * right. injection Hp as _ Hp. by exists pre, post.
Qed.

(** X7.  [dynamicRateLimiter] never falls back: for every path the limit
    type it picks is a key of [RATE_LIMITS] (and so a plain limit type).
    The health limit applies exactly to the paths that contain [/health]
    in whatever letter case, before any other marker is looked at, and
    the standard limit exactly to the paths that contain no marker. *)
Theorem dynamic_limit_type_is_configured (req_path : string) :
  let limitType := dynamic_limit_type req_path in
  (exists c, own_property limitType RATE_LIMITS = Some c)
  /\ plain_limit_type limitType
  /\ (limitType = "health" <->
       exists pre post, toLowerCase req_path = pre +:+ "/health" +:+ post)
  /\ (limitType = "standard" <->
       forall m, m ∈ markers -> includes m (toLowerCase req_path) = false).
Proof.
  cbn zeta. unfold dynamic_limit_type, markers.
  rewrite <- includes_occurs.
  destruct (includes "/health" _) eqn:H1; cbn [orb].
  { repeat split; try done; [by eexists | |].
    - unfold plain_limit_type, Object_prototype_names.
      rewrite !not_elem_of_cons. repeat split; try discriminate. apply not_elem_of_nil.
    - intros Hall. rewrite (Hall "/health") in H1; [done | apply list_elem_of_here]. }
  destruct (includes "/analyze" _) eqn:H2, (includes "/roi" _) eqn:H3; cbn [orb];
    try (repeat split; try done; [by eexists | |];
         [ unfold plain_limit_type, Object_prototype_names;
           rewrite !not_elem_of_cons; repeat split; try discriminate; apply not_elem_of_nil
         | intros Hall;
           first [ rewrite (Hall "/analyze") in H2; [done | set_solver]
                 | rewrite (Hall "/roi") in H3; [done | set_solver] ] ]).
  destruct (includes "/report" _) eqn:H4, (includes "/pdf" _) eqn:H5; cbn [orb];
    try (repeat split; try done; [by eexists | |];
         [ unfold plain_limit_type, Object_prototype_names;
           rewrite !not_elem_of_cons; repeat split; try discriminate; apply not_elem_of_nil
         | intros Hall;
           first [ rewrite (Hall "/report") in H4; [done | set_solver]
                 | rewrite (Hall "/pdf") in H5; [done | set_solver] ] ]).
  destruct (includes "/watch" _) eqn:H6, (includes "/alert" _) eqn:H7; cbn [orb];
    try (repeat split; try done; [by eexists | |];
         [ unfold plain_limit_type, Object_prototype_names;
           rewrite !not_elem_of_cons; repeat split; try discriminate; apply not_elem_of_nil
         | intros Hall;
           first [ rewrite (Hall "/watch") in H6; [done | set_solver]
                 | rewrite (Hall "/alert") in H7; [done | set_solver] ] ]).
  repeat split; try done; [by eexists | |].
  - unfold plain_limit_type, Object_prototype_names.
    rewrite !not_elem_of_cons. repeat split; try discriminate. apply not_elem_of_nil.
  - intros _ m Hm. repeat (apply elem_of_cons in Hm as [->|Hm]; [done|]).
    by apply elem_of_nil in Hm.
Qed.

Lemma ceil_div_nonneg (x : Z) : 0 <= x -> 0 <= ceil_div x 1000.
Proof.
  intros Hx. unfold ceil_div.
  assert (- x / 1000 <= 0) by (apply Z.div_le_upper_bound; lia). lia.
Qed.

Lemma ceil_div_mono (x y : Z) : x <= y -> ceil_div x 1000 <= ceil_div y 1000.
Proof.
  intros Hxy. unfold ceil_div.
  assert (- y / 1000 <= - x / 1000) by (apply Z.div_le_mono; lia). lia.
Qed.

(** X8.  A rejection is justified, and says how long to wait.  When the
    middleware does not pass a request on, the client has an entry whose
    window is still running and which already counts [maxRequests]
    requests or more; the answer is 429 and its [Retry-After] header is
    the time to the end of that window in seconds, rounded up, which is
    never negative and, for a window that started in the past, at most the
    window length. *)
Theorem rejection_is_justified
    (limitType : string) (req : request) (now : Z)
    (store : gmap string entry) (res : response) :
  let config := limit_config limitType in
  let after := createRateLimiter limitType req now store res in
  after.2 = false ->
  exists e,
    store !! store_key limitType req = Some e
    /\ now <= windowStart e + windowMs config
    /\ maxRequests config <= requests e
    /\ status after.1.2 = Some 429
    /\ headers after.1.2 !! "Retry-After"
       = Some (HNum (ceil_div (windowStart e + windowMs config - now) 1000))
    /\ 0 <= ceil_div (windowStart e + windowMs config - now) 1000
    /\ (windowStart e <= now ->
        ceil_div (windowStart e + windowMs config - now) 1000
        <= ceil_div (windowMs config) 1000).
Proof.
  cbn zeta. intros Hrej.
  destruct (limit_config_positive limitType) as [Hw Hmax].
  pose proof (proj2 (limiter_step limitType req now store res)) as Hcalled.
  rewrite Hrej in Hcalled. symmetry in Hcalled.
  apply negb_false_iff, Z.ltb_lt in Hcalled.
  unfold next_entry, current_window in Hcalled. cbn [requests] in Hcalled.
  destruct (store !! store_key limitType req) as [e|] eqn:He; [|cbn in Hcalled; lia].
  destruct (windowStart e + windowMs (limit_config limitType) <? now) eqn:Hexp;
    [cbn in Hcalled; lia|].
  apply Z.ltb_ge in Hexp.
  exists e. split; [done|]. split; [done|]. split; [lia|].
  assert (Hover : (maxRequests (limit_config limitType) <? requests e + 1) = true)
    by (apply Z.ltb_lt; lia).
  unfold createRateLimiter. cbn zeta. rewrite He. cbn [current_window].
  apply Z.ltb_ge in Hexp. rewrite Hexp. cbn [requests windowStart e_windowMs].
  rewrite Hover. cbn [fst snd send status headers].
  apply Z.ltb_ge in Hexp.
  split; [done|]. split; [apply header_set|].
  split; [apply ceil_div_nonneg; lia|].
  intros Hpast. apply ceil_div_mono. lia.
Qed.

Lemma rejection_witness :
  (createRateLimiter "analysis" busy_client 30000 busy_store fresh_response).2 = false
  /\ exists e,
       busy_store !! store_key "analysis" busy_client = Some e
       /\ 30000 <= windowStart e + windowMs (limit_config "analysis")
       /\ maxRequests (limit_config "analysis") <= requests e
       /\ status (createRateLimiter "analysis" busy_client 30000 busy_store
                    fresh_response).1.2 = Some 429
       /\ headers (createRateLimiter "analysis" busy_client 30000 busy_store
                     fresh_response).1.2 !! "Retry-After"
          = Some (HNum (ceil_div (windowStart e + windowMs (limit_config "analysis")
                                  - 30000) 1000))
       /\ 0 <= ceil_div (windowStart e + windowMs (limit_config "analysis") - 30000) 1000
       /\ (windowStart e <= 30000 ->
           ceil_div (windowStart e + windowMs (limit_config "analysis") - 30000) 1000
           <= ceil_div (windowMs (limit_config "analysis")) 1000).
Proof.
  split; [reflexivity|].
  exact (rejection_is_justified "analysis" busy_client 30000 busy_store fresh_response
           eq_refl).
Defined.

End LimiterFacts.

(** ** More on response validation *)

Module WellformedFacts.
Import Json Zod Schemas Wellformed.

(** Induction over schemas, with the hypothesis for every component of an
    object shape and every option of a union. *)
Lemma schema_induction (P : schema -> Prop) :
  P z_string ->
  (forall int lo hi, P (z_number int lo hi)) ->
  P z_boolean ->
  (forall values, P (z_enum values)) ->
  (forall item, P item -> P (z_array item)) ->
  (forall shape, Forall (fun e => P (snd e)) shape -> P (z_object shape)) ->
  (forall value, P value -> P (z_record value)) ->
  (forall options, Forall P options -> P (z_union options)) ->
  P z_any ->
  (forall inner, P inner -> P (z_optional inner)) ->
  forall s, P s.
Proof.
  intros Hstr Hnum Hbool Henum Harr Hobj Hrec Huni Hany Hopt.
  fix IH 1. intros [| | | |item|shape|value|options| |inner].
  - exact Hstr.
  - apply Hnum.
  - exact Hbool.
  - apply Henum.
  - apply Harr, IH.
  - apply Hobj. induction shape as [|[k sk] rest IHs]; constructor; [apply IH | exact IHs].
  - apply Hrec, IH.
  - apply Huni. induction options as [|o rest IHs]; constructor; [apply IH | exact IHs].
  - exact Hany.
  - apply Hopt, IH.
Qed.

Lemma has_kind_app (k : kind) (a b : list kind) :
  has_kind k (a ++ b) = has_kind k a || has_kind k b.
Proof. unfold has_kind. apply existsb_app. Qed.

Lemma kind_eqb_eq (a b : kind) : kind_eqb a b = true <-> a = b.
Proof. destruct a, b; cbn; split; congruence. Qed.

Lemma disjoint_spec (a b : list kind) (k : kind) :
  disjoint a b = true -> has_kind k a = true -> has_kind k b = false.
Proof.
  unfold disjoint. rewrite forallb_forall. intros Hd Ha.
  apply existsb_exists in Ha as (k' & Hin & Heq).
  apply kind_eqb_eq in Heq as ->. specialize (Hd k' Hin).
  by apply negb_true_iff in Hd.
Qed.

(** A result of the first option that succeeds is a result of an option. *)
Lemma parse_first_option {S : Type} (p : S -> option (option json))
    (options : list S) (r : option json) :
  parse_first p options = Some r -> exists o, In o options /\ p o = Some r.
Proof.
  induction options as [|o rest IH]; cbn; [discriminate|].
  destruct (p o) as [r0|] eqn:Ho.
  - intros [= <-]. exists o. auto.
  - intros Hr. destruct (IH Hr) as (o' & Hin & Ho'). exists o'. auto.
Qed.

(** A schema returns a value of the kind it was given, and takes only
    values of its own kinds. *)
Lemma parse_kind (s : schema) :
  forall v r, parse s v = Some r ->
    kind_of r = kind_of v /\ has_kind (kind_of v) (kinds s) = true.
Proof.
  induction s as [|int lo hi| |values|item IH|shape IH|value IH|options IH| |inner IH]
    using schema_induction; intros v r Hp; cbn [parse] in Hp.
  - destruct v as [[]|]; try discriminate. by injection Hp as <-.
  - destruct v as [[]|]; try discriminate.
    destruct (_ && _); [|discriminate]. by injection Hp as <-.
  - destruct v as [[]|]; try discriminate. by injection Hp as <-.
  - destruct v as [[]|]; try discriminate.
    destruct (in_enum _ _); [|discriminate]. by injection Hp as <-.
  - destruct v as [[]|]; try discriminate.
    destruct (parse_items _ _); [|discriminate]. by injection Hp as <-.
  - destruct v as [[]|]; try discriminate.
    destruct (parse_keys _ _ _); [|discriminate]. by injection Hp as <-.
  - destruct v as [[]|]; try discriminate.
    destruct (parse_values _ _); [|discriminate]. by injection Hp as <-.
  - cbn [kinds]. induction IH as [|o rest Ho _ IHrest]; cbn in Hp; [discriminate|].
    cbn [List.map concat]. rewrite has_kind_app.
    destruct (parse o v) as [r0|] eqn:Hov.
    + injection Hp as <-. destruct (Ho v r0 Hov) as [-> ->]. done.
    + destruct (IHrest Hp) as [-> ->]. split; [done | apply orb_true_r].
  - injection Hp as <-. split; [done|]. by destruct v as [[]|].
  - cbn [kinds]. destruct v as [j|].
    + destruct (IH (Some j) r Hp) as [-> Hk]. split; [done|].
      unfold has_kind in *. cbn [existsb]. rewrite Hk. apply orb_true_r.
    + by injection Hp as <-.
Qed.

(** The parsed object has no key outside the shape. *)
Lemma keys_stripped {S : Type} (p : S -> option json -> option (option json))
    (fields : list (string * json)) (shape : list (string * S))
    (out : list (string * json)) (k : string) :
  parse_keys p fields shape = Some out ->
  existsb (String.eqb k) (List.map fst shape) = false ->
  get k out = None.
Proof.
  revert out. induction shape as [|[k0 s0] rest IH]; intros out Hp Hk.
  - cbn in Hp. by injection Hp as <-.
  - cbn in Hp, Hk. apply orb_false_iff in Hk as [Hk0 Hk].
    destruct (p s0 (get k0 fields)) as [r0|]; [|discriminate].
    destruct (parse_keys p fields rest) as [out'|]; [|by destruct r0].
    specialize (IH out' eq_refl Hk).
    destruct r0 as [y|]; injection Hp as <-; [|done].
    cbn. by rewrite Hk0.
Qed.

(** Parsing the parsed object again, or any object with the same
    properties under the keys of the shape, gives the parsed object. *)
Lemma keys_reparse {S : Type} (p : S -> option json -> option (option json))
    (fields : list (string * json)) (shape : list (string * S)) :
  forall out fields',
    parse_keys p fields shape = Some out ->
    distinct (List.map fst shape) = true ->
    Forall (fun e => forall v r, p (snd e) v = Some r -> p (snd e) r = Some r) shape ->
    (forall k, In k (List.map fst shape) -> get k fields' = get k out) ->
    parse_keys p fields' shape = Some out.
Proof.
  induction shape as [|[k0 s0] rest IH]; intros out fields' Hp Hd Hidem Hsame; [done|].
  cbn in Hp, Hd. apply andb_true_iff in Hd as [Hfresh Hd].
  apply negb_true_iff in Hfresh.
  apply Forall_cons in Hidem as [Hidem0 Hidem]. cbn in Hidem0.
  destruct (p s0 (get k0 fields)) as [r0|] eqn:H0; [|discriminate].
  destruct (parse_keys p fields rest) as [out'|] eqn:Hrest; [|by destruct r0].
  assert (Hout' : forall k, In k (List.map fst rest) -> get k out = get k out').
  { intros k Hin. destruct r0 as [y|]; injection Hp as <-; [|done].
    cbn. destruct (String.eqb k k0) eqn:Hk; [|done].
    apply String.eqb_eq in Hk as ->.
    assert (existsb (String.eqb k0) (List.map fst rest) = true); [|congruence].
    apply existsb_exists. exists k0. split; [done | apply String.eqb_refl]. }
  assert (Htail : parse_keys p fields' rest = Some out').
  { apply IH; [done..|]. intros k Hin. rewrite <- Hout' by done.
    apply Hsame. by right. }
  cbn. rewrite Htail, (Hsame k0) by (by left).
  destruct r0 as [y|]; injection Hp as <-.
  - cbn. rewrite String.eqb_refl. by rewrite (Hidem0 _ _ H0).
  - rewrite (keys_stripped p fields rest out' k0 Hrest Hfresh).
    by rewrite (Hidem0 _ _ H0).
Qed.

Lemma items_reparse (p : option json -> option (option json)) (xs : list json) :
  (forall v r, p v = Some r -> p r = Some r) ->
  forall ys, parse_items p xs = Some ys -> parse_items p ys = Some ys.
Proof.
  intros Hidem. induction xs as [|x xs IH]; intros ys Hp; cbn in Hp.
  - by injection Hp as <-.
  - destruct (p (Some x)) as [[y|]|] eqn:Hx; try discriminate.
    destruct (parse_items p xs) as [ys'|]; [|discriminate].
    injection Hp as <-. cbn. by rewrite (Hidem _ _ Hx), (IH ys' eq_refl).
Qed.

Lemma values_reparse (p : option json -> option (option json))
    (fields : list (string * json)) :
  (forall v r, p v = Some r -> p r = Some r) ->
  forall out, parse_values p fields = Some out -> parse_values p out = Some out.
Proof.
  intros Hidem. induction fields as [|[k x] fields IH]; intros out Hp; cbn in Hp.
  - by injection Hp as <-.
  - destruct (p (Some x)) as [[y|]|] eqn:Hx; try discriminate.
    destruct (parse_values p fields) as [out'|]; [|discriminate].
    injection Hp as <-. cbn. by rewrite (Hidem _ _ Hx), (IH out' eq_refl).
Qed.

(** Parsing is idempotent on well-formed schemas: a value a schema has
    returned is accepted by the schema again and returned as it is. *)
Lemma parse_idempotent (s : schema) (v r : option json) :
  wf s = true -> parse s v = Some r -> parse s r = Some r.
Proof.
  revert v r.
  induction s as [|int lo hi| |values|item IH|shape IH|value IH|options IH| |inner IH]
    using schema_induction; intros v r Hwf Hp; cbn [parse wf] in Hp, Hwf.
  - destruct v as [[]|]; try discriminate. by injection Hp as <-.
  - destruct v as [[]|]; try discriminate.
    destruct (_ && _) eqn:Hc; [|discriminate]. injection Hp as <-. cbn [parse].
    by rewrite Hc.
  - destruct v as [[]|]; try discriminate. by injection Hp as <-.
  - destruct v as [[]|]; try discriminate.
    destruct (in_enum _ _) eqn:Hc; [|discriminate]. injection Hp as <-. cbn [parse].
    by rewrite Hc.
  - destruct v as [[| | | |xs|]|]; try discriminate.
    destruct (parse_items (parse item) xs) as [ys|] eqn:Hi; [|discriminate].
    injection Hp as <-. cbn [parse].
    rewrite (items_reparse (parse item) xs (fun v r => IH v r Hwf) ys Hi). done.
  - destruct v as [[| | | | |fields]|]; try discriminate.
    destruct (parse_keys _ fields shape) as [out|] eqn:Hk; [|discriminate].
    injection Hp as <-. cbn [parse].
    apply andb_true_iff in Hwf as [Hd Hall].
    rewrite (keys_reparse _ fields shape out out Hk Hd); [done| |done].
    rewrite forallb_forall in Hall. rewrite Forall_forall in IH |- *.
    intros e He v r Hr. apply (IH e He v r); [|done].
    apply Hall. by apply list_elem_of_In.
  - destruct v as [[| | | | |fields]|]; try discriminate.
    destruct (parse_values (parse value) fields) as [out|] eqn:Hv; [|discriminate].
    injection Hp as <-. cbn [parse].
    rewrite (values_reparse (parse value) fields (fun v r => IH v r Hwf) out Hv). done.
  - apply andb_true_iff in Hwf as [Hsep Hall]. cbn [parse].
    induction IH as [|o rest Ho _ IHrest]; cbn in Hp; [discriminate|].
    cbn in Hsep, Hall.
    apply andb_true_iff in Hsep as [Hdis Hsep]. apply andb_true_iff in Hall as [Hwo Hall].
    cbn. destruct (parse o v) as [r0|] eqn:Hov.
    + injection Hp as <-. by rewrite (Ho v r0 Hwo Hov).
    + rewrite (IHrest Hsep Hall Hp).
      destruct (parse o r) as [r'|] eqn:Hor; [|done]. exfalso.
      destruct (parse_first_option _ _ _ Hp) as (o' & Hin & Ho').
      destruct (parse_kind o r r' Hor) as [_ Hk].
      destruct (parse_kind o' v r Ho') as [Hkr Hk'].
      rewrite forallb_forall in Hdis.
      specialize (Hdis (kinds o') (in_map kinds rest o' Hin)).
      pose proof (disjoint_spec _ _ _ Hdis Hk) as Hno. rewrite Hkr in Hno. congruence.
  - by injection Hp as <-.
  - destruct v as [j|]; [|by injection Hp as <-].
    destruct r as [y|]; cbn [parse]; [by apply (IH (Some j)) | done].
Qed.

(** The response schemas of the server are well-formed. *)
Lemma response_schemas_wf :
  wf AnalysisResponseSchema = true
  /\ forall agentType schema, agent_schemas agentType = Schema schema -> wf schema = true.
Proof.
  split; [by vm_compute|]. intros agentType schema. unfold agent_schemas.
  repeat (destruct (String.eqb agentType _); [intros [= <-]; by vm_compute|]).
  by destruct (existsb _ _).
Qed.

(** The agent types that name a schema are not inherited names. *)
Lemma agent_schemas_inherited (agentType : string) :
  agent_schemas agentType = Inherited <-> agentType ∈ inherited_names.
Proof.
  assert (Hin : existsb (String.eqb agentType) inherited_names = true
                <-> agentType ∈ inherited_names).
  { rewrite existsb_exists. split.
    - intros (k & Hk & Heq). apply String.eqb_eq in Heq as ->. by apply list_elem_of_In.
    - intros Hk. exists agentType. split; [by apply list_elem_of_In|].
      apply String.eqb_refl. }
  unfold agent_schemas. split.
  - repeat (destruct (String.eqb agentType _); [discriminate|]).
    destruct (existsb _ _) eqn:Hex; [|discriminate]. intros _. by apply Hin.
  - intros Hk. apply Hin in Hk. rewrite Hk.
    assert (Hown : forall k, k ∈ ["clinical"; "patent"; "market"; "vision"; "validation"] ->
                     String.eqb agentType k = false).
    { intros k Hown. apply String.eqb_neq. intros ->.
      revert Hown Hk. rewrite !elem_of_cons, elem_of_nil.
      intros [->|[->|[->|[->|[->|[]]]]]]; by vm_compute. }
    rewrite !Hown by (rewrite !elem_of_cons; auto 10). done.
Qed.

(** X9.  [validateAnalysisResponse] is idempotent: validating a validated
    response changes nothing more, whether the schema accepted the
    response (and stripped it) or refused it (and let it through). *)
Theorem validateAnalysisResponse_idempotent (data : json) :
  validateAnalysisResponse (validateAnalysisResponse data)
  = validateAnalysisResponse data.
Proof.
  unfold validateAnalysisResponse.
  destruct (parse AnalysisResponseSchema (Some data)) as [[out|]|] eqn:Hp.
  - by rewrite (parse_idempotent _ _ _ (proj1 response_schemas_wf) Hp).
  - by rewrite Hp.
  - by rewrite Hp.
Qed.

(** X10.  [validateAgentResponse] throws a [TypeError] exactly for the
    agent types that are names inherited from [Object.prototype]
    ([toString], [constructor], [__proto__], ...); for every other type
    it returns, and it is idempotent: validating what it returned gives
    the same value again.  A type that names no schema and is not
    inherited gets its data back untouched. *)
Theorem validateAgentResponse_idempotent (data : json) (agentType : string) :
  (validateAgentResponse data agentType = inr "TypeError"
   <-> agentType ∈ inherited_names)
  /\ (agentType ∉ inherited_names ->
      exists out, validateAgentResponse data agentType = inl out
                  /\ validateAgentResponse out agentType = inl out)
  /\ (agent_schemas agentType = Undefined -> validateAgentResponse data agentType = inl data).
Proof.
  pose proof (agent_schemas_inherited agentType) as Hinh.
  unfold validateAgentResponse.
  destruct (agent_schemas agentType) as [schema| |] eqn:Hs.
  - pose proof (proj2 response_schemas_wf agentType schema Hs) as Hwf.
    split; [|split; [|discriminate]].
    + split.
      * by destruct (parse schema (Some data)) as [[out|]|].
      * intros Hk. apply Hinh in Hk. discriminate.
    + intros _. destruct (parse schema (Some data)) as [[out|]|] eqn:Hp.
      * exists out. split; [done|]. by rewrite (parse_idempotent _ _ _ Hwf Hp).
      * exists data. split; [done|]. by rewrite Hp.
      * exists data. split; [done|]. by rewrite Hp.
  - split; [|split; [|discriminate]].
    + split; [intros _; by apply Hinh | done].
    + intros Hk. destruct Hk. by apply Hinh.
  - split; [|split; [|done]].
    + split; [discriminate|]. intros Hk. apply Hinh in Hk. discriminate.
    + intros _. by exists data.
Qed.

(** The response of the clinical agent, and a call under an inherited name. *)
Example validateAgentResponse_inherited :
  validateAgentResponse (JObj []) "toString" = inr "TypeError"
  /\ validateAgentResponse (JObj []) "kol" = inl (JObj []).
Proof. by vm_compute. Qed.

(** An object schema reads only the properties its shape names. *)
Lemma parse_keys_reads_shape {S : Type} (p : S -> option json -> option (option json))
    (fields fields' : list (string * json)) (shape : list (string * S)) :
  (forall k, In k (List.map fst shape) -> get k fields = get k fields') ->
  parse_keys p fields shape = parse_keys p fields' shape.
Proof.
  induction shape as [|[k0 s0] rest IH]; intros Hsame; [done|].
  cbn. rewrite (Hsame k0) by (by left). rewrite IH; [done|].
  intros k Hin. apply Hsame. by right.
Qed.

(** X11.  Keys outside the analysis schema are neither checked nor kept:
    adding a property under any key the schema does not name, whatever
    its value, changes neither whether a response is accepted nor the
    validated value. *)
Theorem unknown_keys_are_ignored (k : string) (v : json) (fields : list (string * json)) :
  existsb (String.eqb k) (List.map fst AnalysisResponseShape) = false ->
  parse AnalysisResponseSchema (Some (JObj ((k, v) :: fields)))
  = parse AnalysisResponseSchema (Some (JObj fields)).
Proof.
  intros Hk. unfold AnalysisResponseSchema. cbn [parse].
  rewrite (parse_keys_reads_shape _ ((k, v) :: fields) fields); [done|].
  intros k' Hin. cbn. destruct (String.eqb k' k) eqn:Heq; [|done].
  apply String.eqb_eq in Heq as ->.
  assert (existsb (String.eqb k) (List.map fst AnalysisResponseShape) = true);
    [|congruence].
  apply existsb_exists. exists k. split; [done | apply String.eqb_refl].
Qed.

(** A [results] property of the wrong type does not get a response
    refused. *)
Lemma unknown_keys_witness :
  existsb (String.eqb "results") (List.map fst AnalysisResponseShape) = false
  /\ parse AnalysisResponseSchema
       (Some (JObj (("results", JNum 7)
                    :: [ ("request_id", JStr "r"); ("molecule", JStr "aspirin");
                         ("agents_executed", JArr []) ])))
     = parse AnalysisResponseSchema
         (Some (JObj [ ("request_id", JStr "r"); ("molecule", JStr "aspirin");
                       ("agents_executed", JArr []) ])).
Proof.
  split; [reflexivity|].
  exact (unknown_keys_are_ignored "results" (JNum 7) _ eq_refl).
Defined.

End WellformedFacts.

(** ** What the archive keeps *)

Module ArchiveInvariantFacts.
Import Json Archive ArchiveInvariants.
Local Open Scope Z_scope.

(** A driver call rejects and leaves the database alone, or runs. *)
Lemma driver_outcomes {A : Type} (f : database -> (A + string) * database) (w : world) :
  (exists e later, driver f w = (inr e, {| db := db w; faults := later |}))
  \/ driver f w = ((f (db w)).1, {| db := (f (db w)).2; faults := tail (faults w) |}).
Proof.
  unfold driver. destruct (faults w) as [|[] later] eqn:Hf.
  - right. by destruct (f (db w)).
  - left. eauto.
  - right. by destruct (f (db w)).
Qed.

(** *** Replacing a document *)

Lemma replace_fresh (r : report) (l : list report) :
  (forall x, x ∈ l -> _id x <> _id r) -> replace_report r l = (l ++ [r])%list.
Proof.
  induction l as [|x l IH]; intros Hfresh; cbn; [done|].
  destruct (String.eqb (_id x) (_id r)) eqn:Heq.
  - apply String.eqb_eq in Heq. by destruct (Hfresh x (list_elem_of_here _ _)).
  - rewrite IH; [done|]. intros y Hy. apply Hfresh. by apply list_elem_of_further.
Qed.

Lemma replace_fmap {B : Type} (f : report -> B) (r' r : report) (l : list report) :
  List.find (fun x => String.eqb (_id x) (_id r')) l = Some r ->
  f r' = f r ->
  f <$> replace_report r' l = f <$> l.
Proof.
  intros Hfind Hf. induction l as [|x l IH]; cbn in *; [discriminate|].
  destruct (String.eqb (_id x) (_id r')).
  - injection Hfind as ->. cbn. by rewrite Hf.
  - cbn. by rewrite IH.
Qed.

Lemma replace_Forall (P : report -> Prop) (r' : report) (l : list report) :
  Forall P l -> P r' -> Forall P (replace_report r' l).
Proof.
  intros Hl Hr. induction Hl as [|x l Hx Hl IH]; cbn; [by constructor|].
  destruct (String.eqb (_id x) (_id r')); by constructor.
Qed.

Lemma replace_other (id : string) (r' : report) (l : list report) :
  id <> _id r' ->
  List.find (fun x => String.eqb (_id x) id) (replace_report r' l)
  = List.find (fun x => String.eqb (_id x) id) l.
Proof.
  intros Hne. induction l as [|x l IH]; cbn.
  - destruct (String.eqb (_id r') id) eqn:Heq; [|done].
    apply String.eqb_eq in Heq. congruence.
  - destruct (String.eqb (_id x) (_id r')) eqn:Hx; cbn.
    + apply String.eqb_eq in Hx.
      destruct (String.eqb (_id r') id) eqn:Heq;
        [apply String.eqb_eq in Heq; congruence|].
      rewrite Hx, Heq. done.
    + by rewrite IH.
Qed.

(** *** What each model operation may do to the database *)

Lemma User_findOne_reads (mail : option string) (w : world) :
  db (User_findOne mail w).2 = db w.
Proof.
  unfold User_findOne.
  match goal with |- context [driver ?f w] =>
    destruct (driver_outcomes f w) as [(e & later & ->)| ->] end; done.
Qed.

Lemma findById_reads (id : string) (w : world) :
  db (ResearchReport_findById id w).2 = db w
  /\ forall found, (ResearchReport_findById id w).1 = inl found -> found = stored id w.
Proof.
  unfold ResearchReport_findById.
  match goal with |- context [driver ?f w] =>
    destruct (driver_outcomes f w) as [(e & later & ->)| ->] end; cbn [fst snd db].
  - split; [done | discriminate].
  - destruct (castable id); cbn [fst snd db]; (split; [done|]).
    + by intros found [= <-].
    + discriminate.
Qed.

Lemma findOne_reads (rid : string) (w : world) :
  db (ResearchReport_findOne rid w).2 = db w
  /\ forall found, (ResearchReport_findOne rid w).1 = inl found ->
       found = find_report (fun r => String.eqb (requestId r) rid) (db w).
Proof.
  unfold ResearchReport_findOne.
  match goal with |- context [driver ?f w] =>
    destruct (driver_outcomes f w) as [(e & later & ->)| ->] end; cbn [fst snd db].
  - split; [done | discriminate].
  - split; [done|]. by intros found [= <-].
Qed.

(** The database after [save]: as before, or with the document written;
    a document is written only if it is valid and no other document has
    its request id. *)
Lemma save_writes (stamp : option Z) (r : report) (w : world) :
  ((exists e, (save stamp r w).1 = inr e) /\ db (save stamp r w).2 = db w)
  \/ ((save stamp r w).1 = inl ()
      /\ valid_report r = true
      /\ existsb (fun x => String.eqb (requestId x) (requestId r)
                           && negb (String.eqb (_id x) (_id r))) (reports (db w)) = false
      /\ db (save stamp r w).2 = written (restamp stamp r) (db w)).
Proof.
  unfold save.
  match goal with |- context [driver ?f w] =>
    destruct (driver_outcomes f w) as [(e & later & ->)| ->] end; cbn [fst snd db].
  - left. eauto.
  - destruct (valid_report r); cbn [negb]; [|left; eauto].
    destruct (existsb _ _) eqn:Hdup; [left; eauto|].
    right. done.
Qed.

Lemma create_appends (a : audit) (w : world) :
  db (AuditLog_create a w).2 = db w
  \/ db (AuditLog_create a w).2
     = {| reports := reports (db w); users := users (db w);
          auditLog := (auditLog (db w) ++ [a])%list |}.
Proof.
  unfold AuditLog_create.
  match goal with |- context [driver ?f w] =>
    destruct (driver_outcomes f w) as [(e & later & ->)| ->] end; cbn [fst snd db];
    [auto|].
  destruct (valid_audit a); cbn; auto.
Qed.

(** The [catch] block adds nothing to what the [try] block did. *)
Lemma try_catch_world (msg : string) (m : M response) (w : world) :
  (try_catch msg m w).2 = (m w).2.
Proof. unfold try_catch. by destruct (m w) as [[r|e] w']. Qed.

(** Nor does what follows the save. *)
Lemma perform_world (op : sharing) (w : world) :
  (perform op w).2
  = match op with
    | Share req => (share_and_save req w).2
    | Unshare req => (unshare_and_save req w).2
    end.
Proof.
  destruct op as [req|req]; cbn [perform]; unfold shareReport, unshareReport;
    rewrite try_catch_world; unfold bind.
  - by destruct (share_and_save req w) as [[[early|]|e] w'].
  - by destruct (unshare_and_save req w) as [[[early|]|e] w'].
Qed.

Lemma restamp_fields (stamp : option Z) (r : report) :
  _id (restamp stamp r) = _id r
  /\ requestId (restamp stamp r) = requestId r
  /\ valid_report (restamp stamp r) = valid_report r
  /\ with_shares (with_updatedAt r (updatedAt (restamp stamp r)))
       (isShared r) (sharedWith r) = restamp stamp r.
Proof. destruct stamp; destruct r; done. Qed.

(** What a sharing request may do: nothing, or rewrite the sharing state
    and [updatedAt] of the report it is aimed at, with a document that
    passes validation. *)
Lemma sharing_effect (op : sharing) (w : world) :
  db (perform op w).2 = db w
  \/ exists r r',
       stored (target op) w = Some r
       /\ _id r = cast_id (target op)
       /\ same_but_sharing r r'
       /\ valid_report r' = true
       /\ db (perform op w).2 = written r' (db w).
Proof.
  rewrite perform_world.
  destruct op as [req|req]; cbn [target].
  - unfold share_and_save, bind.
    pose proof (User_findOne_reads (sh_email req) w) as Hu.
    destruct (User_findOne (sh_email req) w) as [[[u|]|e] w1]; cbn [snd] in Hu;
      [|by left..].
    destruct (findById_reads (sh_reportId req) w1) as [Hdb Hfound].
    destruct (ResearchReport_findById (sh_reportId req) w1) as [[[r|]|e] w2];
      cbn [fst snd] in Hdb, Hfound; [|left; cbn; congruence..].
    specialize (Hfound _ eq_refl). unfold lift.
    destruct (some_shared (u_id u) (sharedWith r)) as [[]|e];
      [left; cbn; congruence| |left; cbn; congruence].
    assert (Hr : stored (sh_reportId req) w = Some r)
      by (unfold stored in *; congruence).
    match goal with |- context [save ?stamp ?r' w2] =>
      destruct (save_writes stamp r' w2) as [[_ Hs]|(Hok & Hvalid & _ & Hs)];
      destruct (save stamp r' w2) as [[[]|e] w3]; cbn [fst snd] in *;
      try discriminate; try (left; cbn; congruence);
      right; exists r, (restamp stamp r')
    end.
    split; [exact Hr|].
    split; [unfold stored, find_report in Hr; apply find_some in Hr as [_ Heq];
            by apply String.eqb_eq in Heq|].
    split; [reflexivity|]. split; [exact Hvalid|].
    unfold ret; cbn [fst snd]. by rewrite Hs, Hdb, Hu.
  - unfold unshare_and_save, bind.
    destruct (findById_reads (un_reportId req) w) as [Hdb Hfound].
    destruct (ResearchReport_findById (un_reportId req) w) as [[[r|]|e] w1];
      cbn [fst snd] in Hdb, Hfound; [|by left..].
    specialize (Hfound _ eq_refl). unfold lift.
    destruct (without_user (un_userId req) (sharedWith r)) as [kept|e];
      [|left; cbn; congruence].
    assert (Hr : stored (un_reportId req) w = Some r)
      by (unfold stored in *; congruence).
    match goal with |- context [save ?stamp ?r' w1] =>
      destruct (save_writes stamp r' w1) as [[_ Hs]|(Hok & Hvalid & _ & Hs)];
      destruct (save stamp r' w1) as [[[]|e] w2]; cbn [fst snd] in *;
      try discriminate; try (left; cbn; congruence);
      right; exists r, (restamp stamp r')
    end.
    split; [exact Hr|].
    split; [unfold stored, find_report in Hr; apply find_some in Hr as [_ Heq];
            by apply String.eqb_eq in Heq|].
    split; [unfold same_but_sharing; by destruct (un_stamp req)|].
    split; [by rewrite (proj1 (proj2 (proj2 (restamp_fields _ _))))|].
    unfold ret; cbn [fst snd]. by rewrite Hs, Hdb.
Qed.

Lemma replace_same (r' : report) (l : list report) :
  List.find (fun x => String.eqb (_id x) (_id r')) (replace_report r' l) = Some r'.
Proof.
  induction l as [|x l IH]; cbn.
  - by rewrite String.eqb_refl.
  - destruct (String.eqb (_id x) (_id r')) eqn:Hx; cbn.
    + by rewrite String.eqb_refl.
    + by rewrite Hx.
Qed.

Lemma find_id (id : string) (l : list report) (r : report) :
  List.find (fun x => String.eqb (_id x) id) l = Some r -> r ∈ l /\ _id r = id.
Proof.
  intros Hfind. apply find_some in Hfind as [Hin Heq].
  split; [by apply list_elem_of_In | by apply String.eqb_eq].
Qed.

Lemma same_but_sharing_fields (r r' : report) :
  same_but_sharing r r' ->
  _id r' = _id r /\ requestId r' = requestId r /\ status r' = status r.
Proof. intros <-. done. Qed.

(** A document written over the stored one with its id and request id
    keeps the store consistent. *)
Lemma written_consistent (r r' : report) (d : database) :
  store_consistent d ->
  List.find (fun x => String.eqb (_id x) (_id r')) (reports d) = Some r ->
  requestId r' = requestId r ->
  valid_report r' = true ->
  store_consistent (written r' d).
Proof.
  intros (Hids & Hrids & Hvalid) Hfind Hrid Hok.
  pose proof (find_id _ _ _ Hfind) as [_ Hid].
  unfold store_consistent, written; cbn [reports].
  rewrite (replace_fmap _id r' r) by done.
  rewrite (replace_fmap requestId r' r) by done.
  split; [done|]. split; [done|]. by apply replace_Forall.
Qed.

(** A document added under a fresh id keeps the store consistent when the
    unique index has let it through. *)
Lemma added_consistent (r' : report) (d : database) :
  store_consistent d ->
  (forall x, x ∈ reports d -> _id x <> _id r') ->
  existsb (fun x => String.eqb (requestId x) (requestId r')
                    && negb (String.eqb (_id x) (_id r'))) (reports d) = false ->
  valid_report r' = true ->
  store_consistent (written r' d).
Proof.
  intros (Hids & Hrids & Hvalid) Hfresh Hindex Hok.
  unfold store_consistent, written; cbn [reports].
  rewrite replace_fresh by done. rewrite !fmap_app. cbn [fmap list_fmap].
  split; [|split].
  - apply NoDup_app. split; [done|]. split; [|apply NoDup_singleton].
    intros id Hin Hin'. apply list_elem_of_fmap in Hin as (x & -> & Hx).
    apply list_elem_of_singleton in Hin'. by apply (Hfresh x).
  - apply NoDup_app. split; [done|]. split; [|apply NoDup_singleton].
    intros rid Hin Hin'. apply list_elem_of_fmap in Hin as (x & -> & Hx).
    apply list_elem_of_singleton in Hin'.
    assert (existsb (fun x => String.eqb (requestId x) (requestId r')
                    && negb (String.eqb (_id x) (_id r'))) (reports d) = true)
      as Hyes; [|congruence].
    apply existsb_exists. exists x. split; [by apply list_elem_of_In|].
    apply andb_true_iff. split; [by apply String.eqb_eq|].
    apply negb_true_iff, String.eqb_neq. by apply Hfresh.
  - apply Forall_app. split; [done|]. by constructor.
Qed.


Section Saving.
Context {mongoose : Mongoose}.

(** What [saveReport] may do to the database: nothing, or add the built
    document, with or without its audit entry. *)
Lemma saveReport_effect (req : save_request) (newId : ObjectId) (now : Z) (w : world) :
  db (saveReport req newId now w).2 = db w
  \/ exists d,
      cast_details (constructor_details (body req)) = Some d
      /\ valid_report (built_report req newId now d) = true
      /\ existsb (fun x => String.eqb (requestId x) (requestId (built_report req newId now d))
                           && negb (String.eqb (_id x) (_id (built_report req newId now d))))
           (reports (db w)) = false
      /\ (db (saveReport req newId now w).2 = written (built_report req newId now d) (db w)
          \/ db (saveReport req newId now w).2
             = {| reports := replace_report (built_report req newId now d) (reports (db w));
                  users := users (db w);
                  auditLog := (auditLog (db w) ++ [built_audit req newId])%list |}).
Proof.
  unfold saveReport. rewrite try_catch_world.
  destruct (negb (bool_decide (validationResult req = []))); [by left|].
  unfold bind.
  destruct (findOne_reads (text (b_requestId (body req))) w) as [Hdb _].
  destruct (ResearchReport_findOne _ w) as [[[r|]|e] w1]; cbn [fst snd] in Hdb;
    [by left| |by left].
  destruct (cast_details (constructor_details (body req))) as [d|];
    [|by left].
  set (R := new_report req newId now d).
  destruct (save_writes (Some now) R w1) as [[[e' He] Hs]|(Hok & Hvalid & Hindex & Hs)];
    destruct (save (Some now) R w1) as [[[]|e] w2]; cbn [fst snd] in *;
    try discriminate; try (left; cbn; congruence).
  right. exists d. rewrite <- Hdb. split; [done|]. split; [exact Hvalid|].
  split; [exact Hindex|].
  change ({| a_userId := _; action := _; a_requestId := _; a_molecule := _;
             a_processingMode := _; metadata := _ |}) with (built_audit req newId).
  destruct (create_appends (built_audit req newId) w2) as [Ha|Ha];
    destruct (AuditLog_create (built_audit req newId) w2) as [[[]|e] w3];
    cbn [fst snd] in *; cbn; rewrite Ha, ?Hs; auto.
Qed.

(** *** The store under the handlers *)

(** X12 ([saveReport], [save], the unique index on [requestId]).  Whatever
    the request and whichever driver calls fail, [saveReport] with a new
    [_id] leaves the stored reports with unique ids, unique request ids
    and valid documents. *)
Theorem saveReport_keeps_store_consistent
    (req : save_request) (newId : ObjectId) (now : Z) (w : world) :
  store_consistent (db w) ->
  (forall x, x ∈ reports (db w) -> _id x <> newId) ->
  store_consistent (db (saveReport req newId now w).2).
Proof.
  intros Hcons Hfresh.
  destruct (saveReport_effect req newId now w)
    as [->|(d & _ & Hvalid & Hindex & [->| ->])]; [done| |].
  - by apply added_consistent.
  - by apply (added_consistent (built_report req newId now d)).
Qed.

End Saving.

Lemma world1_consistent : store_consistent (db world1).
Proof.
  split; [|split]; cbn.
  - apply NoDup_singleton.
  - apply NoDup_singleton.
  - by repeat constructor.
Qed.

Lemma saveReport_keeps_store_consistent_witness :
  store_consistent
    (db (saveReport (mongoose := lenient) fresh_request "64b000000000000000000002"
           1700000000001 world1).2).
Proof.
  apply saveReport_keeps_store_consistent.
  - exact world1_consistent.
  - intros x Hx. apply list_elem_of_singleton in Hx. by subst x.
Defined.

(** X13 ([shareReport], [unshareReport]).  Sharing and unsharing keep the
    stored reports consistent: no request, valid or not, and no failure of
    the driver makes them write an invalid document or a second document
    with the same id or request id. *)
Theorem sharing_keeps_store_consistent (op : sharing) (w : world) :
  store_consistent (db w) -> store_consistent (db (perform op w).2).
Proof.
  intros Hcons.
  destruct (sharing_effect op w) as [->|(r & r' & Hr & Hid & Hsame & Hvalid & ->)];
    [done|].
  apply same_but_sharing_fields in Hsame as (Hid' & Hrid & _).
  apply (written_consistent r); try done.
  unfold stored, find_report in Hr. by rewrite Hid', Hid.
Qed.

Lemma sharing_keeps_store_consistent_witness :
  store_consistent (db (perform (Share share_with_bob) world1).2).
Proof.
  apply sharing_keeps_store_consistent. exact world1_consistent.
Defined.

(** X14 ([shareReport], [unshareReport]).  A sharing request touches one
    report only, the one its id names once cast to an [ObjectId], and of
    the paths of [report] only [isShared], [sharedWith] and [updatedAt]:
    no report is added or removed, the users, the audit log (sharing is
    never audited) and every other report are as before, and the target
    is still stored under its id. *)
Theorem sharing_touches_only_its_target (op : sharing) (w : world) :
  let w' := (perform op w).2 in
  _id <$> reports (db w') = _id <$> reports (db w)
  /\ users (db w') = users (db w)
  /\ auditLog (db w') = auditLog (db w)
  /\ (forall id, cast_id id <> cast_id (target op) -> stored id w' = stored id w)
  /\ (forall r, stored (target op) w = Some r ->
        exists r', stored (target op) w' = Some r' /\ same_but_sharing r r').
Proof.
  intros w'. subst w'.
  destruct (sharing_effect op w) as [Hdb|(r & r' & Hr & Hid & Hsame & Hvalid & Hdb)].
  - unfold stored. rewrite Hdb. repeat split; try done.
    intros r Hr. exists r. split; [done|]. by destruct r.
  - unfold stored, find_report in *. rewrite Hdb. cbn [written users auditLog reports].
    pose proof (same_but_sharing_fields _ _ Hsame) as (Hid' & _ & _).
    split; [|repeat split].
    + apply (replace_fmap _id r' r); [by rewrite Hid', Hid | done].
    + intros id Hne. apply replace_other. congruence.
    + intros r0 Hr0. exists r'. split; [|congruence].
      rewrite <- Hid, <- Hid'. apply replace_same.
Qed.

(** *** A driver that does not fail *)




Section Storing.
Context {mongoose : Mongoose}.


End Storing.


(** *** Sharing and taking it back *)









End ArchiveInvariantFacts.
(** ** The status handlers *)
Module ControllerFacts.
Import Json Archive ArchiveInvariants Controller ArchiveInvariantFacts.
Local Open Scope Z_scope.

(** What the update may do: nothing, or set the status and [updatedAt] of
    the report with the id. *)
Lemma findByIdAndUpdate_effect (id st : string) (now : Z) (w : world) :
  (db (ResearchReport_findByIdAndUpdate id st now w).2 = db w
   /\ ((ResearchReport_findByIdAndUpdate id st now w).1 = inl None /\ stored id w = None
       \/ exists e, (ResearchReport_findByIdAndUpdate id st now w).1 = inr e))
  \/ exists r,
       stored id w = Some r
       /\ (ResearchReport_findByIdAndUpdate id st now w).1
          = inl (Some (set_status r st now))
       /\ db (ResearchReport_findByIdAndUpdate id st now w).2
          = written (set_status r st now) (db w).
Proof.
  unfold ResearchReport_findByIdAndUpdate.
  match goal with |- context [driver ?f w] =>
    destruct (driver_outcomes f w) as [(e & later & ->)| ->] end; cbn [fst snd db].
  - left. eauto.
  - destruct (castable id); [|left; eauto].
    unfold stored. destruct (find_report _ (db w)) as [r|]; [|left; eauto].
    right. by exists r.
Qed.

(** What a status handler does to the database and to the request. *)
Lemma handle_effect (h : status_handler) (req : id_request) (w : world) :
  (db (handle h req w).2 = db w
   /\ ((handle h req w).1 = Sent (failure 404 "Report not found")
       /\ stored (p_reportId req) w = None
       \/ (handle h req w).1 = Rejected "TypeError"))
  \/ exists r,
       stored (p_reportId req) w = Some r
       /\ (handle h req w).1 = Rejected "TypeError"
       /\ users (db (handle h req w).2) = users (db w)
       /\ reports (db (handle h req w).2)
          = replace_report (set_status r (new_status h) (p_now req)) (reports (db w))
       /\ (auditLog (db (handle h req w).2) = auditLog (db w)
           \/ h = Deleting
              /\ exists a, action a = "REPORT_DOWNLOADED"
                   /\ a_requestId a = requestId r
                   /\ auditLog (db (handle h req w).2) = (auditLog (db w) ++ [a])%list).
Proof.
  destruct h; cbn [handle new_status];
    unfold archiveReport, restoreReport, deleteReport, try_catch, bind.
  - destruct (findByIdAndUpdate_effect (p_reportId req) "archived" (p_now req) w)
      as [[Hdb [[Hres Hnone]|[e Hres]]]|(r & Hr & Hres & Hdb)];
      destruct (ResearchReport_findByIdAndUpdate _ _ _ w) as [res w1];
      cbn [fst snd] in *; subst res; cbn.
    + left. eauto.
    + left. eauto.
    + right. exists r. rewrite Hdb. cbn. eauto 10.
  - destruct (findByIdAndUpdate_effect (p_reportId req) "completed" (p_now req) w)
      as [[Hdb [[Hres Hnone]|[e Hres]]]|(r & Hr & Hres & Hdb)];
      destruct (ResearchReport_findByIdAndUpdate _ _ _ w) as [res w1];
      cbn [fst snd] in *; subst res; cbn.
    + left. eauto.
    + left. eauto.
    + right. exists r. rewrite Hdb. cbn. eauto 10.
  - destruct (findByIdAndUpdate_effect (p_reportId req) "archived" (p_now req) w)
      as [[Hdb [[Hres Hnone]|[e Hres]]]|(r & Hr & Hres & Hdb)];
      destruct (ResearchReport_findByIdAndUpdate _ _ _ w) as [res w1];
      cbn [fst snd] in *; subst res; cbn.
    + left. eauto.
    + left. eauto.
    + right. exists r.
      match goal with |- context [AuditLog_create ?a w1] =>
        destruct (create_appends a w1) as [Ha|Ha];
        destruct (AuditLog_create a w1) as [[[]|e] w2]; cbn [fst snd] in *; cbn;
        rewrite Ha, ?Hdb; cbn; (split; [done|]); (split; [done|]);
        (split; [done|]); (split; [done|]); try (by left);
        right; (split; [done|]); exists a; by cbn
      end.
Qed.

Lemma replaced_at (id : string) (r' : report) (l : list report) :
  _id r' = id ->
  List.find (fun x => String.eqb (_id x) id) (replace_report r' l) = Some r'.
Proof. intros <-. apply replace_same. Qed.

Lemma update_quiet (id st : string) (now : Z) (d : database) (r : report) :
  castable id = true ->
  find_report (fun x => String.eqb (_id x) (cast_id id)) d = Some r ->
  ResearchReport_findByIdAndUpdate id st now {| db := d; faults := [] |}
  = (inl (Some (set_status r st now)),
     {| db := written (set_status r st now) d; faults := [] |}).
Proof.
  intros Hcast Hr. unfold ResearchReport_findByIdAndUpdate, driver; cbn [faults db tail].
  by rewrite Hcast, Hr.
Qed.

Lemma valid_set_status (r : report) (h : status_handler) (now : Z) :
  valid_report r = true -> valid_report (set_status r (new_status h) now) = true.
Proof.
  unfold valid_report;
    cbn [set_status requestId molecule processingMode status sharedWith userId].
  intros Hvalid. repeat (apply andb_true_iff in Hvalid as [Hvalid ?]).
  repeat (apply andb_true_iff; split); try done. by destruct h.
Qed.

(** X17 ([archiveReport], [restoreReport], [deleteReport], the controller's
    [logger]).  A status handler never confirms: the one response it ever
    sends is 404 for an id nobody has, with the database untouched; every
    other request, found its report or failed, ends in the [TypeError] of
    a logger call, in or after the [try] block, and is sent no response
    by the handler. *)
Theorem status_handlers_never_confirm (h : status_handler) (req : id_request) (w : world) :
  ((handle h req w).1 = Sent (failure 404 "Report not found")
   /\ db (handle h req w).2 = db w
   /\ stored (p_reportId req) w = None)
  \/ (handle h req w).1 = Rejected "TypeError".
Proof.
  destruct (handle_effect h req w) as [[Hdb [[Hres Hnone]|Hres]]|(r & _ & Hres & _)];
    auto.
Qed.

(** X18 ([archiveReport], [restoreReport], [deleteReport],
    [findByIdAndUpdate]).  Deleting is soft: no status handler removes or
    adds a report, whatever the request and the driver's failures.  The
    ids and request ids stored stay the same, in the same order; the users
    and every report but the one the id names once cast to an [ObjectId]
    are untouched; that report, among the paths of [report], changes in
    [status] and [updatedAt] at most, and if it changes these are the new
    status and the time of the update; and only [deleteReport] writes to
    the audit log. *)
Theorem status_handlers_keep_documents (h : status_handler) (req : id_request) (w : world) :
  let w' := (handle h req w).2 in
  _id <$> reports (db w') = _id <$> reports (db w)
  /\ requestId <$> reports (db w') = requestId <$> reports (db w)
  /\ users (db w') = users (db w)
  /\ (forall id, cast_id id <> cast_id (p_reportId req) -> stored id w' = stored id w)
  /\ (forall r, stored (p_reportId req) w = Some r ->
        exists r',
          stored (p_reportId req) w' = Some r'
          /\ same_but_status r r'
          /\ (r' = r
              \/ status r' = new_status h /\ updatedAt r' = Some (p_now req)))
  /\ (auditLog (db w') = auditLog (db w) \/ h = Deleting).
Proof.
  intros w'. subst w'.
  destruct (handle_effect h req w)
    as [[Hdb _]|(r & Hr & _ & Husers & Hreports & Haudit)].
  - unfold stored. rewrite Hdb. repeat split; auto.
    intros r Hr. exists r. split; [done|]. split; [by repeat split | by left].
  - pose proof Hr as Hfind. unfold stored, find_report in Hfind.
    apply find_id in Hfind as [_ Hid].
    unfold stored, find_report. rewrite Hreports.
    split; [|split; [|split; [|split; [|split]]]].
    + apply (replace_fmap _id _ r); [|done]. cbn [set_status _id]. by rewrite Hid.
    + apply (replace_fmap requestId _ r); [|done]. cbn [set_status _id]. by rewrite Hid.
    + done.
    + intros id Hne. apply replace_other. cbn [set_status _id]. congruence.
    + intros r0 Hr0.
      assert (r0 = r) as -> by (unfold stored, find_report in *; congruence).
      exists (set_status r (new_status h) (p_now req)).
      split; [by apply replaced_at|]. split; [by repeat split | by right].
    + destruct Haudit as [?|[? _]]; auto.
Qed.

(** X19 ([archiveReport], [restoreReport], [deleteReport]).  The status
    handlers keep the stored reports consistent: ids and request ids stay
    unique and every document stays valid. *)
Theorem status_handlers_keep_store_consistent
    (h : status_handler) (req : id_request) (w : world) :
  store_consistent (db w) -> store_consistent (db (handle h req w).2).
Proof.
  intros Hcons.
  destruct (handle_effect h req w)
    as [[-> _]|(r & Hr & _ & Husers & Hreports & Haudit)]; [done|].
  pose proof Hr as Hfind. unfold stored, find_report in Hfind.
  pose proof (find_id _ _ _ Hfind) as [Hin Hid].
  assert (Hvalid : valid_report r = true).
  { destruct Hcons as (_ & _ & Hall). rewrite Forall_forall in Hall. by apply Hall. }
  assert (Hnew : store_consistent
                   (written (set_status r (new_status h) (p_now req)) (db w))).
  { apply (written_consistent r); try done.
    - cbn [set_status _id]. by rewrite Hid.
    - by apply valid_set_status. }
  unfold store_consistent in *. by rewrite Hreports.
Qed.

Lemma status_handlers_keep_store_consistent_witness :
  store_consistent (db (handle Deleting on_report1 world1).2).
Proof.
  apply status_handlers_keep_store_consistent. exact world1_consistent.
Defined.

(** The run of a status handler on a stored report when the driver does
    not fail. *)
Lemma handle_quiet (h : status_handler) (req : id_request) (d : database) (r : report) :
  castable (p_reportId req) = true ->
  find_report (fun x => String.eqb (_id x) (cast_id (p_reportId req))) d = Some r ->
  exists log,
    handle h req {| db := d; faults := [] |}
    = (Rejected "TypeError",
       {| db := {| reports := replace_report (set_status r (new_status h) (p_now req))
                                (reports d);
                   users := users d;
                   auditLog := log |};
          faults := [] |})
    /\ (h <> Deleting -> log = auditLog d).
Proof.
  intros Hcast Hr.
  destruct h; cbn [handle new_status];
    unfold archiveReport, restoreReport, deleteReport, try_catch, bind;
    rewrite (update_quiet _ _ _ _ r) by done; cbn; [by eexists..|].
  unfold AuditLog_create, driver; cbn [faults db tail].
  match goal with |- context [valid_audit ?a] => destruct (valid_audit a) end;
    cbn; by eexists.
Qed.

(** X20 ([archiveReport], [restoreReport], [deleteReport]).  With a driver
    that does not fail, a status handler called for a stored report does
    its update and tells nobody: the report is stored with the new status
    and the time of the update, and the request ends in the [TypeError]
    of a logger call, without the 200 the handler was to send. *)
Theorem status_update_stored_unanswered
    (h : status_handler) (req : id_request) (r : report) (w : world) :
  faults w = [] ->
  castable (p_reportId req) = true ->
  stored (p_reportId req) w = Some r ->
  (handle h req w).1 = Rejected "TypeError"
  /\ stored (p_reportId req) (handle h req w).2
     = Some (set_status r (new_status h) (p_now req)).
Proof.
  intros Hquiet Hcast Hr. destruct w as [d fs]; cbn [faults] in Hquiet; subst fs.
  destruct (handle_quiet h req d r Hcast Hr) as (log & -> & _). cbn [fst snd].
  split; [done|]. unfold stored, find_report; cbn [db reports].
  apply find_id in Hr as [_ Hid]. by apply replaced_at.
Qed.

Lemma status_update_stored_unanswered_witness :
  (handle Archiving on_report1 world1).1 = Rejected "TypeError"
  /\ stored (p_reportId on_report1) (handle Archiving on_report1 world1).2
     = Some (set_status report1 "archived" 1700000009000).
Proof.
  apply (status_update_stored_unanswered Archiving on_report1 report1 world1);
    reflexivity.
Defined.

(** X21 ([archiveReport], [restoreReport]).  Restoring does not bring back
    what archiving took: with a driver that does not fail, a report
    archived and then restored is stored as completed whatever its status
    was before, a failed or a processing report included, with the time of
    the restore as its [updatedAt]; the other paths of [report] are as
    they were. *)
Theorem restore_forgets_status (req req' : id_request) (r : report) (w : world) :
  faults w = [] ->
  castable (p_reportId req) = true ->
  castable (p_reportId req') = true ->
  cast_id (p_reportId req') = cast_id (p_reportId req) ->
  stored (p_reportId req) w = Some r ->
  stored (p_reportId req) (restoreReport req' (archiveReport req w).2).2
  = Some (set_status r "completed" (p_now req')).
Proof.
  intros Hquiet Hcast Hcast' Hsame Hr.
  destruct w as [d fs]; cbn [faults] in Hquiet; subst fs.
  unfold stored in Hr; cbn [db] in Hr.
  pose proof (find_id _ _ _ Hr) as [_ Hid].
  destruct (handle_quiet Archiving req d r Hcast Hr) as (log & Hrun & _).
  cbn [handle new_status] in Hrun. rewrite Hrun. cbn [snd].
  set (r1 := set_status r "archived" (p_now req)) in *.
  assert (Hr1 : find_report (fun x => String.eqb (_id x) (cast_id (p_reportId req')))
                  {| reports := replace_report r1 (reports d);
                     users := users d; auditLog := log |} = Some r1).
  { unfold find_report; cbn [reports]. rewrite Hsame. by apply replaced_at. }
  destruct (handle_quiet Restoring req' _ r1 Hcast' Hr1) as (log' & Hrun' & _).
  cbn [handle new_status] in Hrun'. rewrite Hrun'. cbn [snd].
  unfold stored, find_report; cbn [db reports].
  change (set_status r1 "completed" (p_now req'))
    with (set_status r "completed" (p_now req')).
  by apply replaced_at.
Qed.

Lemma restore_forgets_status_witness :
  stored (p_reportId on_report1)
    (restoreReport on_report1_later (archiveReport on_report1 world2).2).2
  = Some (set_status failed_report "completed" 1700000010000).
Proof.
  apply (restore_forgets_status on_report1 on_report1_later failed_report world2);
    reflexivity.
Defined.

End ControllerFacts.

(** ** The client's throttle *)
Module ThrottleFacts.
Import Throttle.
Local Open Scope Z_scope.

Lemma runs_spaced (wait lastTime : Z) (clock : list Z) :
  spaced wait lastTime (runs wait lastTime clock).
Proof.
  revert lastTime. induction clock as [|now later IH]; intros lastTime; cbn; [done|].
  unfold executedFunction. destruct (wait <=? now - lastTime) eqn:Hdue.
  - cbn. split; [lia | apply IH].
  - apply IH.
Qed.

Lemma runs_sublist (wait lastTime : Z) (clock : list Z) :
  sublist (runs wait lastTime clock) clock.
Proof.
  revert lastTime. induction clock as [|now later IH]; intros lastTime; cbn; [done|].
  unfold executedFunction. destruct (wait <=? now - lastTime).
  - by apply sublist_skip.
  - by apply sublist_cons.
Qed.

(** X22 ([throttle]).  Whatever the clock reads, forwards or backwards,
    the calls [throttle] lets through to [func] are calls that were made,
    in their order, each at least [wait] after the one let through before
    it; the first one is at least [wait] after time 0. *)
Theorem throttle_runs_are_spaced (wait : Z) (clock : list Z) :
  sublist (throttle wait clock) clock /\ spaced wait 0 (throttle wait clock).
Proof. split; [apply runs_sublist | apply runs_spaced]. Qed.

End ThrottleFacts.

